(** * AgriChat: the persistence layer and its local-storage fallback

  A shallow embedding of
  - [js/utils.js]              ([StringUtils], [ValidationUtils.isValidMessage]),
  - [js/chat-sidebar.js]       ([truncateText]),
  - [js/database-service.js]   (class [DatabaseService], the client façade),
  - [backend/models/*.js]      (classes [Conversation] and [Message]),
  - [backend/routes/api.js]    (the Express router and its validators),
  - [backend/server.js]        (rate limiter, health, root and 404 handlers),
  - [database/schema.sql]      (tables, constraints, cascade).

  Conventions.
  - JavaScript values are the JSON documents they hold; [undefined] is the
    absence of a value. Strings are ASCII text, numbers are integers, a
    [Date] is the instant it denotes.
  - A method is a function of the state it reads and writes (the service
    and the browser's storage on the client, the tables on the server)
    that returns a value or throws; an [async] method resolves or rejects.
  - What the code cannot decide is an input: the outcome of a [fetch], the
    clock and the random source, the browser's policy for accepting a
    write, the failures of the database connection.
  - SQL statements are functions on the tables; [ORDER BY] is a stable
    sort of the rows in their order of insertion. *)

From Stdlib Require Import ZArith String Ascii List Bool Lia.
From stdpp Require Import base option list gmap strings sorting pretty.

Local Set Warnings "-register-all".
Local Open Scope Z_scope.

(** ** JavaScript values and strings *)

Module Js.

(** What [JSON.parse] can return, plus [JDate] for a [Date] object that
    has not been serialised yet.  [undefined] is the absence of a value:
    a [value] is an [option json]. *)
Inductive json : Type :=
| JNull
| JBool (b : bool)
| JNum (n : Z)
| JStr (s : string)
| JDate (t : Z)
| JArr (elements : list json)
| JObj (fields : list (string * json)).

Definition value : Type := option json.
Definition undefined : value := None.

(** [ToBoolean]. *)
Definition truthy (v : value) : bool :=
  match v with
  | None | Some JNull => false
  | Some (JBool b) => b
  | Some (JNum n) => negb (n =? 0)
  | Some (JStr s) => negb (String.eqb s EmptyString)
  | Some (JDate _) | Some (JArr _) | Some (JObj _) => true
  end.

(** [typeof v === 'string']. *)
Definition is_string (v : value) : bool :=
  match v with Some (JStr _) => true | _ => false end.

(** Field lookup in an object literal; when a name is bound twice the
    last binding wins, as in [JSON.parse]. *)
Definition obj_get (k : string) (fields : list (string * json)) : value :=
  fold_left (fun acc kv => if String.eqb k (fst kv) then Some (snd kv) else acc)
            fields None.

(** The character [\], code 92. *)
Definition backslash : ascii := ascii_of_nat 92.

(** White space removed by [String.prototype.trim], ASCII range. *)
Definition is_space (c : ascii) : bool :=
  let n := nat_of_ascii c in
  ((9 <=? n) && (n <=? 13))%nat || (n =? 32)%nat.

Fixpoint trimStart (s : string) : string :=
  match s with
  | EmptyString => EmptyString
  | String c s' => if is_space c then trimStart s' else s
  end.

Definition trim (s : string) : string :=
  String.rev (trimStart (String.rev (trimStart s))).

Definition lower (c : ascii) : ascii :=
  let n := nat_of_ascii c in
  if ((65 <=? n) && (n <=? 90))%nat then ascii_of_nat (n + 32) else c.

Fixpoint toLowerCase (s : string) : string :=
  match s with
  | EmptyString => EmptyString
  | String c s' => String (lower c) (toLowerCase s')
  end.

(** [s.includes(sub)]. *)
Fixpoint includes (s sub : string) : bool :=
  String.prefix sub s ||
  match s with
  | EmptyString => false
  | String _ s' => includes s' sub
  end.

(** [parseInt(s)]: leading white space, a sign, an optional [0x] prefix,
    then the longest run of digits of the radix; [None] is [NaN]. *)
Definition digit_value (c : ascii) : option Z :=
  let n := nat_of_ascii c in
  if ((48 <=? n) && (n <=? 57))%nat then Some (Z.of_nat (n - 48))
  else if ((97 <=? n) && (n <=? 102))%nat then Some (Z.of_nat (n - 87))
  else if ((65 <=? n) && (n <=? 70))%nat then Some (Z.of_nat (n - 55))
  else None.

Fixpoint parse_digits (radix : Z) (s : string) (acc : option Z) : option Z :=
  match s with
  | EmptyString => acc
  | String c s' =>
      match digit_value c with
      | Some d =>
          if d <? radix then parse_digits radix s' (Some (default 0 acc * radix + d))
          else acc
      | None => acc
      end
  end.

Definition parseInt (s : string) : option Z :=
  let s := trimStart s in
  let '(negative, s) :=
    match s with
    | String c s' =>
        if bool_decide (c = "-"%char) then (true, s')
        else if bool_decide (c = "+"%char) then (false, s')
        else (false, s)
    | EmptyString => (false, s)
    end in
  let '(radix, s) :=
    match s with
    | String c (String x s') =>
        if bool_decide (c = "0"%char)
           && (bool_decide (x = "x"%char) || bool_decide (x = "X"%char))
        then (16, s') else (10, s)
    | _ => (10, s)
    end in
  (fun n => if negative : bool then - n else n) <$> parse_digits radix s None.

End Js.

(** ** Calls that read and write a state and may throw

    [SE S E A] is a computation over a state [S] that returns an [A] or
    throws an [E].  For an [async] function, returning is a promise that
    resolves and throwing is one that rejects. *)

Module Eff.

Inductive Settled (E A : Type) : Type :=
| Resolved (v : A)
| Rejected (e : E).
Arguments Resolved {E A} v.
Arguments Rejected {E A} e.

Definition SE (S E A : Type) : Type := S -> Settled E A * S.

#[global] Instance SE_ret {S E : Type} : MRet (SE S E) :=
  fun A (v : A) s => (Resolved v, s).

#[global] Instance SE_bind {S E : Type} : MBind (SE S E) :=
  fun A B (k : A -> SE S E B) (m : SE S E A) s =>
    match m s with
    | (Resolved v, s') => k v s'
    | (Rejected e, s') => (Rejected e, s')
    end.

Definition throw {S E A : Type} (e : E) : SE S E A := fun s => (Rejected e, s).

(** [try { body } catch (error) { handler }] *)
Definition try_catch {S E A : Type} (body : SE S E A) (handler : E -> SE S E A)
  : SE S E A :=
  fun s =>
    match body s with
    | (Resolved v, s') => (Resolved v, s')
    | (Rejected e, s') => handler e s'
    end.

Definition get {S E : Type} : SE S E S := fun s => (Resolved s, s).
Definition put {S E : Type} (s : S) : SE S E unit := fun _ => (Resolved tt, s).

End Eff.

(** ** [StringUtils.isValidInput] (js/utils.js) *)

Module StringUtils.
Import Js.

(** [text && text.trim().length > 0 && text.length <= 1000], read as a
    boolean; [text] is the string typed by the user. *)
Definition isValidInput (text : string) : bool :=
  truthy (Some (JStr text))
  && (0 <? String.length (trim text))%nat
  && (String.length text <=? 1000)%nat.

(** [truncate(text, maxLength = 100)]: [text.substring(0, maxLength) + '...']
    for a text longer than [maxLength]. *)
Definition truncate (text : string) (maxLength : nat) : string :=
  if (String.length text <=? maxLength)%nat then text
  else (String.substring 0 maxLength text ++ "...")%string.

(** [text.replace(/[<>]/g, '')] *)
Fixpoint remove_angles (text : string) : string :=
  match text with
  | EmptyString => EmptyString
  | String c rest =>
      if bool_decide (c = "<"%char) || bool_decide (c = ">"%char)
      then remove_angles rest
      else String c (remove_angles rest)
  end.

(** [sanitize(text)] *)
Definition sanitize (text : string) : string := trim (remove_angles text).

End StringUtils.

(** ** [ValidationUtils.isValidMessage] (js/utils.js) and
    [ChatSidebar.truncateText] (js/chat-sidebar.js) *)

Module ValidationUtils.

(** [StringUtils.isValidInput(message) && message.length >= 3] *)
Definition isValidMessage (message : string) : bool :=
  StringUtils.isValidInput message && (3 <=? String.length message)%nat.

End ValidationUtils.

Module ChatSidebar.

(** [truncateText(text, maxLength)] *)
Definition truncateText (text : string) (maxLength : nat) : string :=
  if (String.length text <=? maxLength)%nat then text
  else (String.substring 0 maxLength text ++ "...")%string.

End ChatSidebar.

(** ** The client persistence façade (js/database-service.js) *)

Module DatabaseService.
Import Js Eff.

(** *** Records kept in local storage

    [LocalConversation] and [LocalMessage] are the object literals built by
    [createLocalConversation] and [addLocalMessage].  Identifiers are the
    numbers [Date.now() + Math.random()]; they are only ever compared
    ([==], [!=]) and spliced into a storage key, so the model takes them from
    the environment as opaque numbers. *)

Record LocalConversation : Type := mkLocalConversation {
  conv_id : Z;
  conv_title : string;
  conv_created_at : Z;
  conv_updated_at : Z;
  conv_message_count : Z
}.

Record LocalMessage : Type := mkLocalMessage {
  msg_id : Z;
  msg_conversation_id : Z;
  msg_content : string;
  msg_type : string;
  msg_timestamp : Z
}.

(** The two kinds of entries the service keeps: the list stored under the
    fixed key ['agrichat_conversations'] ([None] when the key is absent) and
    the lists stored under the keys [`agrichat_messages_${conversationId}`]
    (a finite map from those keys). The entries hold the documents that
    [JSON.stringify] wrote and [JSON.parse] reads back. *)
Record Items : Type := mkItems {
  agrichat_conversations : option (list LocalConversation);
  agrichat_messages : gmap string (list LocalMessage)
}.

(** [`agrichat_messages_${conversationId}`] *)
Definition messages_key (conversationId : Z) : string :=
  "agrichat_messages_" +:+ pretty conversationId.

(** The browser's [localStorage]: its entries and the browser's policy for
    accepting a write ([setItem] throws [QuotaExceededError] when the
    entries that would result are not allowed). *)
Record Storage : Type := mkStorage {
  items : Items;
  allows : Items -> bool
}.

(** The fields of a [DatabaseService] instance ([baseURL] is a constant). *)
Record Service : Type := mkService {
  currentConversationId : value;
  isConnected : bool;
  localStorage : Storage
}.

Definition baseURL : string := "http://localhost:3000/api".

(** *** Exceptions, promises and the state monad of the methods *)

Inductive Exn : Type :=
| QuotaExceededError   (* thrown by [localStorage.setItem] *)
| TypeError            (* property access on [undefined] or [null] *)
| HttpError            (* [new Error(`HTTP ${status}: ...`)] *)
| FetchError           (* [fetch] rejected: transport failure *)
| SyntaxError.         (* [response.json()] rejected *)

Abbreviation M := (SE Service Exn).

(** *** [localStorage] *)

Definition getItem_conversations : M (option (list LocalConversation)) :=
  fun s => (Resolved (agrichat_conversations (items (localStorage s))), s).

Definition getItem_messages (conversationId : Z) : M (option (list LocalMessage)) :=
  fun s => (Resolved (agrichat_messages (items (localStorage s))
                      !! messages_key conversationId), s).

Definition store (it : Items) (s : Service) : Service :=
  {| currentConversationId := currentConversationId s;
     isConnected := isConnected s;
     localStorage := {| items := it; allows := allows (localStorage s) |} |}.

Definition write (it : Items) : M unit :=
  fun s =>
    if allows (localStorage s) it then (Resolved tt, store it s)
    else (Rejected QuotaExceededError, s).

Definition with_conversations (l : list LocalConversation) (it : Items) : Items :=
  {| agrichat_conversations := Some l; agrichat_messages := agrichat_messages it |}.

Definition with_messages (conversationId : Z) (l : list LocalMessage) (it : Items) : Items :=
  {| agrichat_conversations := agrichat_conversations it;
     agrichat_messages := <[messages_key conversationId := l]> (agrichat_messages it) |}.

Definition without_messages (conversationId : Z) (it : Items) : Items :=
  {| agrichat_conversations := agrichat_conversations it;
     agrichat_messages := delete (messages_key conversationId) (agrichat_messages it) |}.

(** [localStorage.setItem('agrichat_conversations', JSON.stringify(l))] *)
Definition setItem_conversations (l : list LocalConversation) : M unit :=
  fun s => write (with_conversations l (items (localStorage s))) s.

(** [localStorage.setItem(`agrichat_messages_${conversationId}`, JSON.stringify(l))] *)
Definition setItem_messages (conversationId : Z) (l : list LocalMessage) : M unit :=
  fun s => write (with_messages conversationId l (items (localStorage s))) s.

(** [localStorage.removeItem(`agrichat_messages_${conversationId}`)]: never throws. *)
Definition removeItem_messages (conversationId : Z) : M unit :=
  fun s => (Resolved tt, store (without_messages conversationId (items (localStorage s))) s).

(** *** The network, the clock and the random source *)

(** What [fetch] gives back for one request: [None] when it rejects;
    otherwise [response.ok] and the document [response.json()] resolves to
    ([None] when it rejects). *)
Record HttpResponse : Type := mkHttpResponse {
  ok : bool;
  json_body : option json
}.

Definition Network : Type := option HttpResponse.

Definition fetch (net : Network) : M HttpResponse :=
  match net with
  | Some response => mret response
  | None => throw FetchError
  end.

Definition response_json (response : HttpResponse) : M json :=
  match json_body response with
  | Some result => mret result
  | None => throw SyntaxError
  end.

(** [v.k] for a value [v]: a [TypeError] on [undefined] and [null], the
    field for an object, [undefined] for anything else. *)
Definition prop (v : value) (k : string) : M value :=
  match v with
  | None | Some JNull => throw TypeError
  | Some (JObj fields) => mret (obj_get k fields)
  | Some _ => mret undefined
  end.

(** [now] is the instant [new Date()] returns during the call and [fresh]
    the number [Date.now() + Math.random()]. *)
Record Env : Type := mkEnv {
  now : Z;
  fresh : Z
}.

(** *** What the methods return

    One constructor per shape of object literal.  A field filled from the
    server's answer is [Remote v] ([v] is whatever the answer held, possibly
    [undefined]); a field filled from local storage is [Local x]. *)

Inductive Payload (A : Type) : Type :=
| Remote (v : value)
| Local (x : A).
Arguments Remote {A} v.
Arguments Local {A} x.

Record MessageCounts : Type := mkMessageCounts {
  total_messages : nat;
  user_messages : nat;
  ai_messages : nat;
  error_messages : nat
}.

Record LocalStats : Type := mkLocalStats {
  stats_conversation_message_count : nat;
  stats_messages : MessageCounts
}.

Inductive Reply : Type :=
| ConversationReply (success : bool) (conversation : Payload LocalConversation)
| ConversationsReply (success : bool) (conversations : Payload (list LocalConversation))
                     (pagination : value)
| MessagesReply (success : bool) (messages : Payload (list LocalMessage))
                (pagination : value)
| MessageReply (success : bool) (message : Payload LocalMessage)
| SuccessReply (success : bool)
| SearchReply (success : bool) (conversations : Payload (list LocalConversation))
              (query : Payload string) (count : Payload nat)
| StatsReply (success : bool) (stats : Payload LocalStats).

(** The [success] field of a reply. *)
Definition success (r : Reply) : bool :=
  match r with
  | ConversationReply b _ | ConversationsReply b _ _ | MessagesReply b _ _
  | MessageReply b _ | SuccessReply b | SearchReply b _ _ _ | StatsReply b _ => b
  end.

(** *** Construction and the probe of the backend *)

(** [constructor()]: the fields before the probe of [testConnection]
    has settled. *)
Definition constructor (browser : Storage) : Service :=
  {| currentConversationId := Some JNull;
     isConnected := false;
     localStorage := browser |}.

Definition set_isConnected (b : bool) : M unit :=
  fun s => (Resolved tt,
            {| currentConversationId := currentConversationId s;
               isConnected := b;
               localStorage := localStorage s |}).

(** [async testConnection()]: [net] is the outcome of the request to
    [/health]. *)
Definition testConnection (net : Network) : M unit :=
  try_catch
    (response ← fetch net;
     if ok response then set_isConnected true else set_isConnected false)
    (fun _ => set_isConnected false).

(** *** Local-storage fallback methods *)

(** [JSON.parse(localStorage.getItem('agrichat_conversations') || '[]')] *)
Definition local_conversations : M (list LocalConversation) :=
  raw ← getItem_conversations;
  mret (default [] raw).

(** [JSON.parse(localStorage.getItem(`agrichat_messages_${conversationId}`) || '[]')] *)
Definition local_messages (conversationId : Z) : M (list LocalMessage) :=
  raw ← getItem_messages conversationId;
  mret (default [] raw).

Definition getLocalConversations : M Reply :=
  conversations ← local_conversations;
  mret (ConversationsReply true (Local conversations) undefined).

Definition getLocalMessages (conversationId : Z) : M Reply :=
  messages ← local_messages conversationId;
  mret (MessagesReply true (Local messages) undefined).

Definition createLocalConversation (env : Env) (title : string) : M Reply :=
  let conversation :=
    {| conv_id := fresh env;
       conv_title := title;
       conv_created_at := now env;
       conv_updated_at := now env;
       conv_message_count := 0 |} in
  conversations ← local_conversations;
  (* conversations.unshift(conversation) *)
  setItem_conversations (conversation :: conversations);;
  mret (ConversationReply true (Local conversation)).

(** [conversations.find(c => c.id == conversationId)], with the position of
    the element found: the object is then mutated in place, inside the
    array that is written back. *)
Definition find_conversation (conversationId : Z) (conversations : list LocalConversation)
  : option (nat * LocalConversation) :=
  list_find (fun c => conv_id c = conversationId) conversations.

Definition updateLocalConversationTimestamp (env : Env) (conversationId : Z) : M unit :=
  conversations ← local_conversations;
  match find_conversation conversationId conversations with
  | Some (i, conversation) =>
      let conversation' :=
        {| conv_id := conv_id conversation;
           conv_title := conv_title conversation;
           conv_created_at := conv_created_at conversation;
           conv_updated_at := now env;
           conv_message_count := conv_message_count conversation + 1 |} in
      setItem_conversations (<[i := conversation']> conversations)
  | None => mret tt
  end.

Definition addLocalMessage (env : Env) (conversationId : Z) (content type : string)
  : M Reply :=
  let message :=
    {| msg_id := fresh env;
       msg_conversation_id := conversationId;
       msg_content := content;
       msg_type := type;
       msg_timestamp := now env |} in
  messages ← local_messages conversationId;
  (* messages.push(message) *)
  setItem_messages conversationId (messages ++ [message]);;
  updateLocalConversationTimestamp env conversationId;;
  mret (MessageReply true (Local message)).

Definition updateLocalConversationTitle (env : Env) (conversationId : Z) (title : string)
  : M Reply :=
  conversations ← local_conversations;
  match find_conversation conversationId conversations with
  | Some (i, conversation) =>
      let conversation' :=
        {| conv_id := conv_id conversation;
           conv_title := title;
           conv_created_at := conv_created_at conversation;
           conv_updated_at := now env;
           conv_message_count := conv_message_count conversation |} in
      setItem_conversations (<[i := conversation']> conversations);;
      mret (SuccessReply true)
  | None => mret (SuccessReply false)
  end.

Definition deleteLocalConversation (conversationId : Z) : M Reply :=
  conversations ← local_conversations;
  let filtered := List.filter (fun c => negb (conv_id c =? conversationId)) conversations in
  setItem_conversations filtered;;
  removeItem_messages conversationId;;
  mret (SuccessReply true).

Definition searchLocalConversations (query : string) : M Reply :=
  conversations ← local_conversations;
  let filtered :=
    List.filter (fun c => includes (toLowerCase (conv_title c)) (toLowerCase query))
                conversations in
  mret (SearchReply true (Local filtered) (Local query) (Local (length filtered))).

Definition getLocalConversationStats (conversationId : Z) : M Reply :=
  messages ← local_messages conversationId;
  let of_type t := length (List.filter (fun m => String.eqb (msg_type m) t) messages) in
  mret (StatsReply true (Local
    {| stats_conversation_message_count := length messages;
       stats_messages :=
         {| total_messages := length messages;
            user_messages := of_type "user"%string;
            ai_messages := of_type "ai"%string;
            error_messages := of_type "error"%string |} |})).

(** *** Public methods

    Each takes the outcome [net] of the one [fetch] it may issue.  The body
    of every [try] is: [fetch], [if (!response.ok) throw], [response.json()],
    then the object literal built from [result]. *)

Definition isBackendAvailable : M bool :=
  fun s => (Resolved (isConnected s), s).

Definition set_currentConversationId (v : value) : M unit :=
  fun s => (Resolved tt,
            {| currentConversationId := v;
               isConnected := isConnected s;
               localStorage := localStorage s |}).

(** [fetch(...)], [if (!response.ok) throw new Error(...)] *)
Definition fetch_ok (net : Network) : M HttpResponse :=
  response ← fetch net;
  if negb (ok response) then throw HttpError else mret response.

Definition createConversation (env : Env) (net : Network) (title : option string)
  : M Reply :=
  let title := default "New Conversation"%string title in
  connected ← isBackendAvailable;
  if negb connected then createLocalConversation env title
  else
    try_catch
      (response ← fetch_ok net;
       result ← response_json response;
       data ← prop (Some result) "data";
       id ← prop data "id";
       set_currentConversationId id;;
       mret (ConversationReply true (Remote data)))
      (fun _ => createLocalConversation env title).

Definition getConversations (net : Network) (limit offset : Z) : M Reply :=
  connected ← isBackendAvailable;
  if negb connected then getLocalConversations
  else
    try_catch
      (response ← fetch_ok net;
       result ← response_json response;
       data ← prop (Some result) "data";
       pagination ← prop (Some result) "pagination";
       mret (ConversationsReply true (Remote data) pagination))
      (fun _ => getLocalConversations).

Definition getMessages (net : Network) (conversationId : Z) (limit offset : Z) : M Reply :=
  connected ← isBackendAvailable;
  if negb connected then getLocalMessages conversationId
  else
    try_catch
      (response ← fetch_ok net;
       result ← response_json response;
       data ← prop (Some result) "data";
       pagination ← prop (Some result) "pagination";
       mret (MessagesReply true (Remote data) pagination))
      (fun _ => getLocalMessages conversationId).

Definition addMessage (env : Env) (net : Network) (conversationId : Z)
  (content type : string) : M Reply :=
  connected ← isBackendAvailable;
  if negb connected then addLocalMessage env conversationId content type
  else
    try_catch
      (response ← fetch_ok net;
       result ← response_json response;
       data ← prop (Some result) "data";
       mret (MessageReply true (Remote data)))
      (fun _ => addLocalMessage env conversationId content type).

Definition updateConversationTitle (env : Env) (net : Network) (conversationId : Z)
  (title : string) : M Reply :=
  connected ← isBackendAvailable;
  if negb connected then updateLocalConversationTitle env conversationId title
  else
    try_catch
      (fetch_ok net;;
       mret (SuccessReply true))
      (fun _ => updateLocalConversationTitle env conversationId title).

Definition deleteConversation (net : Network) (conversationId : Z) : M Reply :=
  connected ← isBackendAvailable;
  if negb connected then deleteLocalConversation conversationId
  else
    try_catch
      (fetch_ok net;;
       mret (SuccessReply true))
      (fun _ => deleteLocalConversation conversationId).

Definition searchConversations (net : Network) (query : string) (limit : Z) : M Reply :=
  connected ← isBackendAvailable;
  if negb connected then searchLocalConversations query
  else
    try_catch
      (response ← fetch_ok net;
       result ← response_json response;
       data ← prop (Some result) "data";
       q ← prop (Some result) "query";
       n ← prop (Some result) "count";
       mret (SearchReply true (Remote data) (Remote q) (Remote n)))
      (fun _ => searchLocalConversations query).

Definition getConversationStats (net : Network) (conversationId : Z) : M Reply :=
  connected ← isBackendAvailable;
  if negb connected then getLocalConversationStats conversationId
  else
    try_catch
      (response ← fetch_ok net;
       result ← response_json response;
       data ← prop (Some result) "data";
       mret (StatsReply true (Remote data)))
      (fun _ => getLocalConversationStats conversationId).

(** [setCurrentConversation(conversationId)] *)
Definition setCurrentConversation (conversationId : value) : M unit :=
  set_currentConversationId conversationId.

(** [getCurrentConversation()] *)
Definition getCurrentConversation : M value :=
  fun s => (Resolved (currentConversationId s), s).

(** The eight public methods, as one type of calls. *)
Inductive Call : Type :=
| CreateConversation (title : option string)
| GetConversations (limit offset : Z)
| GetMessages (conversationId limit offset : Z)
| AddMessage (conversationId : Z) (content type : string)
| UpdateConversationTitle (conversationId : Z) (title : string)
| DeleteConversation (conversationId : Z)
| SearchConversations (query : string) (limit : Z)
| GetConversationStats (conversationId : Z).

Definition perform (env : Env) (net : Network) (c : Call) : M Reply :=
  match c with
  | CreateConversation title => createConversation env net title
  | GetConversations limit offset => getConversations net limit offset
  | GetMessages conversationId limit offset => getMessages net conversationId limit offset
  | AddMessage conversationId content type => addMessage env net conversationId content type
  | UpdateConversationTitle conversationId title =>
      updateConversationTitle env net conversationId title
  | DeleteConversation conversationId => deleteConversation net conversationId
  | SearchConversations query limit => searchConversations net query limit
  | GetConversationStats conversationId => getConversationStats net conversationId
  end.

(** [localStorage.removeItem('agrichat_conversations')]: never throws. *)
Definition removeItem_conversations : M unit :=
  fun s => (Resolved tt,
            store {| agrichat_conversations := None;
                     agrichat_messages := agrichat_messages (items (localStorage s)) |} s).

(** [array.forEach(f)] *)
Fixpoint forEach {A : Type} (f : A -> M unit) (l : list A) : M unit :=
  match l with
  | [] => mret tt
  | x :: rest => f x;; forEach f rest
  end.

(** [clearLocalData()] *)
Definition clearLocalData : M unit :=
  removeItem_conversations;;
  conversations ← local_conversations;
  forEach (fun conv => removeItem_messages (conv_id conv)) conversations;;
  removeItem_conversations.

End DatabaseService.

(** ** The relational store (database/schema.sql) *)

Module Schema.
Import Js.

(** [ENUM('user', 'ai', 'error')] *)
Inductive MessageType : Type := user | ai | error.

Definition type_name (t : MessageType) : string :=
  match t with user => "user" | ai => "ai" | error => "error" end.

Definition enum_of_string (s : string) : option MessageType :=
  if String.eqb s "user" then Some user
  else if String.eqb s "ai" then Some ai
  else if String.eqb s "error" then Some error
  else None.

(** A row of [conversations]; [title] and [user_id] are nullable. *)
Record ConversationRow : Type := mkConversationRow {
  c_id : Z;
  c_user_id : option Z;
  c_title : option string;
  c_created_at : Z;
  c_updated_at : Z
}.

(** A row of [messages]. *)
Record MessageRow : Type := mkMessageRow {
  m_id : Z;
  m_conversation_id : Z;
  m_content : string;
  m_type : MessageType;
  m_timestamp : Z
}.

(** The three tables ([users] by its primary keys only) and the two
    [AUTO_INCREMENT] counters. *)
Record Tables : Type := mkTables {
  users : list Z;
  conversations : list ConversationRow;
  messages : list MessageRow;
  next_conversation_id : Z;
  next_message_id : Z
}.

(** [VARCHAR(255)] and [TEXT] *)
Definition title_max : Z := 255.
Definition content_max : Z := 65535.

Definition fits (s : string) (max : Z) : bool := Z.of_nat (String.length s) <=? max.

(** *** Parameters of a prepared statement *)

Inductive param : Type :=
| PNull
| PInt (n : Z)
| PText (s : string).

(** How the driver binds a JavaScript value to a placeholder. [undefined]
    is refused by the driver. Dates, arrays and objects are not modelled
    ([None] as well): the routes pass none to a statement. *)
Definition bind (v : value) : option param :=
  match v with
  | Some JNull => Some PNull
  | Some (JBool b) => Some (PInt (if b then 1 else 0))
  | Some (JNum n) => Some (PInt n)
  | Some (JStr s) => Some (PText s)
  | _ => None
  end.

Definition digit (c : ascii) : option Z :=
  let n := nat_of_ascii c in
  if ((48 <=? n) && (n <=? 57))%nat then Some (Z.of_nat (n - 48)) else None.

(** The decimal digits at the head of [s], read as a number. *)
Fixpoint digits (s : string) (acc : option Z) : option Z :=
  match s with
  | EmptyString => acc
  | String c s' =>
      match digit c with
      | Some d => digits s' (Some (default 0 acc * 10 + d))
      | None => acc
      end
  end.

Fixpoint all_digits (s : string) : bool :=
  match s with
  | EmptyString => true
  | String c s' => bool_decide (is_Some (digit c)) && all_digits s'
  end.

(** Assignment to an [INT] column, strict mode: [None] is the error
    [Incorrect integer value]. *)
Definition int_column (p : param) : option (option Z) :=
  match p with
  | PNull => Some None
  | PInt n => Some (Some n)
  | PText s => if all_digits s then Some <$> digits s None else None
  end.

(** Assignment to a [VARCHAR] column. *)
Definition text_column (p : param) : option string :=
  match p with
  | PNull => None
  | PInt n => Some (pretty n)
  | PText s => Some s
  end.

(** [column = ?] for an [INT] column: a text parameter is compared by the
    integer at its head, [0] when there is none; [NULL] equals nothing. *)
Definition int_equals (column : option Z) (p : param) : bool :=
  match column, p with
  | Some n, PInt k => n =? k
  | Some n, PText s => n =? default 0 (digits s None)
  | _, _ => false
  end.

(** [text LIKE pattern], with [%], [_] and the escape character [\], under
    a case-insensitive collation. *)
Definition same_letter (a b : ascii) : bool :=
  bool_decide (lower a = lower b).

Fixpoint like (pattern text : string) : bool :=
  match pattern with
  | EmptyString => match text with EmptyString => true | String _ _ => false end
  | String p rest =>
      if bool_decide (p = "%"%char) then
        (fix any (t : string) : bool :=
           like rest t
           || match t with
              | EmptyString => false
              | String _ t' => any t'
              end) text
      else if bool_decide (p = "_"%char) then
        match text with
        | EmptyString => false
        | String _ t' => like rest t'
        end
      else if bool_decide (p = backslash) then
        match rest with
        | String q rest' =>
            match text with
            | EmptyString => false
            | String c t' => same_letter q c && like rest' t'
            end
        | EmptyString =>
            match text with
            | String c EmptyString => same_letter p c
            | _ => false
            end
        end
      else
        match text with
        | EmptyString => false
        | String c t' => same_letter p c && like rest t'
        end
  end.

(** [`%${query}%`] *)
Definition contains_pattern (query : string) : string :=
  ("%" ++ query ++ "%")%string.

(** *** Statements: each is a function of [NOW()] and the tables, [None]
    when the server refuses it (constraint, strict mode). *)

Definition Statement (A : Type) : Type := Z -> Tables -> option (A * Tables).

Definition conversation_exists (id : Z) (t : Tables) : bool :=
  existsb (fun c => c_id c =? id) (conversations t).

Definition user_exists (id : Z) (t : Tables) : bool :=
  existsb (fun u => u =? id) (users t).

(** [INSERT INTO conversations (title, user_id, created_at, updated_at)
     VALUES (?, ?, NOW(), NOW())]; returns [insertId]. *)
Definition insert_conversation (title userId : param) : Statement Z :=
  fun now t =>
    match int_column userId with
    | None => None
    | Some owner =>
        let in_users := match owner with Some u => user_exists u t | None => true end in
        let short := match text_column title with
                     | Some s => fits s title_max
                     | None => true
                     end in
        if in_users && short then
          let id := next_conversation_id t in
          Some (id,
                {| users := users t;
                   conversations :=
                     conversations t ++ [mkConversationRow id owner (text_column title) now now];
                   messages := messages t;
                   next_conversation_id := id + 1;
                   next_message_id := next_message_id t |})
        else None
    end.

(** [INSERT INTO messages (conversation_id, content, type, timestamp)
     VALUES (?, ?, ?, NOW())]; returns [insertId]. *)
Definition insert_message (conversationId : Z) (content type : string) : Statement Z :=
  fun now t =>
    match enum_of_string type with
    | Some ty =>
        if conversation_exists conversationId t && fits content content_max then
          let id := next_message_id t in
          Some (id,
                {| users := users t;
                   conversations := conversations t;
                   messages := messages t ++ [mkMessageRow id conversationId content ty now];
                   next_conversation_id := next_conversation_id t;
                   next_message_id := id + 1 |})
        else None
    | None => None
    end.

Definition set_conversations (cs : list ConversationRow) (t : Tables) : Tables :=
  {| users := users t;
     conversations := cs;
     messages := messages t;
     next_conversation_id := next_conversation_id t;
     next_message_id := next_message_id t |}.

Definition touch (now : Z) (c : ConversationRow) : ConversationRow :=
  mkConversationRow (c_id c) (c_user_id c) (c_title c) (c_created_at c) now.

(** [UPDATE conversations SET updated_at = NOW() WHERE id = ?] *)
Definition touch_conversation (id : Z) : Statement unit :=
  fun now t =>
    Some (tt,
          set_conversations
            (map (fun c => if c_id c =? id then touch now c else c) (conversations t)) t).

(** [UPDATE conversations SET title = ?, updated_at = NOW() WHERE id = ?];
    returns [affectedRows]. *)
Definition update_title (title : param) (id : Z) : Statement nat :=
  fun now t =>
    let affected := length (List.filter (fun c => c_id c =? id) (conversations t)) in
    let short := match text_column title with
                 | Some s => fits s title_max
                 | None => true
                 end in
    if (affected =? 0)%nat then Some (0%nat, t)
    else if short then
      Some (affected,
            set_conversations
              (map (fun c =>
                      if c_id c =? id
                      then mkConversationRow (c_id c) (c_user_id c) (text_column title)
                                             (c_created_at c) now
                      else c)
                   (conversations t)) t)
    else None.

(** [DELETE FROM conversations WHERE id = ?], with
    [ON DELETE CASCADE] on [messages.conversation_id]; returns
    [affectedRows]. *)
Definition delete_conversation (id : Z) : Statement nat :=
  fun _ t =>
    Some (length (List.filter (fun c => c_id c =? id) (conversations t)),
          {| users := users t;
             conversations := List.filter (fun c => negb (c_id c =? id)) (conversations t);
             messages := List.filter (fun m => negb (m_conversation_id m =? id)) (messages t);
             next_conversation_id := next_conversation_id t;
             next_message_id := next_message_id t |}).

Definition read {A : Type} (f : Tables -> A) : Statement A :=
  fun _ t => Some (f t, t).

(** [ORDER BY timestamp ASC] and [ORDER BY timestamp DESC] *)
Definition earlier (a b : MessageRow) : Prop := m_timestamp a <= m_timestamp b.
Definition later (a b : MessageRow) : Prop := m_timestamp b <= m_timestamp a.

#[global] Instance earlier_dec : RelDecision earlier.
Proof. intros a b. unfold earlier. apply _. Defined.

#[global] Instance later_dec : RelDecision later.
Proof. intros a b. unfold later. apply _. Defined.

Definition messages_of (conversationId : Z) (t : Tables) : list MessageRow :=
  List.filter (fun m => m_conversation_id m =? conversationId) (messages t).

(** [SELECT * FROM messages WHERE conversation_id = ?
     ORDER BY timestamp ASC LIMIT ? OFFSET ?] *)
Definition select_messages (conversationId : Z) (limit offset : nat) (t : Tables)
  : list MessageRow :=
  take limit (drop offset (merge_sort earlier (messages_of conversationId t))).

(** [SELECT * FROM messages WHERE conversation_id = ?
     ORDER BY timestamp DESC LIMIT ?] *)
Definition select_latest_messages (conversationId : Z) (count : nat) (t : Tables)
  : list MessageRow :=
  take count (merge_sort later (messages_of conversationId t)).

(** A row of [conversations] with the two aggregates
    [COUNT(m.id) as message_count] and [MAX(m.timestamp) as last_message_time]. *)
Record ConversationSummary : Type := mkConversationSummary {
  summary_row : ConversationRow;
  message_count : nat;
  last_message_time : option Z
}.

Definition latest (times : list Z) : option Z :=
  foldr (fun t acc => Some (match acc with Some u => Z.max t u | None => t end)) None times.

Definition summarize (c : ConversationRow) (joined : list MessageRow) : ConversationSummary :=
  {| summary_row := c;
     message_count := length joined;
     last_message_time := latest (map m_timestamp joined) |}.

(** [ORDER BY c.updated_at DESC] *)
Definition fresher (a b : ConversationSummary) : Prop :=
  c_updated_at (summary_row b) <= c_updated_at (summary_row a).

#[global] Instance fresher_dec : RelDecision fresher.
Proof. intros a b. unfold fresher. apply _. Defined.

(** [WHERE c.user_id = ?], present when [userId !== null]. *)
Definition owned_by (userId : option param) (c : ConversationRow) : bool :=
  match userId with
  | None => true
  | Some p => int_equals (c_user_id c) p
  end.

(** [SELECT c.*, COUNT(m.id), MAX(m.timestamp) FROM conversations c
     LEFT JOIN messages m ON c.id = m.conversation_id
     WHERE c.id = ? GROUP BY c.id] *)
Definition select_conversation (id : Z) (t : Tables) : list ConversationSummary :=
  map (fun c => summarize c (messages_of (c_id c) t))
      (List.filter (fun c => c_id c =? id) (conversations t)).

(** The same join, grouped, [ORDER BY c.updated_at DESC LIMIT ? OFFSET ?]. *)
Definition select_conversations (userId : option param) (limit offset : nat) (t : Tables)
  : list ConversationSummary :=
  take limit (drop offset (merge_sort fresher
    (map (fun c => summarize c (messages_of (c_id c) t))
         (List.filter (owned_by userId) (conversations t))))).

Definition title_like (pattern : string) (c : ConversationRow) : bool :=
  match c_title c with
  | Some s => like pattern s
  | None => false
  end.

(** The rows of the left join for one conversation that pass
    [WHERE (c.title LIKE ? OR m.content LIKE ?)]: [Some m] for a joined
    message, [None] for the row of a conversation without messages. *)
Definition matching_join (pattern : string) (c : ConversationRow) (t : Tables)
  : list (option MessageRow) :=
  let joined := match messages_of (c_id c) t with
                | [] => [None]
                | ms => map Some ms
                end in
  List.filter (fun j => title_like pattern c
                        || match j with
                           | Some m => like pattern (m_content m)
                           | None => false
                           end) joined.

(** [GROUP BY c.id]: one row per conversation with a surviving join row. *)
Definition search_group (pattern : string) (t : Tables) (c : ConversationRow)
  : option ConversationSummary :=
  match matching_join pattern c t with
  | [] => None
  | rows => Some (summarize c (omap id rows))
  end.

(** [SELECT DISTINCT c.*, COUNT(m.id), MAX(m.timestamp) FROM conversations c
     LEFT JOIN messages m ON c.id = m.conversation_id
     WHERE (c.title LIKE ? OR m.content LIKE ?) [AND c.user_id = ?]
     GROUP BY c.id ORDER BY c.updated_at DESC LIMIT ?] *)
Definition search_conversations (pattern : string) (userId : option param) (limit : nat)
  (t : Tables) : list ConversationSummary :=
  take limit (merge_sort fresher
    (omap (search_group pattern t) (List.filter (owned_by userId) (conversations t)))).

End Schema.

(** ** The query layer (backend/config/database.js, backend/models/*.js) *)

Module Database.
Import Js Eff Schema.

(** The process environment read by [server.js]. *)
Record Config : Type := mkConfig {
  NODE_ENV : option string;
  RATE_LIMIT_MAX_REQUESTS : option string
}.

(** The server: its environment, its tables, its clock ([NOW()] and
    [new Date()]) and the instant it started, what will happen to the
    statements to come ([true]: the connection fails and [db.query]
    throws), the number of [db.query] calls made so far, and the rate
    limiter's counters per client address. *)
Record World : Type := mkWorld {
  config : Config;
  tables : Tables;
  clock : Z;
  started : Z;
  faults : list bool;
  queries : nat;
  hits : gmap string nat
}.

Inductive Err : Type :=
| ConnectionLost     (* the pool could not run the statement *)
| BadParameter       (* the driver refused a bind parameter *)
| StatementFailed    (* the server refused the statement *)
| ScriptError.       (* any other exception, such as a [TypeError] *)

(** [error.message]: one text per kind of failure stands for the text of
    the driver. *)
Definition message_of (e : Err) : string :=
  match e with
  | ConnectionLost => "connection lost"
  | BadParameter => "bind parameter refused"
  | StatementFailed => "statement refused"
  | ScriptError => "TypeError"
  end.

Abbreviation DB := (SE World Err).

(** [db.query(sql, params)]: [statement] is [None] when a parameter could
    not be bound. *)
Definition query {A : Type} (statement : option (Statement A)) : DB A :=
  fun w =>
    let next t := {| config := config w;
                     tables := t;
                     clock := clock w;
                     started := started w;
                     faults := tail (faults w);
                     queries := S (queries w);
                     hits := hits w |} in
    match faults w with
    | true :: _ => (Rejected ConnectionLost, next (tables w))
    | _ =>
        match statement with
        | None => (Rejected BadParameter, next (tables w))
        | Some run =>
            match run (clock w) (tables w) with
            | Some (result, t) => (Resolved result, next t)
            | None => (Rejected StatementFailed, next (tables w))
            end
        end
    end.

(** [db.queryOne(sql, params)]: [rows[0] || null] *)
Definition queryOne {A : Type} (statement : option (Statement (list A))) : DB (option A) :=
  rows ← query statement;
  mret (head rows).

(** [new Date()] *)
Definition new_Date : DB Z := fun w => (Resolved (clock w), w).

(** A [LIMIT] or [OFFSET] parameter: [NaN] ([None]) and negative numbers
    make the statement fail. *)
Definition row_count (n : option Z) : option nat :=
  match n with
  | Some k => if 0 <=? k then Some (Z.to_nat k) else None
  | None => None
  end.

End Database.

Module Conversation.
Import Js Eff Schema Database.

(** [value]s for an optional number and an optional date of a row. *)
Definition num_or_null (n : option Z) : json :=
  match n with Some k => JNum k | None => JNull end.

Definition str_or_null (s : option string) : json :=
  match s with Some x => JStr x | None => JNull end.

Definition date_or_null (t : option Z) : json :=
  match t with Some x => JDate x | None => JNull end.

(** A row of the grouped join, as the driver hands it over. *)
Definition summary_json (r : ConversationSummary) : json :=
  let c := summary_row r in
  JObj [ ("id", JNum (c_id c));
         ("user_id", num_or_null (c_user_id c));
         ("title", str_or_null (c_title c));
         ("created_at", JDate (c_created_at c));
         ("updated_at", JDate (c_updated_at c));
         ("message_count", JNum (Z.of_nat (message_count r)));
         ("last_message_time", date_or_null (last_message_time r)) ]%string.

(** [static async create(title = 'New Conversation', userId = null)] *)
Definition create (title userId : value) : DB json :=
  let title := match title with None => Some (JStr "New Conversation") | _ => title end in
  let userId := match userId with None => Some JNull | _ => userId end in
  result ← query (match bind title, bind userId with
                  | Some t, Some u => Some (insert_conversation t u)
                  | _, _ => None
                  end);
  created_at ← new_Date;
  updated_at ← new_Date;
  mret (JObj [ ("id", JNum result);
               ("title", default JNull title);
               ("user_id", default JNull userId);
               ("created_at", JDate created_at);
               ("updated_at", JDate updated_at) ]%string).

Definition findById (id : Z) : DB (option ConversationSummary) :=
  queryOne (Some (read (select_conversation id))).

(** [userId !== null] decides whether the [WHERE] clause is there. *)
Definition user_filter (userId : json) : option (option param) :=
  match userId with
  | JNull => Some None
  | v => Some <$> bind (Some v)
  end.

(** [static async findAll(userId = null, limit = 50, offset = 0)] *)
Definition findAll (userId : json) (limit offset : option Z) : DB (list ConversationSummary) :=
  query (match user_filter userId, row_count limit, row_count offset with
         | Some u, Some l, Some o => Some (read (select_conversations u l o))
         | _, _, _ => None
         end).

(** [return result.affectedRows > 0] *)
Definition updateTitle (id : Z) (title : value) : DB bool :=
  affectedRows ← query (match bind title with
                        | Some t => Some (update_title t id)
                        | None => None
                        end);
  mret (0 <? affectedRows)%nat.

Definition delete (id : Z) : DB bool :=
  affectedRows ← query (Some (delete_conversation id));
  mret (0 <? affectedRows)%nat.

(** [static async search(query, userId = null, limit = 20)] *)
Definition search (q : string) (userId : json) (limit : option Z)
  : DB (list ConversationSummary) :=
  query (match user_filter userId, row_count limit with
         | Some u, Some l => Some (read (search_conversations (contains_pattern q) u l))
         | _, _ => None
         end).

(** The aggregate row of [getStats]: the four counts, and for each of the
    two averages the sum of the lengths and the number of rows averaged
    ([AVG] is their quotient, [NULL] when no row is averaged). *)
Record ConversationStats : Type := mkConversationStats {
  total_conversations : nat;
  total_messages : nat;
  user_messages : nat;
  ai_messages : nat;
  user_length_sum : nat;
  ai_length_sum : nat
}.

Definition of_type (ty : MessageType) (ms : list MessageRow) : list MessageRow :=
  List.filter (fun m => bool_decide (type_name (m_type m) = type_name ty)) ms.

Definition length_sum (ms : list MessageRow) : nat :=
  foldr (fun m n => (String.length (m_content m) + n)%nat) 0%nat ms.

Definition conversation_stats (userId : option param) (t : Tables) : ConversationStats :=
  let cs := List.filter (owned_by userId) (conversations t) in
  let ms := flat_map (fun c => messages_of (c_id c) t) cs in
  {| total_conversations := length cs;
     total_messages := length ms;
     user_messages := length (of_type user ms);
     ai_messages := length (of_type ai ms);
     user_length_sum := length_sum (of_type user ms);
     ai_length_sum := length_sum (of_type ai ms) |}.

(** [static async getStats(userId = null)] *)
Definition getStats (userId : json) : DB (option ConversationStats) :=
  queryOne (match user_filter userId with
            | Some u => Some (read (fun t => [conversation_stats u t]))
            | None => None
            end).

End Conversation.

Module Message.
Import Js Eff Schema Database.

Definition row_json (m : MessageRow) : json :=
  JObj [ ("id", JNum (m_id m));
         ("conversation_id", JNum (m_conversation_id m));
         ("content", JStr (m_content m));
         ("type", JStr (type_name (m_type m)));
         ("timestamp", JDate (m_timestamp m)) ]%string.

(** [static async updateConversationTimestamp(conversationId)]: the error
    of the statement is logged, not thrown. *)
Definition updateConversationTimestamp (conversationId : Z) : DB unit :=
  try_catch
    (query (Some (touch_conversation conversationId)))
    (fun _ => mret tt).

(** [static async create(conversationId, content, type)] *)
Definition create (conversationId : Z) (content type : string) : DB json :=
  result ← query (Some (insert_message conversationId content type));
  updateConversationTimestamp conversationId;;
  timestamp ← new_Date;
  mret (JObj [ ("id", JNum result);
               ("conversation_id", JNum conversationId);
               ("content", JStr content);
               ("type", JStr type);
               ("timestamp", JDate timestamp) ]%string).

(** [static async findByConversationId(conversationId, limit = 100, offset = 0)] *)
Definition findByConversationId (conversationId : Z) (limit offset : option Z)
  : DB (list MessageRow) :=
  query (match row_count limit, row_count offset with
         | Some l, Some o => Some (read (select_messages conversationId l o))
         | _, _ => None
         end).

(** [static async getRecentMessages(conversationId, count = 50)]:
    [messages.reverse()] on the rows of the descending query. *)
Definition getRecentMessages (conversationId : Z) (count : option Z) : DB (list MessageRow) :=
  messages ← query (match row_count count with
                    | Some n => Some (read (select_latest_messages conversationId n))
                    | None => None
                    end);
  mret (reverse messages).

(** The aggregate row of [getStats]. *)
Record MessageStats : Type := mkMessageStats {
  total_messages : nat;
  user_messages : nat;
  ai_messages : nat;
  error_messages : nat;
  length_sum : nat;
  first_message_time : option Z;
  last_message_time : option Z
}.

Definition earliest (times : list Z) : option Z :=
  foldr (fun t acc => Some (match acc with Some u => Z.min t u | None => t end)) None times.

Definition message_stats (conversationId : option Z) (t : Tables) : MessageStats :=
  let ms := match conversationId with
            | Some id => messages_of id t
            | None => messages t
            end in
  {| total_messages := length ms;
     user_messages := length (Conversation.of_type user ms);
     ai_messages := length (Conversation.of_type ai ms);
     error_messages := length (Conversation.of_type error ms);
     length_sum := Conversation.length_sum ms;
     first_message_time := earliest (map m_timestamp ms);
     last_message_time := latest (map m_timestamp ms) |}.

(** [static async getStats(conversationId = null)]: [if (conversationId)]
    adds the [WHERE] clause, so not for [null] and not for [0]. *)
Definition getStats (conversationId : option Z) : DB (option MessageStats) :=
  let filter := match conversationId with
                | Some id => if id =? 0 then None else Some id
                | None => None
                end in
  queryOne (Some (read (fun t => [message_stats filter t]))).

Definition set_messages (ms : list MessageRow) (t : Tables) : Tables :=
  {| users := users t;
     conversations := conversations t;
     messages := ms;
     next_conversation_id := next_conversation_id t;
     next_message_id := next_message_id t |}.

(** [DELETE FROM messages WHERE conversation_id = ?]; returns
    [affectedRows]. *)
Definition delete_messages (conversationId : Z) : Statement nat :=
  fun _ t =>
    Some (length (messages_of conversationId t),
          set_messages
            (List.filter (fun m => negb (m_conversation_id m =? conversationId)) (messages t))
            t).

(** [static async deleteByConversationId(conversationId)]:
    [return result.affectedRows] *)
Definition deleteByConversationId (conversationId : Z) : DB nat :=
  query (Some (delete_messages conversationId)).

(** The statement [SELECT COUNT( * ) as count FROM messages WHERE
    conversation_id = ?]: always one row. *)
Definition count_messages (conversationId : Z) (t : Tables) : list nat :=
  [length (messages_of conversationId t)].

(** [static async getCount(conversationId)]: [return result.count], a
    [TypeError] if [queryOne] gave [null]. *)
Definition getCount (conversationId : Z) : DB nat :=
  result ← queryOne (Some (read (count_messages conversationId)));
  match result with
  | Some count => mret count
  | None => throw ScriptError
  end.

End Message.

(** ** The HTTP API (backend/routes/api.js, backend/server.js) *)

Module Api.
Import Js Eff Schema Database.

Local Open Scope string_scope.

Inductive Method : Type := GET | POST | PUT | DELETE | OTHER.

(** A request: its method, the segments of its path, the query string
    ([req.query], names bound to text), the parsed JSON body ([req.body],
    an object; [{}] when there is none) and the client address. *)
Record Request : Type := mkRequest {
  method : Method;
  path : list string;
  query_string : list (string * string);
  body : list (string * json);
  ip : string
}.

(** [res.status(status).json(body)] *)
Record Response : Type := mkResponse {
  status : nat;
  content : json
}.

Definition failure (code : nat) (message : string) : Response :=
  mkResponse code (JObj [("success", JBool false); ("error", JStr message)]).

Definition param_of (k : string) (req : Request) : option string :=
  snd <$> List.find (fun kv => String.eqb k (fst kv)) (query_string req).

(** [parseInt(x)] for [const { x = d } = req.query]. *)
Definition int_param (d : Z) (v : option string) : option Z :=
  match v with
  | Some text => parseInt text
  | None => Some d
  end.

(** [user_id || null], for the text [user_id] of the query string. *)
Definition user_or_null (v : option string) : json :=
  match v with
  | Some text => if String.eqb text EmptyString then JNull else JStr text
  | None => JNull
  end.

(** *** Validators *)

Definition validateConversationInput (req : Request) : option Response :=
  let title := obj_get "title" (body req) in
  if truthy title
     && (negb (is_string title)
         || match title with
            | Some (JStr text) => (String.length (trim text) =? 0)%nat
            | _ => false
            end)
  then Some (mkResponse 400
               (JObj [("error", JStr "Invalid title. Title must be a non-empty string.")]))
  else None.

(** [['user', 'ai', 'error'].includes(type)] *)
Definition allowed_type (type : value) : bool :=
  match type with
  | Some (JStr text) => existsb (String.eqb text) ["user"; "ai"; "error"]
  | _ => false
  end.

Definition validateMessageInput (req : Request) : option Response :=
  let content := obj_get "content" (body req) in
  let type := obj_get "type" (body req) in
  if negb (truthy content)
     || negb (is_string content)
     || match content with
        | Some (JStr text) => (String.length (trim text) =? 0)%nat
        | _ => false
        end
  then Some (mkResponse 400
               (JObj [("error", JStr "Invalid content. Content must be a non-empty string.")]))
  else if negb (truthy type) || negb (allowed_type type)
  then Some (mkResponse 400
               (JObj [("error", JStr "Invalid type. Type must be one of: user, ai, error.")]))
  else None.

(** *** Route handlers

    Each is the body of its [async (req, res) => { try { ... } catch ... }];
    [id] and [q] are [req.params.id] and [req.params.query]. *)

(** [!id || isNaN(parseInt(id))] *)
Definition conversation_id (id : string) : option Z :=
  if String.eqb id EmptyString then None else parseInt id.

Definition invalid_id : Response := failure 400 "Invalid conversation ID".
Definition not_found : Response := failure 404 "Conversation not found".

Definition post_conversations (req : Request) : DB Response :=
  try_catch
    (let title := match obj_get "title" (body req) with
                  | None => Some (JStr "New Conversation")
                  | given => given
                  end in
     let user_id := obj_get "user_id" (body req) in
     let userId := if truthy user_id then user_id else Some JNull in
     conversation ← Conversation.create title userId;
     mret (mkResponse 201 (JObj [("success", JBool true); ("data", conversation)])))
    (fun _ => mret (failure 500 "Failed to create conversation")).

Definition get_conversations (req : Request) : DB Response :=
  try_catch
    (let limit := int_param 50 (param_of "limit" req) in
     let offset := int_param 0 (param_of "offset" req) in
     let userId := user_or_null (param_of "user_id" req) in
     conversations ← Conversation.findAll userId limit offset;
     mret (mkResponse 200
             (JObj [("success", JBool true);
                    ("data", JArr (map Conversation.summary_json conversations));
                    ("pagination",
                     JObj [("limit", Conversation.num_or_null limit);
                           ("offset", Conversation.num_or_null offset);
                           ("count", JNum (Z.of_nat (length conversations)))])])))
    (fun _ => mret (failure 500 "Failed to fetch conversations")).

Definition get_conversation (id : string) : DB Response :=
  try_catch
    (match conversation_id id with
     | None => mret invalid_id
     | Some n =>
         conversation ← Conversation.findById n;
         match conversation with
         | None => mret not_found
         | Some c =>
             mret (mkResponse 200
                     (JObj [("success", JBool true); ("data", Conversation.summary_json c)]))
         end
     end)
    (fun _ => mret (failure 500 "Failed to fetch conversation")).

Definition put_conversation (id : string) (req : Request) : DB Response :=
  try_catch
    (let title := obj_get "title" (body req) in
     match conversation_id id with
     | None => mret invalid_id
     | Some n =>
         updated ← Conversation.updateTitle n title;
         if updated : bool then
           mret (mkResponse 200
                   (JObj [("success", JBool true);
                          ("message", JStr "Conversation title updated successfully")]))
         else mret not_found
     end)
    (fun _ => mret (failure 500 "Failed to update conversation")).

Definition delete_conversation (id : string) : DB Response :=
  try_catch
    (match conversation_id id with
     | None => mret invalid_id
     | Some n =>
         deleted ← Conversation.delete n;
         if deleted : bool then
           mret (mkResponse 200
                   (JObj [("success", JBool true);
                          ("message", JStr "Conversation deleted successfully")]))
         else mret not_found
     end)
    (fun _ => mret (failure 500 "Failed to delete conversation")).

Definition search_conversations (q : string) (req : Request) : DB Response :=
  try_catch
    (let limit := int_param 20 (param_of "limit" req) in
     let userId := user_or_null (param_of "user_id" req) in
     if String.eqb q EmptyString || (String.length (trim q) =? 0)%nat then
       mret (failure 400 "Search query is required")
     else
       conversations ← Conversation.search (trim q) userId limit;
       mret (mkResponse 200
               (JObj [("success", JBool true);
                      ("data", JArr (map Conversation.summary_json conversations));
                      ("query", JStr (trim q));
                      ("count", JNum (Z.of_nat (length conversations)))])))
    (fun _ => mret (failure 500 "Failed to search conversations")).

(** Runs after [validateMessageInput] has called [next()]: [content] and
    [type] are then strings ([content.trim()] throws otherwise). *)
Definition post_message (id : string) (req : Request) : DB Response :=
  try_catch
    (match conversation_id id with
     | None => mret invalid_id
     | Some n =>
         conversation ← Conversation.findById n;
         match conversation with
         | None => mret not_found
         | Some _ =>
             match obj_get "content" (body req), obj_get "type" (body req) with
             | Some (JStr content), Some (JStr type) =>
                 message ← Message.create n (trim content) type;
                 mret (mkResponse 201 (JObj [("success", JBool true); ("data", message)]))
             | _, _ => throw ScriptError
             end
         end
     end)
    (fun _ => mret (failure 500 "Failed to create message")).

Definition get_messages (id : string) (req : Request) : DB Response :=
  try_catch
    (let limit := int_param 100 (param_of "limit" req) in
     let offset := int_param 0 (param_of "offset" req) in
     match conversation_id id with
     | None => mret invalid_id
     | Some n =>
         conversation ← Conversation.findById n;
         match conversation with
         | None => mret not_found
         | Some _ =>
             messages ← Message.findByConversationId n limit offset;
             mret (mkResponse 200
                     (JObj [("success", JBool true);
                            ("data", JArr (map Message.row_json messages));
                            ("pagination",
                             JObj [("limit", Conversation.num_or_null limit);
                                   ("offset", Conversation.num_or_null offset);
                                   ("count", JNum (Z.of_nat (length messages)))])]))
         end
     end)
    (fun _ => mret (failure 500 "Failed to fetch messages")).

Definition get_recent_messages (id : string) (req : Request) : DB Response :=
  try_catch
    (let count := int_param 50 (param_of "count" req) in
     match conversation_id id with
     | None => mret invalid_id
     | Some n =>
         conversation ← Conversation.findById n;
         match conversation with
         | None => mret not_found
         | Some _ =>
             messages ← Message.getRecentMessages n count;
             mret (mkResponse 200
                     (JObj [("success", JBool true);
                            ("data", JArr (map Message.row_json messages));
                            ("count", JNum (Z.of_nat (length messages)))]))
         end
     end)
    (fun _ => mret (failure 500 "Failed to fetch recent messages")).

(** [Promise.all([a, b])]: both calls are started; the first rejection, if
    any, is the result. *)
Definition promise_all {A B : Type} (a : DB A) (b : DB B) : DB (A * B) :=
  fun w =>
    let '(ra, w1) := a w in
    let '(rb, w2) := b w1 in
    match ra, rb with
    | Resolved x, Resolved y => (Resolved (x, y), w2)
    | Rejected e, _ => (Rejected e, w2)
    | _, Rejected e => (Rejected e, w2)
    end.

(** [AVG(...)]: the quotient is kept as the pair of the sum and the
    number of rows, [null] when no row is averaged. *)
Definition average_json (sum rows : nat) : json :=
  if (rows =? 0)%nat then JNull
  else JObj [("sum", JNum (Z.of_nat sum)); ("rows", JNum (Z.of_nat rows))].

Definition conversation_stats_json (r : option Conversation.ConversationStats) : json :=
  match r with
  | None => JNull
  | Some st =>
      JObj [("total_conversations", JNum (Z.of_nat (Conversation.total_conversations st)));
            ("total_messages", JNum (Z.of_nat (Conversation.total_messages st)));
            ("user_messages", JNum (Z.of_nat (Conversation.user_messages st)));
            ("ai_messages", JNum (Z.of_nat (Conversation.ai_messages st)));
            ("avg_user_message_length",
             average_json (Conversation.user_length_sum st) (Conversation.user_messages st));
            ("avg_ai_message_length",
             average_json (Conversation.ai_length_sum st) (Conversation.ai_messages st))]
  end.

Definition message_stats_json (r : option Message.MessageStats) : json :=
  match r with
  | None => JNull
  | Some st =>
      JObj [("total_messages", JNum (Z.of_nat (Message.total_messages st)));
            ("user_messages", JNum (Z.of_nat (Message.user_messages st)));
            ("ai_messages", JNum (Z.of_nat (Message.ai_messages st)));
            ("error_messages", JNum (Z.of_nat (Message.error_messages st)));
            ("avg_message_length",
             average_json (Message.length_sum st) (Message.total_messages st));
            ("first_message_time", Conversation.date_or_null (Message.first_message_time st));
            ("last_message_time", Conversation.date_or_null (Message.last_message_time st))]
  end.

Definition get_conversation_stats (id : string) : DB Response :=
  try_catch
    (match conversation_id id with
     | None => mret invalid_id
     | Some n =>
         conversation ← Conversation.findById n;
         match conversation with
         | None => mret not_found
         | Some _ =>
             stats ← promise_all (Conversation.getStats (JNum n)) (Message.getStats (Some n));
             mret (mkResponse 200
                     (JObj [("success", JBool true);
                            ("data",
                             JObj [("conversation", conversation_stats_json (fst stats));
                                   ("messages", message_stats_json (snd stats))])]))
         end
     end)
    (fun _ => mret (failure 500 "Failed to fetch statistics")).

Definition get_stats (req : Request) : DB Response :=
  try_catch
    (let userId := user_or_null (param_of "user_id" req) in
     stats ← promise_all (Conversation.getStats userId) (Message.getStats None);
     mret (mkResponse 200
             (JObj [("success", JBool true);
                    ("data",
                     JObj [("conversations", conversation_stats_json (fst stats));
                           ("messages", message_stats_json (snd stats))])])))
    (fun _ => mret (failure 500 "Failed to fetch statistics")).

(** [router.use('*', ...)] *)
Definition router_not_found : Response := failure 404 "Endpoint not found".

(** [db.healthCheck()]: the error of [SELECT 1] is reported, not thrown. *)
Definition healthCheck : DB json :=
  try_catch
    (query (Some (read (fun _ => [1]))) ;;
     timestamp ← new_Date;
     mret (JObj [("status", JStr "healthy"); ("timestamp", JDate timestamp)]))
    (fun e =>
       timestamp ← new_Date;
       mret (JObj [("status", JStr "unhealthy");
                   ("error", JStr (message_of e));
                   ("timestamp", JDate timestamp)])).

(** [router.get('/health', ...)] *)
Definition router_health : DB Response :=
  try_catch
    (health ← healthCheck;
     timestamp ← new_Date;
     mret (mkResponse 200
             (JObj [("status", JStr "ok");
                    ("timestamp", JDate timestamp);
                    ("database", health)])))
    (fun e => mret (mkResponse 500
                      (JObj [("status", JStr "error"); ("error", JStr (message_of e))]))).

(** *** server.js *)

(** [app.get('/health', ...)] *)
Definition app_health : DB Response :=
  fun w =>
    (Resolved (mkResponse 200
       (JObj [("status", JStr "ok");
              ("timestamp", JDate (clock w));
              ("uptime", JNum (clock w - started w));
              ("environment", JStr (default "development" (NODE_ENV (config w))))])), w).

(** [app.get('/', ...)] *)
Definition app_root : Response :=
  mkResponse 200
    (JObj [("message", JStr "AgriChat Backend API");
           ("version", JStr "1.0.0");
           ("endpoints",
            JObj [("health", JStr "/health");
                  ("api", JStr "/api");
                  ("conversations", JStr "/api/conversations");
                  ("messages", JStr "/api/conversations/:id/messages");
                  ("stats", JStr "/api/stats")]);
           ("documentation", JStr "Check the docs folder for detailed instructions")]).

Definition method_name (m : Method) : string :=
  match m with
  | GET => "GET" | POST => "POST" | PUT => "PUT" | DELETE => "DELETE" | OTHER => "OTHER"
  end.

(** [req.originalUrl], without the query string. *)
Definition original_url (segments : list string) : string :=
  foldr (fun segment rest => "/" ++ segment ++ rest) EmptyString segments.

(** [app.use('*', ...)]: the last handler of the application. *)
Definition app_not_found (req : Request) : Response :=
  mkResponse 404
    (JObj [("error", JStr "Endpoint not found");
           ("path", JStr (original_url (path req)));
           ("method", JStr (method_name (method req)))]).

(** [parseInt(process.env.RATE_LIMIT_MAX_REQUESTS) || 100] *)
Definition rate_limit_max (c : Config) : Z :=
  match RATE_LIMIT_MAX_REQUESTS c with
  | Some text =>
      match parseInt text with
      | Some n => if (n =? 0)%Z then 100 else n
      | None => 100
      end
  | None => 100
  end.

Definition too_many_requests : Response :=
  mkResponse 429
    (JObj [("error", JStr "Too many requests from this IP, please try again later.")]).

(** [rateLimit({...})], within one window: the request is counted for its
    address and refused when the count has passed the maximum. *)
Definition limiter (req : Request) : DB (option Response) :=
  fun w =>
    let count := S (default 0%nat (hits w !! ip req)) in
    let w' := {| config := config w;
                 tables := tables w;
                 clock := clock w;
                 started := started w;
                 faults := faults w;
                 queries := queries w;
                 hits := <[ip req := count]> (hits w) |} in
    if (rate_limit_max (config w) <? Z.of_nat count)%Z
    then (Resolved (Some too_many_requests), w')
    else (Resolved None, w').

(** *** Routing *)

(** The routes, in the order in which they are registered. *)
Inductive Endpoint : Type :=
| AppHealth
| RouterHealth
| CreateConversation
| ListConversations
| GetConversation (id : string)
| UpdateConversation (id : string)
| DeleteConversation (id : string)
| SearchConversations (q : string)
| AddMessage (id : string)
| ListMessages (id : string)
| RecentMessages (id : string)
| ConversationStats (id : string)
| OverallStats
| RouterNotFound
| AppRoot
| AppNotFound.

(** A fixed segment of a route (matching ignores case). *)
Definition fixed (segment literal : string) : bool :=
  String.eqb (toLowerCase segment) literal.

(** A [:name] segment: any non-empty text. *)
Definition named (segment : string) : bool := negb (String.eqb segment EmptyString).

Definition under_api (segments : list string) : option (list string) :=
  match segments with
  | first :: rest => if fixed first "api" then Some rest else None
  | [] => None
  end.

Definition router_endpoint (m : Method) (rest : list string) : Endpoint :=
  match m, rest with
  | GET, [a] =>
      if fixed a "health" then RouterHealth
      else if fixed a "conversations" then ListConversations
      else if fixed a "stats" then OverallStats
      else RouterNotFound
  | POST, [a] => if fixed a "conversations" then CreateConversation else RouterNotFound
  | GET, [a; id] =>
      if fixed a "conversations" && named id then GetConversation id else RouterNotFound
  | PUT, [a; id] =>
      if fixed a "conversations" && named id then UpdateConversation id else RouterNotFound
  | DELETE, [a; id] =>
      if fixed a "conversations" && named id then DeleteConversation id else RouterNotFound
  | GET, [a; b; c] =>
      if fixed a "conversations" && fixed b "search" && named c then SearchConversations c
      else if fixed a "conversations" && named b && fixed c "messages" then ListMessages b
      else if fixed a "conversations" && named b && fixed c "stats" then ConversationStats b
      else RouterNotFound
  | POST, [a; b; c] =>
      if fixed a "conversations" && named b && fixed c "messages" then AddMessage b
      else RouterNotFound
  | GET, [a; b; c; d] =>
      if fixed a "conversations" && named b && fixed c "messages" && fixed d "recent"
      then RecentMessages b
      else RouterNotFound
  | _, _ => RouterNotFound
  end.

Definition endpoint (req : Request) : Endpoint :=
  match under_api (path req) with
  | Some rest => router_endpoint (method req) rest
  | None =>
      match method req, path req with
      | GET, [a] => if fixed a "health" then AppHealth else AppNotFound
      | GET, [] => AppRoot
      | _, _ => AppNotFound
      end
  end.

(** The validator registered in front of a route, if any. *)
Definition validator (e : Endpoint) (req : Request) : option Response :=
  match e with
  | CreateConversation | UpdateConversation _ => validateConversationInput req
  | AddMessage _ => validateMessageInput req
  | _ => None
  end.

(** The handler of a route. *)
Definition handler (e : Endpoint) (req : Request) : DB Response :=
  match e with
  | AppHealth => app_health
  | RouterHealth => router_health
  | CreateConversation => post_conversations req
  | ListConversations => get_conversations req
  | GetConversation id => get_conversation id
  | UpdateConversation id => put_conversation id req
  | DeleteConversation id => delete_conversation id
  | SearchConversations q => search_conversations q req
  | AddMessage id => post_message id req
  | ListMessages id => get_messages id req
  | RecentMessages id => get_recent_messages id req
  | ConversationStats id => get_conversation_stats id
  | OverallStats => get_stats req
  | RouterNotFound => mret router_not_found
  | AppRoot => mret app_root
  | AppNotFound => mret (app_not_found req)
  end.

(** The global error handler of [server.js], for an exception that leaves
    a handler: [error.status || 500], the message and, outside production,
    the stack. *)
Definition error_handler (e : Err) (w : World) : Response :=
  mkResponse 500
    (JObj (if bool_decide (NODE_ENV (config w) = Some "production")
           then [("error", JStr "Internal server error")]
           else [("error", JStr (message_of e)); ("stack", JStr "error.stack")])).

(** One request through the application: the limiter for the paths under
    [/api], then the validator of the route, then its handler. *)
Definition serve (req : Request) (w : World) : Response * World :=
  let limited :=
    match under_api (path req) with
    | Some _ => limiter req w
    | None => (Resolved None, w)
    end in
  match limited with
  | (Resolved (Some refusal), w1) => (refusal, w1)
  | (Rejected e, w1) => (error_handler e w1, w1)
  | (Resolved None, w1) =>
      match validator (endpoint req) req with
      | Some refusal => (refusal, w1)
      | None =>
          match handler (endpoint req) req w1 with
          | (Resolved response, w2) => (response, w2)
          | (Rejected e, w2) => (error_handler e w2, w2)
          end
      end
  end.

End Api.

(** * Vocabulary of the statements *)

Module DatabaseServiceTerms.
Import Js Eff DatabaseService.

(** A browser policy that allows at most [n] stored records in all. *)
Definition stored_records (it : Items) : nat :=
  (length (default [] (agrichat_conversations it))
   + map_fold (fun _ l n => length l + n) 0 (agrichat_messages it))%nat.

Definition quota (n : nat) (it : Items) : bool := (stored_records it <=? n)%nat.

Definition no_items : Items :=
  {| agrichat_conversations := None; agrichat_messages := ∅ |}.

Definition fresh_service (connected : bool) (policy : Items -> bool) : Service :=
  {| currentConversationId := Some JNull;
     isConnected := connected;
     localStorage := {| items := no_items; allows := policy |} |}.

(** The call goes to local storage: the cached flag is off, or [fetch]
    rejects, or the response is not [ok]. *)
Definition falls_back (s : Service) (net : Network) : bool :=
  negb (isConnected s)
  || match net with
     | None => true
     | Some response => negb (ok response)
     end.

(** The browser accepts every write. *)
Definition accepts_writes (s : Service) : Prop :=
  forall it, allows (localStorage s) it = true.

Definition stored_conversations (s : Service) : list LocalConversation :=
  default [] (agrichat_conversations (items (localStorage s))).

Definition stored_messages (conversationId : Z) (s : Service) : list LocalMessage :=
  default [] (agrichat_messages (items (localStorage s)) !! messages_key conversationId).

(** [stable m]: [m] never changes the browser's policy. *)
Definition stable {A : Type} (m : M A) : Prop :=
  forall s, allows (localStorage (m s).2) = allows (localStorage s).

(** [guarded m]: [m] is stable and, when it throws, it throws the storage
    exception and the browser has refused a write. *)
Definition guarded {A : Type} (m : M A) : Prop :=
  stable m /\
  forall s e, (m s).1 = Rejected e -> e = QuotaExceededError /\ ~ accepts_writes s.

(** A service that never reached the backend, in a browser whose storage
    is full. *)
Definition offline_full : Service := fresh_service false (quota 0).

(** A service that reached the backend at start-up, same browser. *)
Definition online_full : Service := fresh_service true (quota 0).

(** One conversation whose title does not mention blight and two of its
    messages that do. *)
Definition garden_plan : LocalConversation :=
  mkLocalConversation 7 "Garden plan" 100 160 2.

Definition garden_messages : list LocalMessage :=
  [ mkLocalMessage 8 7 "Tomato blight on the leaves" "user" 150;
    mkLocalMessage 9 7 "Treat blight early" "ai" 160 ].

Definition offline_garden : Service :=
  {| currentConversationId := Some JNull;
     isConnected := false;
     localStorage :=
       {| items := {| agrichat_conversations := Some [garden_plan];
                      agrichat_messages := {[ messages_key 7 := garden_messages ]} |};
          allows := fun _ => true |} |}.


(** The conversation stored first under an id, after one more message:
    its count is one more and its [updated_at] is the instant [t]. *)
Definition bump (t : Z) (c : LocalConversation) : LocalConversation :=
  {| conv_id := conv_id c;
     conv_title := conv_title c;
     conv_created_at := conv_created_at c;
     conv_updated_at := t;
     conv_message_count := conv_message_count c + 1 |}.

(** The same conversation under a new title, renamed at the instant [t]. *)
Definition rename (t : Z) (title : string) (c : LocalConversation) : LocalConversation :=
  {| conv_id := conv_id c;
     conv_title := title;
     conv_created_at := conv_created_at c;
     conv_updated_at := t;
     conv_message_count := conv_message_count c |}.

(** The messages of a list whose type is [t], and those whose type is
    none of [user], [ai], [error]. *)
Definition typed (t : string) (l : list LocalMessage) : list LocalMessage :=
  List.filter (fun m => String.eqb (msg_type m) t) l.

Definition untyped (l : list LocalMessage) : list LocalMessage :=
  List.filter (fun m => negb (String.eqb (msg_type m) "user")
                        && negb (String.eqb (msg_type m) "ai")
                        && negb (String.eqb (msg_type m) "error")) l.

(** The service after [message] has been appended to the list stored for
    its conversation. *)
Definition with_message (message : LocalMessage) (s : Service) : Service :=
  store (with_messages (msg_conversation_id message)
           (stored_messages (msg_conversation_id message) s ++ [message])
           (items (localStorage s))) s.

(** The service after the conversation stored first under [id], if any,
    has been bumped and the list written back. *)
Definition bumped (t : Z) (id : Z) (s : Service) : Service :=
  match find_conversation id (stored_conversations s) with
  | Some (i, c) =>
      store (with_conversations (<[i := bump t c]> (stored_conversations s))
                                (items (localStorage s))) s
  | None => s
  end.

(** The service with its flag set. *)
Definition flagged (b : bool) (s : Service) : Service :=
  {| currentConversationId := currentConversationId s;
     isConnected := b;
     localStorage := localStorage s |}.

(** The probe succeeded: [fetch] resolved and the response is [ok]. *)
Definition reached (probe : Network) : bool :=
  match probe with
  | Some response => ok response
  | None => false
  end.

(** The answer of the server is an object whose [data] is there and is
    not [null]. *)
Definition carries_data (response : HttpResponse) : Prop :=
  exists fields d, json_body response = Some (JObj fields)
                   /\ obj_get "data" fields = Some d /\ d <> JNull.

(** The answer of the server is an object. *)
Definition carries_object (response : HttpResponse) : Prop :=
  exists fields, json_body response = Some (JObj fields).

End DatabaseServiceTerms.

Module QueryTerms.
Import Js Eff Schema Database.

(** The connection does not fail for the next statement. *)
Definition next_query_runs (w : World) : Prop := head (faults w) <> Some true.

(** The world after one [db.query] call that left the tables as [t]. *)
Definition after_query (t : Tables) (w : World) : World :=
  {| config := config w; tables := t; clock := clock w; started := started w;
     faults := tail (faults w); queries := S (queries w); hits := hits w |}.

(** A search text without the characters that [LIKE] reads as wildcards
    or as the escape. *)
Fixpoint plain (q : string) : bool :=
  match q with
  | EmptyString => true
  | String c q' =>
      negb (bool_decide (c = "%"%char)) && negb (bool_decide (c = "_"%char))
      && negb (bool_decide (c = backslash)) && plain q'
  end.

(** A server with the tables [t] at the instant [now], where the
    statements to come fail as [script] says. *)
Definition quiet_world (t : Tables) (now : Z) (script : list bool) : World :=
  {| config := mkConfig None None; tables := t; clock := now; started := 0;
     faults := script; queries := 0; hits := ∅ |}.

(** Three messages of one conversation, stored out of order, and one of
    another conversation. *)
Definition diary : Tables :=
  {| users := [];
     conversations := [ mkConversationRow 1 None (Some "Maize") 10 40;
                        mkConversationRow 2 None (Some "Beans") 20 25 ];
     messages := [ mkMessageRow 1 1 "first" user 30;
                   mkMessageRow 2 2 "other" user 25;
                   mkMessageRow 3 1 "third" ai 40;
                   mkMessageRow 4 1 "second" ai 35 ];
     next_conversation_id := 3;
     next_message_id := 5 |}.

End QueryTerms.

Module ApiTerms.
Import Js Eff Schema Database Api QueryTerms.

(** The world after the limiter has counted the request. *)
Definition counted (req : Request) (w : World) : World :=
  {| config := config w;
     tables := tables w;
     clock := clock w;
     started := started w;
     faults := faults w;
     queries := queries w;
     hits := <[ip req := S (default 0%nat (hits w !! ip req))]> (hits w) |}.

(** The limiter lets the request through. *)
Definition within_limit (req : Request) (w : World) : Prop :=
  (Z.of_nat (S (default 0%nat (hits w !! ip req))) <= rate_limit_max (config w))%Z.

(** The content of a message request is missing, not a string, or empty
    once trimmed. *)
Definition blank_content (req : Request) : Prop :=
  forall text, obj_get "content" (body req) = Some (JStr text) -> trim text = EmptyString.

(** The type of a message request is not one of the three names. *)
Definition unknown_type (req : Request) : Prop :=
  forall text, obj_get "type" (body req) = Some (JStr text) ->
               text <> "user" /\ text <> "ai" /\ text <> "error".

(** A field of a response body. *)
Definition field (k : string) (j : json) : value :=
  match j with
  | JObj fields => obj_get k fields
  | _ => None
  end.

(** The rows that [database/schema.sql] inserts, in a server that has just
    started. *)
Definition sample_tables : Tables :=
  {| users := [];
     conversations := [mkConversationRow 1 None (Some "Sample Conversation") 0 0];
     messages :=
       [ mkMessageRow 1 1 "Hello! How can I help you with farming today?" ai 0;
         mkMessageRow 2 1 "I need help with tomato planting" user 0;
         mkMessageRow 3 1 "Great question! Tomatoes need well-draining soil." ai 0 ];
     next_conversation_id := 2;
     next_message_id := 4 |}.

Definition sample_world : World :=
  {| config := mkConfig None None;
     tables := sample_tables;
     clock := 1000;
     started := 0;
     faults := [];
     queries := 0;
     hits := ∅ |}.

(** A request without a query string, from one client. *)
Definition request (m : Method) (segments : list string) (fields : list (string * json))
  : Request :=
  mkRequest m segments [] fields "203.0.113.7".

Definition title_refusal : Response :=
  mkResponse 400 (JObj [("error", JStr "Invalid title. Title must be a non-empty string.")]).

(** A text of 1001 characters. *)
Definition long_content : string := string_of_list_ascii (repeat "a"%char 1001).

Definition long_message : Request :=
  request POST ["api"; "conversations"; "1"; "messages"]
          [("content", JStr long_content); ("type", JStr "user")].

(** [{ success: boolean, data?: ..., error?: string }]: [success] is there
    and is a boolean, it tells whether the status is below 400, and
    [error] is there, a string, exactly when [success] is false. *)
Definition has_envelope (r : Response) : bool :=
  match field "success" (content r) with
  | Some (JBool ok) =>
      Bool.eqb ok (status r <? 400)%nat
      && match field "error" (content r) with
         | None => ok
         | Some (JStr _) => negb ok
         | Some _ => false
         end
  | _ => false
  end.

Definition present (v : value) : bool :=
  match v with Some _ => true | None => false end.

(** [pagination: { limit, offset, count }] *)
Definition paginated (j : json) : bool :=
  match field "pagination" j with
  | Some p => present (field "limit" p) && present (field "offset" p)
              && present (field "count" p)
  | None => false
  end.

(** What the answer of a route carries besides the envelope when its
    status is 200: the two paged lists their pagination, the search and
    the recent messages their count. *)
Definition list_metadata (e : Endpoint) (r : Response) : bool :=
  negb (status r =? 200)%nat
  || match e with
     | ListConversations | ListMessages _ => paginated (content r)
     | SearchConversations _ | RecentMessages _ => present (field "count" (content r))
     | _ => true
     end.

Definition well_formed (e : Endpoint) (r : Response) : bool :=
  has_envelope r && list_metadata e r.

(** The routes for conversations, messages and statistics, and the
    catch-all of the router. *)
Definition resource_route (e : Endpoint) : bool :=
  match e with
  | AppHealth | RouterHealth | AppRoot | AppNotFound => false
  | _ => true
  end.

(** [yields P m]: whenever [m] returns a response, [P] holds of it. *)
Definition yields (P : Response -> bool) (m : DB Response) : Prop :=
  forall w r w', m w = (Resolved r, w') -> P r = true.

End ApiTerms.

Module ServerTerms.
Import Js Eff Schema Database Api QueryTerms ApiTerms.

(** What [database/schema.sql] promises of the tables: primary keys are
    unique and below the [AUTO_INCREMENT] counters, every message
    belongs to a conversation that is there and every owner to a user
    that is there (the foreign keys), and every text fits its column. *)
Definition keys_unique (t : Tables) : Prop :=
  NoDup (map c_id (conversations t)) /\ NoDup (map m_id (messages t)).

Definition keys_below_counters (t : Tables) : Prop :=
  Forall (fun c => c_id c < next_conversation_id t) (conversations t)
  /\ Forall (fun m => m_id m < next_message_id t) (messages t).

Definition references_hold (t : Tables) : Prop :=
  Forall (fun m => conversation_exists (m_conversation_id m) t = true) (messages t)
  /\ Forall (fun c => match c_user_id c with
                      | Some u => user_exists u t = true
                      | None => True
                      end) (conversations t).

Definition columns_fit (t : Tables) : Prop :=
  Forall (fun c => match c_title c with
                   | Some s => fits s title_max = true
                   | None => True
                   end) (conversations t)
  /\ Forall (fun m => fits (m_content m) content_max = true) (messages t).

Definition consistent (t : Tables) : Prop :=
  keys_unique t /\ keys_below_counters t /\ references_hold t /\ columns_fit t.

(** [respects R m]: the world that [m] leaves is related by [R] to the
    world in which it started, whether [m] returns or throws. *)
Definition respects {A : Type} (R : relation World) (m : DB A) : Prop :=
  forall w, R w (m w).2.

(** What a statement must satisfy for [db.query] to respect [R]. *)
Definition allowed {A : Type} (R : relation World) (statement : option (Statement A)) : Prop :=
  forall w,
    R w (after_query (tables w) w)
    /\ forall run result t,
         statement = Some run -> run (clock w) (tables w) = Some (result, t) ->
         R w (after_query t w).

Definition keeps_consistency : relation World :=
  fun w w' => consistent (tables w) -> consistent (tables w').

Definition same_tables : relation World :=
  fun w w' => tables w' = tables w.

Definition same_hits : relation World :=
  fun w w' => hits w' = hits w /\ config w' = config w.

(** The connection does not fail for the next [n] statements. *)
Definition calm (n : nat) (w : World) : Prop :=
  Forall (fun fault => fault = false) (take n (faults w)).




(** The methods that the router gives to no route that writes. *)
Definition safe_method (m : Method) : bool :=
  match m with
  | GET | OTHER => true
  | POST | PUT | DELETE => false
  end.


(** What the search keeps of a conversation: the conversation matches
    when its title or the content of one of its messages matches the
    pattern, and the messages that are counted for it are all its
    messages when the title matches, and else those whose content
    matches. *)
Definition content_like (pattern : string) (m : MessageRow) : bool :=
  like pattern (m_content m).

Definition matches (pattern : string) (c : ConversationRow) (t : Tables) : bool :=
  title_like pattern c || existsb (content_like pattern) (messages_of (c_id c) t).

Definition counted_messages (pattern : string) (c : ConversationRow) (t : Tables)
  : list MessageRow :=
  if title_like pattern c then messages_of (c_id c) t
  else List.filter (content_like pattern) (messages_of (c_id c) t).




(** [ORDER BY timestamp ASC] without ties. *)
Definition strictly_earlier (a b : MessageRow) : Prop := m_timestamp a < m_timestamp b.

End ServerTerms.


Module UtilsTerms.
Import Js.

(** A list of characters without its leading white space, and without
    the white space at both ends. *)
Fixpoint skip (l : list ascii) : list ascii :=
  match l with
  | [] => []
  | c :: rest => if is_space c then skip rest else l
  end.

Definition strip (l : list ascii) : list ascii :=
  rev (skip (rev (skip l))).

(** The character is one of the two angle brackets. *)
Definition angle (c : ascii) : bool :=
  bool_decide (c = "<"%char) || bool_decide (c = ">"%char).

End UtilsTerms.


(** * Properties *)

Module DatabaseServiceFacts.
Import Js Eff DatabaseService DatabaseServiceTerms.

Example create_offline :
  perform {| now := 1000; fresh := 1000 |} None (CreateConversation None)
          (fresh_service false (quota 10))
  = (Resolved (ConversationReply true (Local (mkLocalConversation 1000 "New Conversation" 1000 1000 0))),
     store (with_conversations [mkLocalConversation 1000 "New Conversation" 1000 1000 0] no_items)
           (fresh_service false (quota 10))).
Proof. reflexivity. Qed.

(** *** Which calls can reject *)

Lemma accepts_writes_ext s s' :
  allows (localStorage s') = allows (localStorage s) ->
  accepts_writes s' <-> accepts_writes s.
Proof. unfold accepts_writes. intros ->. tauto. Qed.

Lemma stable_ret {A} (v : A) : stable (mret v).
Proof. intros s. reflexivity. Qed.

Lemma stable_throw {A} (e : Exn) : stable (throw e : M A).
Proof. intros s. reflexivity. Qed.

Lemma stable_bind {A B} (m : M A) (k : A -> M B) :
  stable m -> (forall a, stable (k a)) -> stable (m ≫= k).
Proof.
  intros Hm Hk s. unfold mbind, SE_bind. specialize (Hm s).
  destruct (m s) as [[v|e] s1]; cbn in *; [|assumption].
  rewrite <- Hm. apply Hk.
Qed.

Lemma stable_try_catch {A} (body : M A) (handler : Exn -> M A) :
  stable body -> (forall e, stable (handler e)) -> stable (try_catch body handler).
Proof.
  intros Hb Hh s. unfold try_catch. specialize (Hb s).
  destruct (body s) as [[v|e] s1]; cbn in *; [assumption|].
  rewrite <- Hb. apply Hh.
Qed.

Lemma stable_write it : stable (write it).
Proof. intros s. unfold write. destruct (allows _ _); reflexivity. Qed.

Lemma guarded_stable {A} (m : M A) : guarded m -> stable m.
Proof. intros [H _]. exact H. Qed.

Lemma guarded_ret {A} (v : A) : guarded (mret v).
Proof. split; [apply stable_ret|]. intros s e H. discriminate H. Qed.

Lemma guarded_bind {A B} (m : M A) (k : A -> M B) :
  guarded m -> (forall a, guarded (k a)) -> guarded (m ≫= k).
Proof.
  intros [Sm Gm] Hk. split.
  - apply stable_bind; [assumption|]. intros a. apply Hk.
  - intros s e. unfold mbind, SE_bind.
    specialize (Sm s). specialize (Gm s).
    destruct (m s) as [[v|e0] s1]; cbn in *.
    + intros H. destruct (Hk v) as [_ Gk]. destruct (Gk _ _ H) as [-> Hn].
      split; [reflexivity|]. intros Hs. apply Hn.
      apply (accepts_writes_ext s s1); assumption.
    + intros H. injection H as <-. apply Gm. reflexivity.
Qed.

Lemma guarded_try_catch {A} (body : M A) (handler : Exn -> M A) :
  stable body -> (forall e, guarded (handler e)) -> guarded (try_catch body handler).
Proof.
  intros Sb Hh. split.
  - apply stable_try_catch; [assumption|]. intros e. apply Hh.
  - intros s e. unfold try_catch. specialize (Sb s).
    destruct (body s) as [[v|e0] s1]; cbn in *; [discriminate|].
    intros H. destruct (Hh e0) as [_ Gh]. destruct (Gh _ _ H) as [-> Hn].
    split; [reflexivity|]. intros Hs. apply Hn.
    apply (accepts_writes_ext s s1); assumption.
Qed.

Lemma guarded_write it : guarded (write it).
Proof.
  split; [apply stable_write|]. intros s e. unfold write.
  destruct (allows (localStorage s) it) eqn:E; cbn; [discriminate|].
  intros H. injection H as <-. split; [reflexivity|].
  intros Hs. rewrite (Hs it) in E. discriminate E.
Qed.

Create HintDb facade.

#[local] Hint Resolve stable_ret stable_throw stable_write guarded_ret guarded_write
  : facade.

Ltac facade_step :=
  lazymatch goal with
  | |- guarded (mret _) => apply guarded_ret
  | |- guarded (try_catch _ _) => apply guarded_try_catch; [|intros ?]
  | |- guarded (_ ≫= _) => apply guarded_bind; [|intros ?]
  | |- guarded (match ?x with _ => _ end) => destruct x
  | |- guarded (let _ := _ in _) => cbv zeta
  | |- stable (mret _) => apply stable_ret
  | |- stable (throw _) => apply stable_throw
  | |- stable (_ ≫= _) => apply stable_bind; [|intros ?]
  | |- stable (match ?x with _ => _ end) => destruct x
  | |- stable (let _ := _ in _) => cbv zeta
  end.

Lemma guarded_local_conversations : guarded local_conversations.
Proof. split; [intros s; reflexivity|]. intros s e H. discriminate H. Qed.

Lemma guarded_local_messages id : guarded (local_messages id).
Proof. split; [intros s; reflexivity|]. intros s e H. discriminate H. Qed.

Lemma guarded_setItem_conversations l : guarded (setItem_conversations l).
Proof.
  split.
  - intros s. apply stable_write.
  - intros s e. apply (guarded_write (with_conversations l (items (localStorage s)))).
Qed.

Lemma guarded_setItem_messages id l : guarded (setItem_messages id l).
Proof.
  split.
  - intros s. apply stable_write.
  - intros s e. apply (guarded_write (with_messages id l (items (localStorage s)))).
Qed.

Lemma guarded_removeItem_messages id : guarded (removeItem_messages id).
Proof. split; [intros s; reflexivity|]. intros s e H. discriminate H. Qed.

Lemma guarded_isBackendAvailable : guarded isBackendAvailable.
Proof. split; [intros s; reflexivity|]. intros s e H. discriminate H. Qed.

Lemma stable_set_currentConversationId v : stable (set_currentConversationId v).
Proof. intros s. reflexivity. Qed.

Lemma stable_fetch_ok net : stable (fetch_ok net).
Proof.
  unfold fetch_ok, fetch. destruct net as [response|].
  - apply stable_bind; [apply stable_ret|]. intros a.
    destruct (negb (ok a)); [apply stable_throw|apply stable_ret].
  - apply stable_bind; [apply stable_throw|]. intros a.
    destruct (negb (ok a)); [apply stable_throw|apply stable_ret].
Qed.

Lemma stable_response_json response : stable (response_json response).
Proof.
  unfold response_json. destruct (json_body response);
    [apply stable_ret|apply stable_throw].
Qed.

Lemma stable_prop v k : stable (prop v k).
Proof.
  unfold prop. destruct v as [[]|]; try apply stable_ret; apply stable_throw.
Qed.

#[local] Hint Resolve guarded_local_conversations guarded_local_messages
  guarded_setItem_conversations guarded_setItem_messages
  guarded_removeItem_messages guarded_isBackendAvailable
  stable_set_currentConversationId stable_fetch_ok stable_response_json
  stable_prop : facade.

Ltac facade := repeat (first [ solve [auto with facade] | facade_step ]).

Lemma guarded_updateLocalConversationTimestamp env id :
  guarded (updateLocalConversationTimestamp env id).
Proof. unfold updateLocalConversationTimestamp. facade. Qed.

Lemma guarded_createLocalConversation env title :
  guarded (createLocalConversation env title).
Proof. unfold createLocalConversation. facade. Qed.

Lemma guarded_addLocalMessage env id content type :
  guarded (addLocalMessage env id content type).
Proof.
  unfold addLocalMessage. facade. apply guarded_updateLocalConversationTimestamp.
Qed.

Lemma guarded_updateLocalConversationTitle env id title :
  guarded (updateLocalConversationTitle env id title).
Proof. unfold updateLocalConversationTitle. facade. Qed.

Lemma guarded_deleteLocalConversation id : guarded (deleteLocalConversation id).
Proof. unfold deleteLocalConversation. facade. Qed.

Lemma guarded_getLocalConversations : guarded getLocalConversations.
Proof. unfold getLocalConversations. facade. Qed.

Lemma guarded_getLocalMessages id : guarded (getLocalMessages id).
Proof. unfold getLocalMessages. facade. Qed.

Lemma guarded_searchLocalConversations query : guarded (searchLocalConversations query).
Proof. unfold searchLocalConversations. facade. Qed.

Lemma guarded_getLocalConversationStats id : guarded (getLocalConversationStats id).
Proof. unfold getLocalConversationStats. facade. Qed.

#[local] Hint Resolve guarded_updateLocalConversationTimestamp
  guarded_createLocalConversation guarded_addLocalMessage
  guarded_updateLocalConversationTitle guarded_deleteLocalConversation
  guarded_getLocalConversations guarded_getLocalMessages
  guarded_searchLocalConversations guarded_getLocalConversationStats : facade.

Lemma guarded_perform env net c : guarded (perform env net c).
Proof.
  destruct c; cbn [perform];
    unfold createConversation, getConversations, getMessages, addMessage,
      updateConversationTitle, deleteConversation, searchConversations,
      getConversationStats;
    facade.
Qed.

(** Whatever the network does, a call only ever rejects with the storage
    exception, and then the browser has refused a write: every other
    failure is caught and sent to the fallback. *)
Lemma perform_rejects_only_on_storage env net c s e s' :
  perform env net c s = (Rejected e, s') ->
  e = QuotaExceededError /\ ~ accepts_writes s.
Proof.
  intros H. destruct (guarded_perform env net c) as [_ G].
  apply (G s e). rewrite H. reflexivity.
Qed.

(** So a call resolves whenever the browser accepts the writes. *)
Lemma perform_resolves_when_storage_accepts env net c s :
  accepts_writes s -> exists r s', perform env net c s = (Resolved r, s').
Proof.
  intros Hs. destruct (perform env net c s) as [[r|e] s'] eqn:E.
  - eauto.
  - destruct (perform_rejects_only_on_storage _ _ _ _ _ _ E) as [_ Hn].
    contradiction.
Qed.

(** *** Fallback mode *)

Lemma fetch_ok_fails s net :
  isConnected s = true -> falls_back s net = true ->
  exists e, fetch_ok net s = (Rejected e, s).
Proof.
  unfold falls_back. intros -> H. cbn in H.
  unfold fetch_ok, fetch, mbind, SE_bind, throw, mret, SE_ret.
  destruct net as [response|]; [|eauto].
  rewrite H. eauto.
Qed.

Lemma deleteConversation_falls_back s net id :
  falls_back s net = true ->
  deleteConversation net id s = deleteLocalConversation id s.
Proof.
  intros H. unfold deleteConversation, isBackendAvailable, mbind at 1, SE_bind at 1.
  destruct (isConnected s) eqn:C; [|reflexivity]. cbn [negb].
  unfold try_catch, mbind at 1, SE_bind at 1.
  destruct (fetch_ok_fails s net C H) as [e ->]. reflexivity.
Qed.

Lemma updateConversationTitle_falls_back env s net id title :
  falls_back s net = true ->
  updateConversationTitle env net id title s = updateLocalConversationTitle env id title s.
Proof.
  intros H. unfold updateConversationTitle, isBackendAvailable, mbind at 1, SE_bind at 1.
  destruct (isConnected s) eqn:C; [|reflexivity]. cbn [negb].
  unfold try_catch, mbind at 1, SE_bind at 1.
  destruct (fetch_ok_fails s net C H) as [e ->]. reflexivity.
Qed.

Lemma addMessage_falls_back env s net id content type :
  falls_back s net = true ->
  addMessage env net id content type s = addLocalMessage env id content type s.
Proof.
  intros H. unfold addMessage, isBackendAvailable, mbind at 1, SE_bind at 1.
  destruct (isConnected s) eqn:C; [|reflexivity]. cbn [negb].
  unfold try_catch, mbind at 1, SE_bind at 1.
  destruct (fetch_ok_fails s net C H) as [e ->]. reflexivity.
Qed.

Lemma find_conversation_unknown id l :
  Forall (fun c => conv_id c <> id) l -> find_conversation id l = None.
Proof. intros H. apply list_find_None. exact H. Qed.

(** C9. In fallback mode, and with a browser that accepts the write,
    [deleteConversation] resolves to [{success: true}] for every id, whether
    or not local storage holds a conversation with that id; the title
    update, for an id that local storage does not hold, resolves to
    [{success: false}] and leaves the service as it was. *)
Theorem deleteConversation_fallback_succeeds_for_any_id env net s id title :
  falls_back s net = true ->
  accepts_writes s ->
  deleteConversation net id s
  = (Resolved (SuccessReply true),
     store (without_messages id
              (with_conversations
                 (List.filter (fun c => negb (conv_id c =? id)) (stored_conversations s))
                 (items (localStorage s)))) s)
  /\ (Forall (fun c => conv_id c <> id) (stored_conversations s) ->
      updateConversationTitle env net id title s = (Resolved (SuccessReply false), s)).
Proof.
  intros Hf Ha. split.
  - rewrite (deleteConversation_falls_back s net id Hf).
    unfold deleteLocalConversation, local_conversations, getItem_conversations,
      setItem_conversations, removeItem_messages, write, mbind, SE_bind, mret, SE_ret.
    cbn. rewrite Ha. reflexivity.
  - intros Hu. rewrite (updateConversationTitle_falls_back env s net id title Hf).
    unfold updateLocalConversationTitle, local_conversations, getItem_conversations,
      mbind, SE_bind, mret, SE_ret.
    cbn. fold (stored_conversations s).
    rewrite (find_conversation_unknown id _ Hu). reflexivity.
Qed.

Lemma deleteConversation_fallback_succeeds_for_any_id_witness :
  let s := fresh_service false (fun _ => true) in
  falls_back s None = true /\
  deleteConversation None 42 s
  = (Resolved (SuccessReply true),
     store (without_messages 42 (with_conversations [] no_items)) s)
  /\ updateConversationTitle (mkEnv 5 5) None 42 "Maize" s
     = (Resolved (SuccessReply false), s).
Proof.
  intros s.
  destruct (deleteConversation_fallback_succeeds_for_any_id
              (mkEnv 5 5) None s 42 "Maize"%string) as [Hd Hu].
  - reflexivity.
  - intros it. reflexivity.
  - split; [reflexivity|]. split; [exact Hd|]. apply Hu. constructor.
Defined.

(** C10. In fallback mode, and with a browser that accepts the writes,
    [addMessage] resolves to [{success: true, message}] for every
    conversation id and the message is appended to the list stored under
    that conversation's key; when the conversation list holds no
    conversation with that id, only that key is written: the conversation
    list stays as it was. *)
Theorem addMessage_fallback_stores_for_any_id env net s id content type :
  falls_back s net = true ->
  accepts_writes s ->
  let message := mkLocalMessage (fresh env) id content type (now env) in
  exists s',
    addMessage env net id content type s = (Resolved (MessageReply true (Local message)), s')
    /\ stored_messages id s' = stored_messages id s ++ [message]
    /\ (Forall (fun c => conv_id c <> id) (stored_conversations s) ->
        s' = store (with_messages id (stored_messages id s ++ [message])
                                  (items (localStorage s))) s).
Proof.
  intros Hf Ha message.
  rewrite (addMessage_falls_back env s net id content type Hf).
  unfold addLocalMessage, updateLocalConversationTimestamp, local_messages,
    local_conversations, getItem_messages, getItem_conversations, setItem_messages,
    setItem_conversations, write, mbind, SE_bind, mret, SE_ret.
  cbn. rewrite Ha. cbn.
  fold (stored_messages id s). fold (stored_conversations s). fold message.
  pose proof (find_conversation_unknown id (stored_conversations s)) as Hu.
  unfold find_conversation in Hu.
  destruct (list_find _ (stored_conversations s)) as [[i c]|] eqn:F.
  - cbn. rewrite Ha. eexists. split; [reflexivity|]. split.
    + unfold stored_messages. cbn. rewrite lookup_insert_eq. reflexivity.
    + intros H. specialize (Hu H). discriminate Hu.
  - eexists. split; [reflexivity|]. split.
    + unfold stored_messages. cbn. rewrite lookup_insert_eq. reflexivity.
    + intros _. reflexivity.
Qed.

Lemma addMessage_fallback_stores_for_any_id_witness :
  let s := fresh_service false (fun _ => true) in
  let message := mkLocalMessage 77 42 "How do I plant tomatoes?" "user" 1000 in
  falls_back s None = true /\
  exists s',
    addMessage (mkEnv 1000 77) None 42 "How do I plant tomatoes?" "user" s
    = (Resolved (MessageReply true (Local message)), s')
    /\ stored_messages 42 s' = [message]
    /\ agrichat_conversations (items (localStorage s')) = None.
Proof.
  intros s message. split; [reflexivity|].
  destruct (addMessage_fallback_stores_for_any_id
              (mkEnv 1000 77) None s 42 "How do I plant tomatoes?"%string "user"%string)
    as (s' & Hr & Hm & Hs).
  - reflexivity.
  - intros it. reflexivity.
  - exists s'. split; [exact Hr|]. split; [exact Hm|].
    rewrite Hs; [reflexivity|constructor].
Defined.

(** *** Failing inputs *)

(** C1, at a failing input. With the storage full, the fallback write of
    [createConversation] and of [addMessage] throws: the promise rejects
    with the storage exception instead of resolving to [{success: false}],
    when the backend was never reachable and also when the request fails. *)
Theorem facade_rejects_when_storage_is_full :
  perform (mkEnv 1000 1000) None (CreateConversation (Some "Tomatoes"%string)) offline_full
  = (Rejected QuotaExceededError, offline_full)
  /\ perform (mkEnv 1000 1000) (Some (mkHttpResponse false None))
             (CreateConversation None) online_full
     = (Rejected QuotaExceededError, online_full)
  /\ perform (mkEnv 1000 1000) None (AddMessage 42 "Hello there" "user") offline_full
     = (Rejected QuotaExceededError, offline_full).
Proof. repeat split. Qed.

(** C4, at a failing input. The query occurs, whatever the case, in the
    content of both messages and not in the title; the fallback search
    looks at titles only and returns no conversation. *)
Theorem searchLocalConversations_misses_message_content :
  stored_conversations offline_garden = [garden_plan]
  /\ stored_messages 7 offline_garden = garden_messages
  /\ Forall (fun m => includes (toLowerCase (msg_content m)) (toLowerCase "BLIGHT") = true)
            garden_messages
  /\ includes (toLowerCase (conv_title garden_plan)) (toLowerCase "BLIGHT") = false
  /\ searchConversations None "BLIGHT" 20 offline_garden
     = (Resolved (SearchReply true (Local []) (Local "BLIGHT"%string) (Local 0%nat)),
        offline_garden).
Proof.
  split; [reflexivity|]. split; [reflexivity|]. split; [|split].
  - repeat constructor.
  - reflexivity.
  - reflexivity.
Qed.

End DatabaseServiceFacts.

Module QueryFacts.
Import Js Eff Schema Database QueryTerms.

Lemma query_runs {A : Type} (run : Statement A) w result t :
  next_query_runs w ->
  run (clock w) (tables w) = Some (result, t) ->
  query (Some run) w = (Resolved result, after_query t w).
Proof.
  intros Hf Hr. unfold query, after_query, next_query_runs in *. rewrite Hr.
  destruct (faults w) as [|[] l]; try reflexivity.
  exfalso. apply Hf. reflexivity.
Qed.

#[local] Instance earlier_transitive : Transitive earlier.
Proof. intros a b c. unfold earlier. lia. Qed.

#[local] Instance earlier_total : Total earlier.
Proof. intros a b. unfold earlier. lia. Qed.

#[local] Instance later_transitive : Transitive later.
Proof. intros a b c. unfold later. lia. Qed.

#[local] Instance later_total : Total later.
Proof. intros a b. unfold later. lia. Qed.

Lemma StronglySorted_take {A} (R : relation A) n l :
  StronglySorted R l -> StronglySorted R (take n l).
Proof.
  intros H. rewrite <- (take_drop n l) in H.
  apply StronglySorted_app_1_l in H. exact H.
Qed.

Lemma StronglySorted_drop {A} (R : relation A) n l :
  StronglySorted R l -> StronglySorted R (drop n l).
Proof.
  intros H. rewrite <- (take_drop n l) in H.
  apply StronglySorted_app_1_r in H. exact H.
Qed.

Lemma StronglySorted_reverse {A} (R : relation A) l :
  StronglySorted R l -> StronglySorted (flip R) (reverse l).
Proof.
  induction 1 as [|x l Hl IH Hx]; [constructor|].
  rewrite reverse_cons. apply StronglySorted_app_2.
  - intros a b Ha Hb. apply list_elem_of_singleton in Hb. subst b.
    rewrite elem_of_reverse in Ha. unfold flip.
    rewrite Forall_forall in Hx. apply Hx. exact Ha.
  - exact IH.
  - repeat constructor.
Qed.

Lemma row_count_of_nat n : row_count (Some (Z.of_nat n)) = Some n.
Proof.
  unfold row_count. destruct (Z.leb_spec 0 (Z.of_nat n)); [|lia].
  rewrite Nat2Z.id. reflexivity.
Qed.

(** C7. While the connection holds, the recent-messages query returns,
    for every conversation and every count [n], [n] messages of the
    conversation (all of them when there are fewer), none of them older
    than a message it leaves out, in ascending order of timestamp; and the
    plain list of a conversation's messages is in ascending order of
    timestamp, and holds all its messages when the limit allows. *)
Theorem recent_messages_are_the_latest_ascending w conversationId n :
  next_query_runs w ->
  (exists recent rest,
     Message.getRecentMessages conversationId (Some (Z.of_nat n)) w
     = (Resolved recent, after_query (tables w) w)
     /\ StronglySorted earlier recent
     /\ length recent = min n (length (messages_of conversationId (tables w)))
     /\ recent ++ rest ≡ₚ messages_of conversationId (tables w)
     /\ (forall m m', m ∈ recent -> m' ∈ rest -> m_timestamp m' <= m_timestamp m))
  /\ (forall limit offset, exists listed,
        Message.findByConversationId conversationId
          (Some (Z.of_nat limit)) (Some (Z.of_nat offset)) w
        = (Resolved listed, after_query (tables w) w)
        /\ StronglySorted earlier listed
        /\ listed ⊆ messages_of conversationId (tables w)
        /\ (offset = 0%nat ->
            (length (messages_of conversationId (tables w)) <= limit)%nat ->
            listed ≡ₚ messages_of conversationId (tables w))).
Proof.
  intros Hq. split.
  - set (all := messages_of conversationId (tables w)).
    set (sorted := merge_sort later all).
    exists (reverse (take n sorted)), (drop n sorted).
    assert (Hs : StronglySorted later sorted) by (apply StronglySorted_merge_sort; apply _).
    assert (Hp : sorted ≡ₚ all) by apply merge_sort_Permutation.
    split; [|split; [|split; [|split]]].
    + unfold Message.getRecentMessages. rewrite row_count_of_nat.
      unfold mbind, SE_bind.
      rewrite (query_runs _ w (select_latest_messages conversationId n (tables w))
                 (tables w) Hq eq_refl).
      reflexivity.
    + apply (StronglySorted_reverse later). apply StronglySorted_take. exact Hs.
    + rewrite length_reverse, length_take. rewrite (Permutation_length Hp). reflexivity.
    + rewrite reverse_Permutation, take_drop. exact Hp.
    + intros m m' Hm Hm'. rewrite elem_of_reverse in Hm.
      rewrite <- (take_drop n sorted) in Hs.
      apply StronglySorted_app in Hs. destruct Hs as (Hs & _ & _).
      apply (Hs m m' Hm Hm').
  - intros limit offset.
    set (all := messages_of conversationId (tables w)).
    set (sorted := merge_sort earlier all).
    exists (take limit (drop offset sorted)).
    assert (Hs : StronglySorted earlier sorted) by (apply StronglySorted_merge_sort; apply _).
    assert (Hp : sorted ≡ₚ all) by apply merge_sort_Permutation.
    split; [|split; [|split]].
    + unfold Message.findByConversationId. rewrite !row_count_of_nat.
      rewrite (query_runs _ w (select_messages conversationId limit offset (tables w))
                 (tables w) Hq eq_refl).
      reflexivity.
    + apply StronglySorted_take, StronglySorted_drop. exact Hs.
    + intros m Hm. apply subseteq_take, subseteq_drop in Hm.
      rewrite <- Hp. exact Hm.
    + intros -> Hl. rewrite drop_0, take_ge; [exact Hp|].
      rewrite (Permutation_length Hp). exact Hl.
Qed.

Lemma recent_messages_are_the_latest_ascending_witness :
  next_query_runs (quiet_world diary 50 [])
  /\ Message.getRecentMessages 1 (Some 2) (quiet_world diary 50 [])
     = (Resolved [mkMessageRow 4 1 "second" ai 35; mkMessageRow 3 1 "third" ai 40],
        after_query diary (quiet_world diary 50 []))
  /\ Message.findByConversationId 1 (Some 100) (Some 0) (quiet_world diary 50 [])
     = (Resolved [ mkMessageRow 1 1 "first" user 30;
                   mkMessageRow 4 1 "second" ai 35;
                   mkMessageRow 3 1 "third" ai 40 ],
        after_query diary (quiet_world diary 50 [])).
Proof.
  assert (H : next_query_runs (quiet_world diary 50 [])) by discriminate.
  destruct (recent_messages_are_the_latest_ascending (quiet_world diary 50 []) 1 2 H)
    as [(recent & rest & Hr & _) Hl].
  destruct (Hl 100%nat 0%nat) as (listed & Hf & _).
  split; [exact H|]. split; reflexivity.
Defined.

Lemma touched_rows id now (rows : list ConversationRow) :
  Forall (fun c => c_updated_at c <= now) rows ->
  Forall2 (fun c c' => c_id c' = c_id c
                       /\ c_updated_at c <= c_updated_at c'
                       /\ (c_id c = id -> c_updated_at c' = now))
          rows (map (fun c => if c_id c =? id then touch now c else c) rows).
Proof.
  induction 1 as [|c rows Hc Hrows IH]; cbn; constructor; [|exact IH].
  destruct (Z.eqb_spec (c_id c) id) as [E|E]; cbn.
  - split; [reflexivity|]. split; [exact Hc|]. intros _. reflexivity.
  - split; [reflexivity|]. split; [lia|]. intros E'. contradiction.
Qed.

Lemma untouched_rows id now (rows : list ConversationRow) :
  Forall2 (fun c c' => c_id c' = c_id c
                       /\ c_updated_at c <= c_updated_at c'
                       /\ (c_id c = id -> False -> c_updated_at c' = now))
          rows rows.
Proof.
  induction rows as [|c rows IH]; constructor; [|exact IH].
  split; [reflexivity|]. split; [lia|]. intros _ [].
Qed.

(** C6. When the insertion of a message succeeds, [Message.create] makes
    a second query, the update of the parent's [updated_at], and returns
    the message whether or not that second query fails. Every
    conversation's [updated_at] is then at least what it was (the clock
    not running backwards), and the parent's is the current instant when
    the second query did not fail. *)
Theorem message_creation_touches_parent w conversationId content type ty :
  next_query_runs w ->
  enum_of_string type = Some ty ->
  conversation_exists conversationId (tables w) = true ->
  fits content content_max = true ->
  Forall (fun c => c_updated_at c <= clock w) (conversations (tables w)) ->
  exists w',
    Message.create conversationId content type w
    = (Resolved (JObj [ ("id", JNum (next_message_id (tables w)));
                        ("conversation_id", JNum conversationId);
                        ("content", JStr content);
                        ("type", JStr type);
                        ("timestamp", JDate (clock w)) ]%string), w')
    /\ queries w' = S (S (queries w))
    /\ messages (tables w')
       = messages (tables w)
         ++ [mkMessageRow (next_message_id (tables w)) conversationId content ty (clock w)]
    /\ Forall2 (fun c c' => c_id c' = c_id c
                            /\ c_updated_at c <= c_updated_at c'
                            /\ (c_id c = conversationId ->
                                head (tail (faults w)) <> Some true ->
                                c_updated_at c' = clock w))
               (conversations (tables w)) (conversations (tables w')).
Proof.
  intros Hq Hty Hex Hfit Hclock.
  unfold Message.create, Message.updateConversationTimestamp, try_catch, new_Date,
    mbind, SE_bind, mret, SE_ret.
  erewrite (query_runs (insert_message conversationId content type) w);
    [| exact Hq | unfold insert_message; rewrite Hty, Hex, Hfit; reflexivity ].
  unfold query, after_query, touch_conversation. cbn.
  destruct (tail (faults w)) as [|[] script] eqn:E; cbn.
  - eexists. split; [reflexivity|]. cbn. repeat split.
    eapply Forall2_impl; [apply (touched_rows conversationId (clock w)); exact Hclock|].
    cbn. intros c c' (H1 & H2 & H3). auto.
  - eexists. split; [reflexivity|]. cbn. repeat split.
    eapply Forall2_impl; [apply (untouched_rows conversationId (clock w))|].
    cbn. intros c c' (H1 & H2 & H3). repeat split; [exact H1|exact H2|].
    intros _ Hn. exfalso. apply Hn. reflexivity.
  - eexists. split; [reflexivity|]. cbn. repeat split.
    eapply Forall2_impl; [apply (touched_rows conversationId (clock w)); exact Hclock|].
    cbn. intros c c' (H1 & H2 & H3). auto.
Qed.

(** The update of the timestamp fails: the message is created all the
    same, and the parent keeps its timestamp. *)
Lemma message_creation_touches_parent_witness :
  let w := quiet_world diary 50 [false; true] in
  next_query_runs w
  /\ exists w',
       Message.create 1 "fourth" "user" w
       = (Resolved (JObj [ ("id", JNum 5);
                           ("conversation_id", JNum 1);
                           ("content", JStr "fourth");
                           ("type", JStr "user");
                           ("timestamp", JDate 50) ]%string), w')
       /\ queries w' = 2%nat
       /\ messages (tables w') = messages diary ++ [mkMessageRow 5 1 "fourth" user 50]
       /\ conversations (tables w') = conversations diary.
Proof.
  intros w.
  assert (H : next_query_runs w) by discriminate.
  split; [exact H|].
  destruct (message_creation_touches_parent w 1 "fourth" "user" user H)
    as (w' & Hc & Hn & Hm & _).
  - reflexivity.
  - reflexivity.
  - reflexivity.
  - repeat constructor; cbn; lia.
  - exists w'. split; [exact Hc|]. split; [exact Hn|]. split; [exact Hm|].
    vm_compute in Hc. injection Hc as <-. reflexivity.
Defined.

(** *** The search of the server *)

Lemma like_after_percent rest text :
  like (String "%"%char rest) text
  = like rest text
    || match text with
       | EmptyString => false
       | String _ t' => like (String "%"%char rest) t'
       end.
Proof. destruct text; reflexivity. Qed.

Lemma like_anything text : like "%" text = true.
Proof.
  induction text as [|c t IH]; [reflexivity|].
  rewrite like_after_percent, IH. apply orb_true_r.
Qed.

Lemma like_letter a rest c t :
  bool_decide (a = "%"%char) = false ->
  bool_decide (a = "_"%char) = false ->
  bool_decide (a = backslash) = false ->
  like (String a rest) (String c t) = same_letter a c && like rest t.
Proof. intros H1 H2 H3. cbn [like]. rewrite H1, H2, H3. reflexivity. Qed.

Lemma like_literal_prefix q text :
  plain q = true ->
  String.prefix (toLowerCase q) (toLowerCase text) = true ->
  like (q ++ "%") text = true.
Proof.
  revert text. induction q as [|a q IH]; intros text Hq Hp.
  - apply like_anything.
  - cbn in Hq. apply andb_prop in Hq as [Hq Hq'].
    apply andb_prop in Hq as [Hq H3]. apply andb_prop in Hq as [H1 H2].
    destruct text as [|c t]; [discriminate Hp|].
    cbn in Hp. destruct (ascii_dec (lower a) (lower c)) as [E|E]; [|discriminate Hp].
    apply negb_true_iff in H1, H2, H3.
    change (like (String a (q ++ "%")) (String c t) = true).
    rewrite (like_letter a _ c t H1 H2 H3).
    unfold same_letter. rewrite bool_decide_eq_true_2 by exact E.
    apply (IH t Hq' Hp).
Qed.

(** A plain text that occurs in [text], whatever the case, matches
    [`%${query}%`]. *)
Lemma like_contains q text :
  plain q = true ->
  includes (toLowerCase text) (toLowerCase q) = true ->
  like (contains_pattern q) text = true.
Proof.
  intros Hq. change (contains_pattern q) with (String "%"%char (q ++ "%")).
  induction text as [|c t IH]; intros Hi; rewrite like_after_percent.
  - cbn in Hi. rewrite orb_false_r in Hi.
    rewrite (like_literal_prefix q EmptyString Hq Hi). reflexivity.
  - cbn [toLowerCase includes] in Hi. apply orb_prop in Hi as [Hi|Hi].
    + rewrite (like_literal_prefix q (String c t) Hq Hi). reflexivity.
    + rewrite (IH Hi). apply orb_true_r.
Qed.

Lemma filter_all {A} (f : A -> bool) (l : list A) :
  (forall x, f x = true) -> List.filter f l = l.
Proof.
  intros H. induction l as [|x l IH]; cbn; [reflexivity|].
  rewrite H, IH. reflexivity.
Qed.

Lemma omap_length_le {A B} (f : A -> option B) (l : list A) :
  (length (omap f l) <= length l)%nat.
Proof.
  induction l as [|x l IH]; cbn; [lia|].
  destruct (f x); cbn; lia.
Qed.

Lemma search_group_row pattern t c r :
  search_group pattern t c = Some r -> summary_row r = c.
Proof.
  unfold search_group. destruct (matching_join pattern c t); [discriminate|].
  intros H. injection H as <-. reflexivity.
Qed.

Lemma search_group_matches pattern t c m :
  m ∈ messages t -> m_conversation_id m = c_id c ->
  like pattern (m_content m) = true ->
  exists r, search_group pattern t c = Some r.
Proof.
  intros Hm Hc Hl.
  assert (Some m ∈ matching_join pattern c t) as Hj.
  { unfold matching_join. apply list_elem_of_In, filter_In. split.
    - assert (m ∈ messages_of (c_id c) t) as Hin.
      { unfold messages_of. apply list_elem_of_In, filter_In. split.
        - apply list_elem_of_In. exact Hm.
        - apply Z.eqb_eq. exact Hc. }
      destruct (messages_of (c_id c) t) as [|m0 ms] eqn:E.
      + apply elem_of_nil in Hin. contradiction.
      + apply list_elem_of_In. apply (list_elem_of_fmap_2 Some). exact Hin.
    - rewrite Hl. apply orb_true_r. }
  unfold search_group. destruct (matching_join pattern c t) as [|j js].
  - apply elem_of_nil in Hj. contradiction.
  - eauto.
Qed.

(** The search of the server, for comparison with C4: a plain text that
    occurs, whatever the case, in the content of a message is found, and
    its conversation is in the result exactly once, when the limit leaves
    room for every conversation and no owner is asked for. *)
Theorem search_finds_message_content_once w q c m limit :
  next_query_runs w ->
  NoDup (map c_id (conversations (tables w))) ->
  c ∈ conversations (tables w) ->
  m ∈ messages (tables w) ->
  m_conversation_id m = c_id c ->
  plain q = true ->
  includes (toLowerCase (m_content m)) (toLowerCase q) = true ->
  (length (conversations (tables w)) <= limit)%nat ->
  exists found r others,
    Conversation.search q JNull (Some (Z.of_nat limit)) w
    = (Resolved found, after_query (tables w) w)
    /\ found ≡ₚ r :: others
    /\ summary_row r = c
    /\ Forall (fun r' => c_id (summary_row r') <> c_id c) others.
Proof.
  intros Hq Hkey Hc Hm Hmc Hplain Hin Hlimit.
  set (t := tables w) in *.
  set (pattern := contains_pattern q).
  destruct (search_group_matches pattern t c m Hm Hmc (like_contains q _ Hplain Hin))
    as [r Hr].
  apply elem_of_Permutation in Hc as [rest Hrest].
  set (rows := omap (search_group pattern t) (conversations t)).
  assert (rows ≡ₚ r :: omap (search_group pattern t) rest) as Hrows.
  { unfold rows. rewrite Hrest. cbn. rewrite Hr. reflexivity. }
  exists (take limit (merge_sort fresher rows)), r, (omap (search_group pattern t) rest).
  split; [|split; [|split]].
  - unfold Conversation.search. cbn [Conversation.user_filter]. rewrite row_count_of_nat.
    rewrite (query_runs _ w (search_conversations pattern None limit t) t Hq eq_refl).
    unfold search_conversations. rewrite (filter_all (owned_by None)); reflexivity.
  - rewrite take_ge.
    + rewrite merge_sort_Permutation. exact Hrows.
    + rewrite (Permutation_length (merge_sort_Permutation fresher rows)).
      unfold rows. etransitivity; [apply omap_length_le|exact Hlimit].
  - apply (search_group_row pattern t c r Hr).
  - rewrite Hrest in Hkey. cbn in Hkey. apply NoDup_cons in Hkey as [Hnot _].
    apply Forall_forall. intros r' Hr'.
    apply list_elem_of_omap in Hr' as (c' & Hc' & Hg).
    rewrite (search_group_row pattern t c' r' Hg).
    intros E. apply Hnot. rewrite <- E.
    apply (list_elem_of_fmap_2 c_id). exact Hc'.
Qed.

Example search_finds_second_in_diary :
  exists found r others,
    Conversation.search "SEC" JNull (Some 20) (quiet_world diary 50 [])
    = (Resolved found, after_query diary (quiet_world diary 50 []))
    /\ found ≡ₚ r :: others
    /\ summary_row r = mkConversationRow 1 None (Some "Maize") 10 40
    /\ Forall (fun r' => c_id (summary_row r') <> 1) others.
Proof.
  apply (search_finds_message_content_once (quiet_world diary 50 []) "SEC"
           (mkConversationRow 1 None (Some "Maize") 10 40)
           (mkMessageRow 4 1 "second" ai 35) 20).
  - discriminate.
  - cbn. constructor.
    + rewrite list_elem_of_singleton. discriminate.
    + constructor; [apply not_elem_of_nil|constructor].
  - apply list_elem_of_here.
  - cbn. do 3 apply list_elem_of_further. apply list_elem_of_here.
  - reflexivity.
  - reflexivity.
  - reflexivity.
  - cbn. lia.
Qed.

End QueryFacts.

Module ApiFacts.
Import Js Eff Schema Database Api QueryTerms QueryFacts ApiTerms.

Local Open Scope string_scope.

Lemma length_zero (s : string) : (String.length s =? 0)%nat = true <-> s = EmptyString.
Proof.
  destruct s; cbn; split; intros H; try reflexivity; discriminate H.
Qed.

Lemma limiter_counts req w :
  limiter req w
  = (Resolved (if (rate_limit_max (config w) <? Z.of_nat (S (default 0%nat (hits w !! ip req))))%Z
               then Some too_many_requests else None),
     counted req w).
Proof.
  unfold limiter, counted.
  destruct (rate_limit_max (config w) <? _)%Z; reflexivity.
Qed.

Lemma router_endpoint_is_under_api req e :
  endpoint req = e ->
  match e with AppHealth | AppRoot | AppNotFound => False | _ => True end ->
  exists rest, under_api (path req) = Some rest.
Proof.
  unfold endpoint. destruct (under_api (path req)) as [rest|]; [eauto|].
  intros <-. destruct (method req), (path req) as [|a [|b l]]; cbn;
    try destruct (fixed a "health"); cbn; intros [].
Qed.

(** What [serve] does for a request to a route of the router: the limiter
    counts it, and refuses it or hands it to the validator and handler. *)
Lemma serve_under_api req w rest :
  under_api (path req) = Some rest ->
  serve req w =
    if (rate_limit_max (config w) <? Z.of_nat (S (default 0%nat (hits w !! ip req))))%Z
    then (too_many_requests, counted req w)
    else match validator (endpoint req) req with
         | Some refusal => (refusal, counted req w)
         | None =>
             match handler (endpoint req) req (counted req w) with
             | (Resolved response, w2) => (response, w2)
             | (Rejected e, w2) => (error_handler e w2, w2)
             end
         end.
Proof.
  intros H. unfold serve. rewrite H, limiter_counts.
  destruct (rate_limit_max (config w) <? _)%Z; reflexivity.
Qed.

Lemma blank_content_refused req :
  blank_content req ->
  validateMessageInput req
  = Some (mkResponse 400
            (JObj [("error", JStr "Invalid content. Content must be a non-empty string.")])).
Proof.
  unfold blank_content, validateMessageInput. intros H.
  destruct (obj_get "content" (body req)) as [v|]; [|reflexivity].
  destruct v as [|b|n|text|t|l|l]; cbn;
    try (rewrite orb_true_r; reflexivity); try reflexivity.
  rewrite (H text eq_refl). rewrite orb_true_r. reflexivity.
Qed.

Lemma unknown_type_not_allowed req :
  unknown_type req -> allowed_type (obj_get "type" (body req)) = false.
Proof.
  unfold unknown_type, allowed_type. intros H.
  destruct (obj_get "type" (body req)) as [v|]; [|reflexivity].
  destruct v as [|b|n|text|t|l|l]; try reflexivity.
  destruct (H text eq_refl) as (H1 & H2 & H3). cbn.
  apply String.eqb_neq in H1, H2, H3. rewrite H1, H2, H3. reflexivity.
Qed.

Lemma invalid_message_refused req :
  blank_content req \/ unknown_type req ->
  exists message,
    validateMessageInput req = Some (mkResponse 400 (JObj [("error", JStr message)])).
Proof.
  intros [H|H].
  - rewrite (blank_content_refused req H). eauto.
  - unfold validateMessageInput. rewrite (unknown_type_not_allowed req H).
    cbn [negb]. rewrite orb_true_r.
    destruct (_ || _ || _); eauto.
Qed.

(** C8. A request to append a message whose type is not one of [user],
    [ai], [error], or whose content is missing, not a string or empty once
    trimmed, is refused before the handler runs: by the validator, with
    status 400 (by the rate limiter when the client has passed its
    limit). No query is made and the tables are left as they were. *)
Theorem invalid_message_never_reaches_storage req w id :
  endpoint req = AddMessage id ->
  blank_content req \/ unknown_type req ->
  exists response,
    serve req w = (response, counted req w)
    /\ (within_limit req w ->
        status response = 400%nat /\ validateMessageInput req = Some response)
    /\ (~ within_limit req w -> response = too_many_requests)
    /\ tables (counted req w) = tables w
    /\ queries (counted req w) = queries w.
Proof.
  intros He Hbad.
  destruct (router_endpoint_is_under_api req _ He I) as [rest Hr].
  destruct (invalid_message_refused req Hbad) as [message Hv].
  rewrite (serve_under_api req w rest Hr), He. cbn [validator]. rewrite Hv.
  unfold within_limit.
  destruct (Z.ltb_spec (rate_limit_max (config w))
                       (Z.of_nat (S (default 0%nat (hits w !! ip req))))) as [L|L].
  - eexists. split; [reflexivity|]. split; [lia|]. split; [reflexivity|].
    split; reflexivity.
  - eexists. split; [reflexivity|]. split; [split; reflexivity|].
    split; [lia|]. split; reflexivity.
Qed.

Lemma within_limit_sample req : within_limit req sample_world.
Proof. unfold within_limit. cbn. rewrite lookup_empty. cbn. lia. Qed.

Lemma invalid_message_never_reaches_storage_witness :
  let req := request POST ["api"; "conversations"; "1"; "messages"]
                     [("content", JStr "Hello"); ("type", JStr "admin")] in
  endpoint req = AddMessage "1"
  /\ unknown_type req
  /\ serve req sample_world
     = (mkResponse 400
          (JObj [("error", JStr "Invalid type. Type must be one of: user, ai, error.")]),
        counted req sample_world).
Proof.
  intros req.
  assert (Hu : unknown_type req).
  { intros text H. vm_compute in H. injection H as <-.
    repeat split; discriminate. }
  split; [reflexivity|]. split; [exact Hu|].
  destruct (invalid_message_never_reaches_storage req sample_world "1" eq_refl
              (or_intror Hu)) as (response & Hs & Hw & _).
  destruct (Hw (within_limit_sample req)) as [_ Hv].
  rewrite Hs. f_equal. vm_compute in Hv. injection Hv as <-. reflexivity.
Defined.

(** *** Conversation titles *)

Lemma blank_title_refused req text :
  obj_get "title" (body req) = Some (JStr text) ->
  text <> EmptyString -> trim text = EmptyString ->
  validateConversationInput req = Some title_refusal.
Proof.
  intros Ht Hn Hb. unfold validateConversationInput. rewrite Ht. cbn.
  apply String.eqb_neq in Hn. rewrite Hn, Hb. reflexivity.
Qed.

(** C2, as the code has it. A request to create a conversation without a
    [title] field stores the title "New Conversation"; a request to create
    or rename a conversation whose title is a non-empty string of white
    space only is refused with status 400 before any query. *)
Theorem missing_title_defaults_blank_title_refused req w :
  (endpoint req = CreateConversation ->
   obj_get "title" (body req) = None ->
   truthy (obj_get "user_id" (body req)) = false ->
   within_limit req w ->
   next_query_runs w ->
   exists response w',
     serve req w = (response, w')
     /\ status response = 201%nat
     /\ field "success" (content response) = Some (JBool true)
     /\ conversations (tables w')
        = (conversations (tables w)
           ++ [mkConversationRow (next_conversation_id (tables w)) None
                                 (Some "New Conversation") (clock w) (clock w)])%list)
  /\ (forall text,
        (endpoint req = CreateConversation
         \/ exists id, endpoint req = UpdateConversation id) ->
        obj_get "title" (body req) = Some (JStr text) ->
        text <> EmptyString -> trim text = EmptyString ->
        within_limit req w ->
        serve req w = (title_refusal, counted req w)
        /\ tables (counted req w) = tables w
        /\ queries (counted req w) = queries w).
Proof.
  split.
  - intros He Ht Hu Hl Hq.
    destruct (router_endpoint_is_under_api req _ He I) as [rest Hr].
    rewrite (serve_under_api req w rest Hr), He.
    apply Z.ltb_ge in Hl. rewrite Hl.
    cbn [validator handler]. unfold validateConversationInput. rewrite Ht. cbn [truthy andb].
    unfold post_conversations, try_catch, Conversation.create. rewrite Ht, Hu.
    cbn [bind]. unfold mbind, SE_bind.
    erewrite (query_runs (insert_conversation (PText "New Conversation") PNull)
                (counted req w)); [| exact Hq | reflexivity].
    unfold after_query. cbn. eexists _, _. split; [reflexivity|]. repeat split.
  - intros text He Ht Hn Hb Hl.
    assert (exists rest, under_api (path req) = Some rest) as [rest Hr].
    { destruct He as [He|[id He]];
        apply (router_endpoint_is_under_api req _ He I). }
    rewrite (serve_under_api req w rest Hr).
    apply Z.ltb_ge in Hl. rewrite Hl.
    assert (validator (endpoint req) req = Some title_refusal) as ->.
    { destruct He as [He|[id He]]; rewrite He; cbn [validator];
        apply (blank_title_refused req text Ht Hn Hb). }
    repeat split.
Qed.

Lemma missing_title_defaults_blank_title_refused_witness :
  let create := request POST ["api"; "conversations"] [] in
  let rename := request PUT ["api"; "conversations"; "1"] [("title", JStr "   ")] in
  (exists response w',
     serve create sample_world = (response, w')
     /\ status response = 201%nat
     /\ field "success" (content response) = Some (JBool true)
     /\ conversations (tables w')
        = [ mkConversationRow 1 None (Some "Sample Conversation") 0 0;
            mkConversationRow 2 None (Some "New Conversation") 1000 1000 ])
  /\ serve rename sample_world = (title_refusal, counted rename sample_world).
Proof.
  intros create rename. split.
  - apply (proj1 (missing_title_defaults_blank_title_refused create sample_world)).
    + reflexivity.
    + reflexivity.
    + reflexivity.
    + apply within_limit_sample.
    + unfold next_query_runs. cbn. discriminate.
  - apply (proj2 (missing_title_defaults_blank_title_refused rename sample_world) "   ").
    + right. exists "1". reflexivity.
    + reflexivity.
    + discriminate.
    + reflexivity.
    + apply within_limit_sample.
Defined.

(** C2, as stated, fails: a title of three spaces is refused with status
    400, and no conversation titled "New Conversation" is stored. *)
Lemma whitespace_title_is_not_defaulted :
  let req := request POST ["api"; "conversations"] [("title", JStr "   ")] in
  endpoint req = CreateConversation
  /\ obj_get "title" (body req) = Some (JStr "   ")
  /\ trim "   " = EmptyString
  /\ status (serve req sample_world).1 = 400%nat
  /\ conversations (tables (serve req sample_world).2) = conversations sample_tables.
Proof. vm_compute. repeat split. Qed.

(** *** Message length *)

Lemma conversation_found n t :
  conversation_exists n t = true ->
  exists c, head (select_conversation n t) = Some c.
Proof.
  unfold conversation_exists, select_conversation.
  induction (conversations t) as [|c cs IH]; cbn; [discriminate|].
  destruct (c_id c =? n)%Z; cbn; eauto.
Qed.

Lemma allowed_type_enum type :
  allowed_type (Some (JStr type)) = true -> exists ty, enum_of_string type = Some ty.
Proof.
  unfold allowed_type, enum_of_string. cbn.
  destruct (String.eqb type "user"); [eauto|].
  destruct (String.eqb type "ai"); [eauto|].
  destruct (String.eqb type "error"); [eauto|].
  discriminate.
Qed.

Lemma valid_message_passes req text type :
  obj_get "content" (body req) = Some (JStr text) ->
  trim text <> EmptyString ->
  obj_get "type" (body req) = Some (JStr type) ->
  allowed_type (Some (JStr type)) = true ->
  validateMessageInput req = None.
Proof.
  intros Hc Hn Ht Ha. unfold validateMessageInput. rewrite Hc, Ht, Ha. cbn.
  assert (text <> EmptyString) as Hne.
  { intros ->. apply Hn. reflexivity. }
  apply String.eqb_neq in Hne. rewrite Hne. cbn.
  destruct (String.length (trim text) =? 0)%nat eqn:E.
  - apply length_zero in E. contradiction.
  - cbn. destruct (String.eqb type EmptyString) eqn:E2; [|reflexivity].
    apply String.eqb_eq in E2. subst type. discriminate Ha.
Qed.

(** A request to append a message that the validator lets through, for a
    conversation that exists, while the connection holds: the trimmed
    content is stored, whatever its length up to the capacity of the
    column. *)
Lemma post_message_stores req w id n text type :
  endpoint req = AddMessage id ->
  conversation_id id = Some n ->
  conversation_exists n (tables w) = true ->
  obj_get "content" (body req) = Some (JStr text) ->
  trim text <> EmptyString ->
  fits (trim text) content_max = true ->
  obj_get "type" (body req) = Some (JStr type) ->
  allowed_type (Some (JStr type)) = true ->
  within_limit req w ->
  faults w = [] ->
  exists response w' ty,
    serve req w = (response, w')
    /\ status response = 201%nat
    /\ enum_of_string type = Some ty
    /\ messages (tables w')
       = (messages (tables w)
          ++ [mkMessageRow (next_message_id (tables w)) n (trim text) ty (clock w)])%list.
Proof.
  intros He Hid Hex Hc Hn Hfit Ht Ha Hl Hf.
  destruct (router_endpoint_is_under_api req _ He I) as [rest Hr].
  destruct (allowed_type_enum type Ha) as [ty Hty].
  destruct (conversation_found n (tables w) Hex) as [c Hfound].
  rewrite (serve_under_api req w rest Hr), He.
  apply Z.ltb_ge in Hl. rewrite Hl.
  cbn [validator handler]. rewrite (valid_message_passes req text type Hc Hn Ht Ha).
  unfold post_message, try_catch. rewrite Hid, Hc, Ht.
  unfold Conversation.findById, queryOne, Message.create,
    Message.updateConversationTimestamp, try_catch, new_Date, mbind, SE_bind,
    mret, SE_ret, query, read, touch_conversation.
  cbn. rewrite Hf. cbn. rewrite Hfound.
  unfold insert_message. rewrite Hty. cbn. rewrite Hex, Hfit. cbn.
  eexists _, _, ty. repeat split.
Qed.

(** C3, as stated, fails: a message of 1001 characters passes the
    validator of the API and is stored. *)
Lemma long_content_is_stored :
  endpoint long_message = AddMessage "1"
  /\ (1000 <? String.length long_content)%nat = true
  /\ validateMessageInput long_message = None
  /\ status (serve long_message sample_world).1 = 201%nat
  /\ messages (tables (serve long_message sample_world).2)
     = (messages sample_tables ++ [mkMessageRow 4 1 long_content user 1000])%list.
Proof. vm_compute. repeat split. Qed.

(** C3, as the code has it. The check of the client's input,
    [isValidInput], refuses every text of more than 1000 characters; the
    API puts no bound of its own on the length: a message whose content
    is a non-blank string and whose type is allowed is stored, for a
    conversation that exists, whenever it fits the column. *)
Theorem length_bound_is_in_the_client_only :
  (forall text, (1000 < String.length text)%nat -> StringUtils.isValidInput text = false)
  /\ (forall req w id n text type,
        endpoint req = AddMessage id ->
        conversation_id id = Some n ->
        conversation_exists n (tables w) = true ->
        obj_get "content" (body req) = Some (JStr text) ->
        trim text <> EmptyString ->
        fits (trim text) content_max = true ->
        obj_get "type" (body req) = Some (JStr type) ->
        allowed_type (Some (JStr type)) = true ->
        within_limit req w ->
        faults w = [] ->
        exists response w' ty,
          serve req w = (response, w')
          /\ status response = 201%nat
          /\ enum_of_string type = Some ty
          /\ messages (tables w')
             = (messages (tables w)
                ++ [mkMessageRow (next_message_id (tables w)) n (trim text) ty (clock w)])%list).
Proof.
  split.
  - intros text H. unfold StringUtils.isValidInput.
    apply Nat.leb_gt in H. rewrite H. apply andb_false_r.
  - apply post_message_stores.
Qed.

Lemma length_bound_is_in_the_client_only_witness :
  StringUtils.isValidInput long_content = false
  /\ exists response w' ty,
       serve long_message sample_world = (response, w')
       /\ status response = 201%nat
       /\ enum_of_string "user" = Some ty
       /\ messages (tables w')
          = (messages (tables sample_world)
             ++ [mkMessageRow (next_message_id (tables sample_world)) 1
                              (trim long_content) ty (clock sample_world)])%list.
Proof.
  split.
  - apply (proj1 length_bound_is_in_the_client_only). vm_compute. lia.
  - apply (proj2 length_bound_is_in_the_client_only long_message sample_world "1" 1
                 long_content "user").
    + reflexivity.
    + reflexivity.
    + reflexivity.
    + reflexivity.
    + vm_compute. discriminate.
    + vm_compute. reflexivity.
    + reflexivity.
    + reflexivity.
    + apply within_limit_sample.
    + reflexivity.
Defined.

(** *** The envelope of the responses *)

Lemma yields_ret P r : P r = true -> yields P (mret r).
Proof. intros H w r' w' E. injection E as <- _. exact H. Qed.

Lemma yields_throw P e : yields P (throw e).
Proof. intros w r w' E. discriminate E. Qed.

Lemma yields_bind {A} P (m : DB A) (k : A -> DB Response) :
  (forall a, yields P (k a)) -> yields P (m ≫= k).
Proof.
  intros Hk w r w'. unfold mbind, SE_bind.
  destruct (m w) as [[a|e] w1]; [apply Hk|discriminate].
Qed.

(** A handler of the shape [try { ... } catch { res.status(500).json(...) }]
    always answers. *)
Lemma try_catch_answers P (body : DB Response) (fallback : Err -> Response) :
  yields P body -> (forall e, P (fallback e) = true) ->
  forall w, exists r w',
    try_catch body (fun e => mret (fallback e)) w = (Resolved r, w') /\ P r = true.
Proof.
  intros Hb Hf w. unfold try_catch.
  destruct (body w) as [[r|e] w1] eqn:E.
  - exists r, w1. split; [reflexivity|]. apply (Hb w r w1 E).
  - exists (fallback e), w1. split; [reflexivity|apply Hf].
Qed.

Ltac shape :=
  repeat lazymatch goal with
    | |- yields _ (mret _) => apply yields_ret; reflexivity
    | |- yields _ (throw _) => apply yields_throw
    | |- yields _ (_ ≫= _) => apply yields_bind; intros ?
    | |- yields _ (match ?x with _ => _ end) => destruct x
    | |- yields _ (let _ := _ in _) => cbv zeta
    end.

Lemma resource_routes_are_well_formed e req w :
  resource_route e = true ->
  exists response w',
    handler e req w = (Resolved response, w') /\ well_formed e response = true.
Proof.
  intros He.
  destruct e; try discriminate He; cbn [handler];
    try (eexists _, _; split; reflexivity);
    unfold post_conversations, get_conversations, get_conversation, put_conversation,
      delete_conversation, search_conversations, post_message, get_messages,
      get_recent_messages, get_conversation_stats, get_stats;
    apply (try_catch_answers (well_formed _) _ (fun _ => _));
    try (intros; reflexivity); shape.
Qed.

Lemma router_health_has_no_success w :
  exists response w',
    router_health w = (Resolved response, w')
    /\ present (field "success" (content response)) = false.
Proof.
  unfold router_health.
  destruct (try_catch_answers
              (fun r => negb (present (field "success" (content r))))
              (health ← healthCheck;
               timestamp ← new_Date;
               mret (mkResponse 200
                       (JObj [("status", JStr "ok");
                              ("timestamp", JDate timestamp);
                              ("database", health)])))
              (fun e => mkResponse 500
                          (JObj [("status", JStr "error"); ("error", JStr (message_of e))])))
    with (w := w) as (response & w' & Hr & Hn).
  - shape.
  - intros e. reflexivity.
  - exists response, w'. split; [exact Hr|]. apply negb_true_iff. exact Hn.
Qed.

(** C5, as the code has it. Every route for conversations, messages and
    statistics, and the catch-all of the router, always answers, and its
    answer carries the envelope; with status 200, the two paged lists
    carry [pagination] with [limit], [offset] and [count], and the search
    and the recent messages carry [count]. The health route of the router
    always answers too, without a [success] field. *)
Theorem resource_routes_answer_in_the_envelope e req w :
  exists response w',
    handler e req w = (Resolved response, w')
    /\ (resource_route e = true ->
        has_envelope response = true /\ list_metadata e response = true)
    /\ (e = RouterHealth -> present (field "success" (content response)) = false).
Proof.
  destruct (resource_route e) eqn:He.
  - destruct (resource_routes_are_well_formed e req w He) as (response & w' & Hr & Hw).
    exists response, w'. split; [exact Hr|]. split.
    + intros _. apply andb_prop in Hw. exact Hw.
    + intros ->. discriminate He.
  - destruct e; try discriminate He; cbn [handler];
      try (eexists _, _; split; [reflexivity|]; split; [discriminate|discriminate]).
    destruct (router_health_has_no_success w) as (response & w' & Hr & Hn).
    exists response, w'. split; [exact Hr|]. split; [discriminate|]. intros _. exact Hn.
Qed.

Lemma resource_routes_answer_in_the_envelope_witness :
  let list := mkRequest GET ["api"; "conversations"] [("limit", "2")] [] "203.0.113.7" in
  let health := request GET ["api"; "health"] [] in
  endpoint list = ListConversations
  /\ endpoint health = RouterHealth
  /\ (exists response w',
        handler (endpoint list) list sample_world = (Resolved response, w')
        /\ has_envelope response = true
        /\ list_metadata ListConversations response = true)
  /\ (exists response w',
        handler (endpoint health) health sample_world = (Resolved response, w')
        /\ present (field "success" (content response)) = false).
Proof.
  intros list health. split; [reflexivity|]. split; [reflexivity|]. split.
  - destruct (resource_routes_answer_in_the_envelope ListConversations list sample_world)
      as (response & w' & Hr & He & _).
    exists response, w'. split; [exact Hr|]. apply He. reflexivity.
  - destruct (resource_routes_answer_in_the_envelope RouterHealth health sample_world)
      as (response & w' & Hr & _ & Hh).
    exists response, w'. split; [exact Hr|]. apply Hh. reflexivity.
Defined.

(** C5, as stated, fails: the health route of the API answers
    [{status, timestamp, database}], without [success]; and the answer to
    a search, a list, carries [count] but neither [limit] nor [offset]. *)
Lemma health_and_search_break_the_envelope :
  let health := request GET ["api"; "health"] [] in
  let search := request GET ["api"; "conversations"; "search"; "tomato"] [] in
  endpoint health = RouterHealth
  /\ status (serve health sample_world).1 = 200%nat
  /\ field "success" (content (serve health sample_world).1) = None
  /\ endpoint search = SearchConversations "tomato"
  /\ status (serve search sample_world).1 = 200%nat
  /\ paginated (content (serve search sample_world).1) = false
  /\ field "limit" (content (serve search sample_world).1) = None
  /\ field "offset" (content (serve search sample_world).1) = None.
Proof. vm_compute. repeat split. Qed.

End ApiFacts.

Module FallbackFacts.
Import Js Eff DatabaseService DatabaseServiceTerms DatabaseServiceFacts.





Lemma createConversation_falls_back env s net title :
  falls_back s net = true ->
  createConversation env net title s
  = createLocalConversation env (default "New Conversation"%string title) s.
Proof.
  intros H. unfold createConversation, isBackendAvailable, mbind at 1, SE_bind at 1.
  destruct (isConnected s) eqn:C; [|reflexivity]. cbn [negb].
  unfold try_catch, mbind at 1, SE_bind at 1.
  destruct (fetch_ok_fails s net C H) as [e ->]. reflexivity.
Qed.

Lemma offline_falls_back s net : isConnected s = false -> falls_back s net = true.
Proof. intros H. unfold falls_back. rewrite H. reflexivity. Qed.

Lemma createLocalConversation_run env title s :
  accepts_writes s ->
  createLocalConversation env title s
  = (Resolved (ConversationReply true
                 (Local (mkLocalConversation (fresh env) title (now env) (now env) 0))),
     store (with_conversations
              (mkLocalConversation (fresh env) title (now env) (now env) 0
               :: stored_conversations s)
              (items (localStorage s))) s).
Proof.
  intros Ha.
  unfold createLocalConversation, local_conversations, getItem_conversations,
    setItem_conversations, write, mbind, SE_bind, mret, SE_ret.
  cbn. rewrite Ha. reflexivity.
Qed.

Lemma addLocalMessage_run env id content type s :
  accepts_writes s ->
  addLocalMessage env id content type s
  = (Resolved (MessageReply true
                 (Local (mkLocalMessage (fresh env) id content type (now env)))),
     bumped (now env) id
            (with_message (mkLocalMessage (fresh env) id content type (now env)) s)).
Proof.
  intros Ha.
  unfold addLocalMessage, updateLocalConversationTimestamp, local_messages,
    local_conversations, getItem_messages, getItem_conversations, setItem_messages,
    setItem_conversations, write, mbind, SE_bind, mret, SE_ret.
  cbn -[find_conversation]. rewrite Ha. cbn -[find_conversation].
  unfold bumped, with_message, stored_conversations, stored_messages.
  cbn -[find_conversation].
  match goal with
  | |- context [find_conversation id ?l] =>
      destruct (find_conversation id l) as [[i c]|]
  end; cbn; [|reflexivity].
  rewrite Ha. reflexivity.
Qed.

Lemma getLocalMessages_run id s :
  getLocalMessages id s
  = (Resolved (MessagesReply true (Local (stored_messages id s)) undefined), s).
Proof. reflexivity. Qed.

Lemma getLocalConversations_run s :
  getLocalConversations s
  = (Resolved (ConversationsReply true (Local (stored_conversations s)) undefined), s).
Proof. reflexivity. Qed.

Lemma getMessages_offline net id limit offset s :
  isConnected s = false -> getMessages net id limit offset s = getLocalMessages id s.
Proof.
  intros H. unfold getMessages, isBackendAvailable, mbind at 1, SE_bind at 1.
  rewrite H. reflexivity.
Qed.

Lemma getConversations_offline net limit offset s :
  isConnected s = false -> getConversations net limit offset s = getLocalConversations s.
Proof.
  intros H. unfold getConversations, isBackendAvailable, mbind at 1, SE_bind at 1.
  rewrite H. reflexivity.
Qed.

Lemma accepts_with_message m s : accepts_writes s -> accepts_writes (with_message m s).
Proof. intros H it. apply H. Qed.

Lemma accepts_bumped t id s : accepts_writes s -> accepts_writes (bumped t id s).
Proof.
  intros H it. unfold bumped.
  destruct (find_conversation id _) as [[i c]|]; apply H.
Qed.

Lemma connected_bumped t id s : isConnected (bumped t id s) = isConnected s.
Proof.
  unfold bumped. destruct (find_conversation id _) as [[i c]|]; reflexivity.
Qed.

Lemma stored_messages_with_message m s :
  stored_messages (msg_conversation_id m) (with_message m s)
  = stored_messages (msg_conversation_id m) s ++ [m].
Proof. unfold stored_messages at 1, with_message. cbn. rewrite lookup_insert_eq. reflexivity. Qed.

Lemma stored_messages_bumped t id id' s :
  stored_messages id' (bumped t id s) = stored_messages id' s.
Proof.
  unfold bumped. destruct (find_conversation id _) as [[i c]|]; reflexivity.
Qed.

Lemma stored_conversations_with_message m s :
  stored_conversations (with_message m s) = stored_conversations s.
Proof. reflexivity. Qed.

Lemma find_first c l :
  find_conversation (conv_id c) (c :: l) = Some (0%nat, c).
Proof. unfold find_conversation. cbn. rewrite decide_True by reflexivity. reflexivity. Qed.

(** Without the backend, and with a browser that accepts the writes: a
    conversation is created, two messages are added to it and the
    messages are read back. The list read is the two messages, in the
    order in which they were added, after whatever was already stored
    under that conversation's key; and the list of conversations starts
    with the new one, counting two messages and updated when the second
    one was added. *)
Theorem offline_conversation_keeps_its_messages
  env0 env1 env2 net0 net1 net2 net3 net4 title c1 t1 c2 t2 limit offset s :
  isConnected s = false ->
  accepts_writes s ->
  let id := fresh env0 in
  let name := default "New Conversation"%string title in
  let m1 := mkLocalMessage (fresh env1) id c1 t1 (now env1) in
  let m2 := mkLocalMessage (fresh env2) id c2 t2 (now env2) in
  exists s1 s2 s3,
    createConversation env0 net0 title s
    = (Resolved (ConversationReply true
                   (Local (mkLocalConversation id name (now env0) (now env0) 0))), s1)
    /\ addMessage env1 net1 id c1 t1 s1 = (Resolved (MessageReply true (Local m1)), s2)
    /\ addMessage env2 net2 id c2 t2 s2 = (Resolved (MessageReply true (Local m2)), s3)
    /\ getMessages net3 id limit offset s3
       = (Resolved (MessagesReply true (Local (stored_messages id s ++ [m1; m2])) undefined),
          s3)
    /\ getConversations net4 limit offset s3
       = (Resolved (ConversationsReply true
                      (Local (mkLocalConversation id name (now env0) (now env2) 2
                              :: stored_conversations s)) undefined), s3).
Proof.
  intros Hc Ha id name m1 m2.
  set (c0 := mkLocalConversation id name (now env0) (now env0) 0).
  set (s1 := store (with_conversations (c0 :: stored_conversations s)
                                       (items (localStorage s))) s).
  set (s2 := bumped (now env1) id (with_message m1 s1)).
  set (s3 := bumped (now env2) id (with_message m2 s2)).
  assert (Ha1 : accepts_writes s1) by (intros it; apply Ha).
  assert (Ha2 : accepts_writes s2) by (apply accepts_bumped, accepts_with_message, Ha1).
  assert (Hc1 : isConnected s1 = false) by exact Hc.
  assert (Hc2 : isConnected s2 = false).
  { unfold s2. rewrite connected_bumped. exact Hc1. }
  assert (Hc3 : isConnected s3 = false).
  { unfold s3. rewrite connected_bumped. exact Hc2. }
  assert (Hl2 : stored_conversations s2
                = mkLocalConversation id name (now env0) (now env1) 1 :: stored_conversations s).
  { unfold s2, bumped. rewrite stored_conversations_with_message.
    change (stored_conversations s1) with (c0 :: stored_conversations s).
    rewrite (find_first c0). reflexivity. }
  assert (Hl3 : stored_conversations s3
                = mkLocalConversation id name (now env0) (now env2) 2 :: stored_conversations s).
  { unfold s3, bumped. rewrite stored_conversations_with_message, Hl2.
    rewrite (find_first (mkLocalConversation id name (now env0) (now env1) 1)).
    reflexivity. }
  assert (Hm2 : stored_messages id s2 = stored_messages id s ++ [m1]).
  { unfold s2. rewrite stored_messages_bumped.
    apply (stored_messages_with_message m1 s1). }
  assert (Hm3 : stored_messages id s3 = stored_messages id s ++ [m1; m2]).
  { unfold s3. rewrite stored_messages_bumped.
    transitivity (stored_messages id s2 ++ [m2]).
    - apply (stored_messages_with_message m2 s2).
    - rewrite Hm2, <- app_assoc. reflexivity. }
  exists s1, s2, s3. split; [|split; [|split; [|split]]].
  - rewrite (createConversation_falls_back env0 s net0 title (offline_falls_back s net0 Hc)).
    apply (createLocalConversation_run env0 name s Ha).
  - rewrite (addMessage_falls_back env1 s1 net1 id c1 t1 (offline_falls_back s1 net1 Hc1)).
    apply (addLocalMessage_run env1 id c1 t1 s1 Ha1).
  - rewrite (addMessage_falls_back env2 s2 net2 id c2 t2 (offline_falls_back s2 net2 Hc2)).
    apply (addLocalMessage_run env2 id c2 t2 s2 Ha2).
  - rewrite (getMessages_offline net3 id limit offset s3 Hc3), getLocalMessages_run, Hm3.
    reflexivity.
  - rewrite (getConversations_offline net4 limit offset s3 Hc3), getLocalConversations_run, Hl3.
    reflexivity.
Qed.

Lemma offline_conversation_keeps_its_messages_witness :
  let s := fresh_service false (fun _ => true) in
  let m1 := mkLocalMessage 11 10 "How do I plant tomatoes?" "user" 101 in
  let m2 := mkLocalMessage 12 10 "Plant them deep." "ai" 102 in
  isConnected s = false
  /\ exists s1 s2 s3,
       createConversation (mkEnv 100 10) None None s
       = (Resolved (ConversationReply true
                      (Local (mkLocalConversation 10 "New Conversation" 100 100 0))), s1)
       /\ addMessage (mkEnv 101 11) None 10 "How do I plant tomatoes?" "user" s1
          = (Resolved (MessageReply true (Local m1)), s2)
       /\ addMessage (mkEnv 102 12) None 10 "Plant them deep." "ai" s2
          = (Resolved (MessageReply true (Local m2)), s3)
       /\ getMessages None 10 100 0 s3
          = (Resolved (MessagesReply true (Local [m1; m2]) undefined), s3)
       /\ getConversations None 50 0 s3
          = (Resolved (ConversationsReply true
                         (Local [mkLocalConversation 10 "New Conversation" 100 102 2])
                         undefined), s3).
Proof.
  intros s m1 m2. split; [reflexivity|].
  apply (offline_conversation_keeps_its_messages
           (mkEnv 100 10) (mkEnv 101 11) (mkEnv 102 12) None None None None None None
           "How do I plant tomatoes?"%string "user"%string "Plant them deep."%string
           "ai"%string 100 0 s).
  - reflexivity.
  - intros it. reflexivity.
Defined.

#[local] Instance messages_key_inj : Inj (=) (=) messages_key.
Proof.
  intros a b H. unfold messages_key in H.
  apply (inj (String.app "agrichat_messages_")) in H.
  apply (inj pretty) in H. exact H.
Qed.

Lemma deleteLocalConversation_run id s :
  accepts_writes s ->
  deleteLocalConversation id s
  = (Resolved (SuccessReply true),
     store (without_messages id
              (with_conversations
                 (List.filter (fun c => negb (conv_id c =? id)) (stored_conversations s))
                 (items (localStorage s)))) s).
Proof.
  intros Ha.
  unfold deleteLocalConversation, local_conversations, getItem_conversations,
    setItem_conversations, removeItem_messages, write, mbind, SE_bind, mret, SE_ret.
  cbn. rewrite Ha. reflexivity.
Qed.

(** In fallback mode, with a browser that accepts the write, deleting a
    conversation leaves no conversation under that id and no message
    under its key; every other conversation stays, in the same order, and
    so does every other list of messages. *)
Theorem fallback_delete_takes_the_messages_along net id s :
  falls_back s net = true ->
  accepts_writes s ->
  exists s',
    deleteConversation net id s = (Resolved (SuccessReply true), s')
    /\ stored_messages id s' = []
    /\ stored_conversations s'
       = List.filter (fun c => negb (conv_id c =? id)) (stored_conversations s)
    /\ Forall (fun c => conv_id c <> id) (stored_conversations s')
    /\ (forall id', id' <> id -> stored_messages id' s' = stored_messages id' s).
Proof.
  intros Hf Ha. eexists.
  split; [|split; [|split; [|split]]].
  - rewrite (deleteConversation_falls_back s net id Hf).
    apply (deleteLocalConversation_run id s Ha).
  - unfold stored_messages. cbn. rewrite lookup_delete_eq. reflexivity.
  - reflexivity.
  - cbn. apply Forall_forall. intros c Hc.
    apply list_elem_of_In, filter_In in Hc as [_ Hc].
    apply negb_true_iff, Z.eqb_neq in Hc. exact Hc.
  - intros id' Hne. unfold stored_messages. cbn.
    rewrite lookup_delete_ne; [reflexivity|].
    intros E. apply Hne. symmetry. apply (inj messages_key). exact E.
Qed.

Lemma fallback_delete_takes_the_messages_along_witness :
  falls_back offline_garden None = true
  /\ exists s',
       deleteConversation None 7 offline_garden = (Resolved (SuccessReply true), s')
       /\ stored_messages 7 s' = []
       /\ stored_conversations s' = [].
Proof.
  split; [reflexivity|].
  destruct (fallback_delete_takes_the_messages_along None 7 offline_garden)
    as (s' & Hd & Hm & Hc & _).
  - reflexivity.
  - intros it. reflexivity.
  - exists s'. split; [exact Hd|]. split; [exact Hm|]. rewrite Hc. reflexivity.
Defined.

Lemma prefix_refl s : String.prefix s s = true.
Proof.
  induction s as [|a s IH]; [reflexivity|].
  cbn. destruct (ascii_dec a a); [exact IH|contradiction].
Qed.

Lemma includes_refl s : includes s s = true.
Proof. destruct s; cbn [includes]; rewrite prefix_refl; reflexivity. Qed.

Lemma searchConversations_falls_back s net query limit :
  falls_back s net = true ->
  searchConversations net query limit s = searchLocalConversations query s.
Proof.
  intros H. unfold searchConversations, isBackendAvailable, mbind at 1, SE_bind at 1.
  destruct (isConnected s) eqn:C; [|reflexivity]. cbn [negb].
  unfold try_catch, mbind at 1, SE_bind at 1.
  destruct (fetch_ok_fails s net C H) as [e ->]. reflexivity.
Qed.

Lemma getConversationStats_falls_back s net id :
  falls_back s net = true ->
  getConversationStats net id s = getLocalConversationStats id s.
Proof.
  intros H. unfold getConversationStats, isBackendAvailable, mbind at 1, SE_bind at 1.
  destruct (isConnected s) eqn:C; [|reflexivity]. cbn [negb].
  unfold try_catch, mbind at 1, SE_bind at 1.
  destruct (fetch_ok_fails s net C H) as [e ->]. reflexivity.
Qed.

Lemma find_conversation_Some id l i c :
  find_conversation id l = Some (i, c) ->
  l !! i = Some c /\ conv_id c = id.
Proof.
  unfold find_conversation. intros H.
  apply list_find_Some in H as (H1 & H2 & _). split; assumption.
Qed.

(** In fallback mode, with a browser that accepts the write, renaming a
    conversation that local storage holds resolves to [{success: true}];
    the conversation stored first under that id gets the new title and
    the current instant as [updated_at], nothing else changes, and a
    fallback search for the new title then finds it. *)
Theorem fallback_rename_is_found_by_search env net net' id title limit i c s :
  falls_back s net = true ->
  accepts_writes s ->
  find_conversation id (stored_conversations s) = Some (i, c) ->
  exists s',
    updateConversationTitle env net id title s = (Resolved (SuccessReply true), s')
    /\ stored_conversations s' = <[i := rename (now env) title c]> (stored_conversations s)
    /\ agrichat_messages (items (localStorage s'))
       = agrichat_messages (items (localStorage s))
    /\ (falls_back s' net' = true ->
        exists found,
          searchConversations net' title limit s'
          = (Resolved (SearchReply true (Local found) (Local title) (Local (length found))), s')
          /\ rename (now env) title c ∈ found).
Proof.
  intros Hf Ha Hfind.
  destruct (find_conversation_Some id _ i c Hfind) as [Hi Hid].
  eexists. split; [|split; [|split]].
  - rewrite (updateConversationTitle_falls_back env s net id title Hf).
    unfold updateLocalConversationTitle, local_conversations, getItem_conversations,
      setItem_conversations, write, mbind, SE_bind, mret, SE_ret.
    cbn -[find_conversation]. fold (stored_conversations s). rewrite Hfind.
    cbn. rewrite Ha. reflexivity.
  - reflexivity.
  - reflexivity.
  - intros Hf'. eexists. split.
    + rewrite (searchConversations_falls_back _ net' title limit Hf'). reflexivity.
    + cbn. apply list_elem_of_In, filter_In. split.
      * apply list_elem_of_In. fold (stored_conversations s).
        apply list_elem_of_lookup. exists i.
        apply list_lookup_insert_eq. apply lookup_lt_Some in Hi. exact Hi.
      * cbn. apply includes_refl.
Qed.

Lemma fallback_rename_is_found_by_search_witness :
  find_conversation 7 (stored_conversations offline_garden) = Some (0%nat, garden_plan)
  /\ exists s',
       updateConversationTitle (mkEnv 200 0) None 7 "Tomato Bed" offline_garden
       = (Resolved (SuccessReply true), s')
       /\ stored_conversations s' = [mkLocalConversation 7 "Tomato Bed" 100 200 2]
       /\ exists found,
            searchConversations None "Tomato Bed" 20 s'
            = (Resolved (SearchReply true (Local found) (Local "Tomato Bed"%string)
                                     (Local (length found))), s')
            /\ mkLocalConversation 7 "Tomato Bed" 100 200 2 ∈ found.
Proof.
  split; [reflexivity|].
  destruct (fallback_rename_is_found_by_search (mkEnv 200 0) None None 7
              "Tomato Bed"%string 20 0%nat garden_plan offline_garden)
    as (s' & Hu & Hc & Hm & Hs).
  - reflexivity.
  - intros it. reflexivity.
  - reflexivity.
  - exists s'. split; [exact Hu|]. split; [rewrite Hc; reflexivity|].
    apply Hs. unfold falls_back.
    vm_compute in Hu. injection Hu as <-. reflexivity.
Defined.

(** In fallback mode, with a browser that accepts the writes, a message
    added to a conversation that local storage holds bumps the
    conversation stored first under that id: one more in [message_count],
    the current instant as [updated_at]; every other conversation of the
    list stays as it was. *)
Theorem fallback_message_bumps_its_conversation env net id content type i c s :
  falls_back s net = true ->
  accepts_writes s ->
  find_conversation id (stored_conversations s) = Some (i, c) ->
  exists s',
    addMessage env net id content type s
    = (Resolved (MessageReply true
                   (Local (mkLocalMessage (fresh env) id content type (now env)))), s')
    /\ stored_conversations s' !! i
       = Some (mkLocalConversation id (conv_title c) (conv_created_at c) (now env)
                                   (conv_message_count c + 1))
    /\ length (stored_conversations s') = length (stored_conversations s)
    /\ (forall j, j <> i -> stored_conversations s' !! j = stored_conversations s !! j).
Proof.
  intros Hf Ha Hfind.
  destruct (find_conversation_Some id _ i c Hfind) as [Hi Hid].
  eexists. split; [|split; [|split]].
  - rewrite (addMessage_falls_back env s net id content type Hf).
    apply (addLocalMessage_run env id content type s Ha).
  - unfold bumped. rewrite stored_conversations_with_message, Hfind. cbn.
    fold (stored_conversations s). rewrite list_lookup_insert_eq.
    + unfold bump. rewrite Hid. reflexivity.
    + apply lookup_lt_Some in Hi. exact Hi.
  - unfold bumped. rewrite stored_conversations_with_message, Hfind. cbn.
    fold (stored_conversations s). apply length_insert.
  - intros j Hj. unfold bumped. rewrite stored_conversations_with_message, Hfind. cbn.
    fold (stored_conversations s). apply list_lookup_insert_ne. congruence.
Qed.

Lemma fallback_message_bumps_its_conversation_witness :
  find_conversation 7 (stored_conversations offline_garden) = Some (0%nat, garden_plan)
  /\ exists s',
       addMessage (mkEnv 300 10) None 7 "Thank you" "user" offline_garden
       = (Resolved (MessageReply true (Local (mkLocalMessage 10 7 "Thank you" "user" 300))), s')
       /\ stored_conversations s' !! 0%nat
          = Some (mkLocalConversation 7 "Garden plan" 100 300 3).
Proof.
  split; [reflexivity|].
  destruct (fallback_message_bumps_its_conversation (mkEnv 300 10) None 7
              "Thank you"%string "user"%string 0%nat garden_plan offline_garden)
    as (s' & Ha & Hc & _).
  - reflexivity.
  - intros it. reflexivity.
  - reflexivity.
  - exists s'. split; [exact Ha|exact Hc].
Defined.

Lemma typed_partition (l : list LocalMessage) :
  length l
  = (length (typed "user" l) + length (typed "ai" l) + length (typed "error" l)
     + length (untyped l))%nat.
Proof.
  unfold typed, untyped. induction l as [|m l IH]; [reflexivity|].
  cbn [List.filter length].
  destruct (String.eqb (msg_type m) "user") eqn:Eu.
  - apply String.eqb_eq in Eu. rewrite Eu. cbn. lia.
  - destruct (String.eqb (msg_type m) "ai") eqn:Ea.
    + apply String.eqb_eq in Ea. rewrite Ea. cbn. lia.
    + destruct (String.eqb (msg_type m) "error") eqn:Ee; cbn; lia.
Qed.

(** The fallback statistics of a conversation count the stored messages
    of each of the three types, and their total; the total is the sum of
    the three counts and of the number of stored messages of any other
    type (the fallback stores a message whatever its type). *)
Theorem fallback_stats_split_the_total net id s :
  falls_back s net = true ->
  exists counts,
    getConversationStats net id s
    = (Resolved (StatsReply true (Local (mkLocalStats (total_messages counts) counts))), s)
    /\ total_messages counts = length (stored_messages id s)
    /\ user_messages counts = length (typed "user" (stored_messages id s))
    /\ ai_messages counts = length (typed "ai" (stored_messages id s))
    /\ error_messages counts = length (typed "error" (stored_messages id s))
    /\ total_messages counts
       = (user_messages counts + ai_messages counts + error_messages counts
          + length (untyped (stored_messages id s)))%nat.
Proof.
  intros Hf.
  exists (mkMessageCounts (length (stored_messages id s))
            (length (typed "user" (stored_messages id s)))
            (length (typed "ai" (stored_messages id s)))
            (length (typed "error" (stored_messages id s)))).
  split.
  - rewrite (getConversationStats_falls_back s net id Hf). reflexivity.
  - cbn [total_messages user_messages ai_messages error_messages].
    repeat split. apply typed_partition.
Qed.

Lemma fallback_stats_split_the_total_witness :
  falls_back offline_garden None = true
  /\ getConversationStats None 7 offline_garden
     = (Resolved (StatsReply true (Local (mkLocalStats 2 (mkMessageCounts 2 1 1 0)))),
        offline_garden).
Proof.
  split; [reflexivity|].
  destruct (fallback_stats_split_the_total None 7 offline_garden eq_refl)
    as (counts & Hs & Ht & Hu & Ha & He & _).
  rewrite Hs. destruct counts as [t u a e].
  cbn [total_messages user_messages ai_messages error_messages] in *.
  rewrite Ht, Hu, Ha, He. reflexivity.
Defined.

Lemma getConversations_falls_back s net limit offset :
  falls_back s net = true ->
  getConversations net limit offset s = getLocalConversations s.
Proof.
  intros H. unfold getConversations, isBackendAvailable, mbind at 1, SE_bind at 1.
  destruct (isConnected s) eqn:C; [|reflexivity]. cbn [negb].
  unfold try_catch, mbind at 1, SE_bind at 1.
  destruct (fetch_ok_fails s net C H) as [e ->]. reflexivity.
Qed.

Lemma getMessages_falls_back s net id limit offset :
  falls_back s net = true ->
  getMessages net id limit offset s = getLocalMessages id s.
Proof.
  intros H. unfold getMessages, isBackendAvailable, mbind at 1, SE_bind at 1.
  destruct (isConnected s) eqn:C; [|reflexivity]. cbn [negb].
  unfold try_catch, mbind at 1, SE_bind at 1.
  destruct (fetch_ok_fails s net C H) as [e ->]. reflexivity.
Qed.

(** [clearLocalData] never throws and removes the list of conversations
    and nothing else: it reads the list after having removed it, so it
    finds no conversation whose messages to remove. In fallback mode
    the list of conversations is then empty, while the messages of
    every conversation are still returned as they were stored. *)
Theorem clearLocalData_keeps_the_messages net id limit offset s :
  falls_back s net = true ->
  exists s',
    clearLocalData s = (Resolved tt, s')
    /\ getConversations net limit offset s'
       = (Resolved (ConversationsReply true (Local []) undefined), s')
    /\ getMessages net id limit offset s'
       = (Resolved (MessagesReply true (Local (stored_messages id s)) undefined), s').
Proof.
  intros Hf. eexists. split; [reflexivity|].
  set (s' := (store _ _)).
  assert (Hf' : falls_back s' net = true) by exact Hf.
  split.
  - rewrite (getConversations_falls_back s' net limit offset Hf'). reflexivity.
  - rewrite (getMessages_falls_back s' net id limit offset Hf'). reflexivity.
Qed.

Lemma clearLocalData_keeps_the_messages_witness :
  falls_back offline_garden None = true
  /\ exists s',
       clearLocalData offline_garden = (Resolved tt, s')
       /\ getConversations None 50 0 s'
          = (Resolved (ConversationsReply true (Local []) undefined), s')
       /\ getMessages None 7 100 0 s'
          = (Resolved (MessagesReply true (Local garden_messages) undefined), s').
Proof.
  split; [reflexivity|].
  destruct (clearLocalData_keeps_the_messages None 7 100 0 offline_garden eq_refl)
    as (s' & Hc & Hl & Hm).
  exists s'. split; [exact Hc|]. split; [exact Hl|]. exact Hm.
Defined.

Lemma testConnection_run probe s :
  testConnection probe s = (Resolved tt, flagged (reached probe) s).
Proof.
  unfold testConnection, try_catch, fetch, mbind, SE_bind, mret, SE_ret, throw.
  destruct probe as [[[] body]|]; reflexivity.
Qed.

Lemma isBackendAvailable_bind {A} (k : bool -> M A) s :
  (isBackendAvailable ≫= k) s = k (isConnected s) s.
Proof. reflexivity. Qed.

Lemma offline_ignores_the_network env net net' c s :
  isConnected s = false -> perform env net c s = perform env net' c s.
Proof.
  intros H. destruct c; cbn [perform];
    unfold createConversation, getConversations, getMessages, addMessage,
      updateConversationTitle, deleteConversation, searchConversations,
      getConversationStats;
    rewrite !isBackendAvailable_bind, H; reflexivity.
Qed.

(** The probe of the backend never throws and touches nothing but the
    flag; when it did not reach the backend ([fetch] rejected, or the
    response was not [ok]), every later call gives the same result
    whatever the network does: no request is made. *)
Theorem failed_probe_switches_the_network_off probe env net net' c s :
  reached probe = false ->
  exists s',
    testConnection probe s = (Resolved tt, s')
    /\ isConnected s' = false
    /\ localStorage s' = localStorage s
    /\ currentConversationId s' = currentConversationId s
    /\ perform env net c s' = perform env net' c s'.
Proof.
  intros Hp. exists (flagged false s). split; [|split; [|split; [|split]]].
  - rewrite testConnection_run, Hp. reflexivity.
  - reflexivity.
  - reflexivity.
  - reflexivity.
  - apply offline_ignores_the_network. reflexivity.
Qed.

Lemma failed_probe_switches_the_network_off_witness :
  let s := constructor {| items := no_items; allows := fun _ => true |} in
  reached (Some (mkHttpResponse false None)) = false
  /\ exists s',
       testConnection (Some (mkHttpResponse false None)) s = (Resolved tt, s')
       /\ isConnected s' = false
       /\ perform (mkEnv 1 1) (Some (mkHttpResponse true (Some (JObj [])))) (GetConversations 50 0) s'
          = perform (mkEnv 1 1) None (GetConversations 50 0) s'.
Proof.
  intros s. split; [reflexivity|].
  destruct (failed_probe_switches_the_network_off
              (Some (mkHttpResponse false None)) (mkEnv 1 1)
              (Some (mkHttpResponse true (Some (JObj [])))) None (GetConversations 50 0) s
              eq_refl) as (s' & Ht & Hc & _ & _ & Hp).
  exists s'. split; [exact Ht|]. split; [exact Hc|exact Hp].
Defined.

(** When the service is connected and the server answers [ok] with an
    object (carrying [data], in the case of a creation), every call
    resolves with [success: true] and local storage is left as it was:
    what the server stored is not mirrored in the browser. *)
Theorem server_answers_are_not_mirrored env response c s :
  isConnected s = true ->
  ok response = true ->
  carries_object response ->
  (forall title, c = CreateConversation title -> carries_data response) ->
  exists r s',
    perform env (Some response) c s = (Resolved r, s')
    /\ success r = true
    /\ localStorage s' = localStorage s
    /\ isConnected s' = true.
Proof.
  intros Hc Hok [fields Hb] Hd.
  destruct c; cbn [perform];
    unfold createConversation, getConversations, getMessages, addMessage,
      updateConversationTitle, deleteConversation, searchConversations,
      getConversationStats, fetch_ok, fetch, response_json, prop, isBackendAvailable,
      set_currentConversationId, try_catch, throw, mbind, SE_bind, mret, SE_ret;
    rewrite Hc; cbn; rewrite Hok; cbn; rewrite ?Hb; cbn;
    try (eexists _, _; repeat split; eassumption).
  destruct (Hd title eq_refl) as (fields' & d & Hb' & Hget & Hn).
  rewrite Hb in Hb'. injection Hb' as <-. rewrite Hget.
  destruct d; try contradiction; cbn; eexists _, _; repeat split; eassumption.
Qed.

Lemma server_answers_are_not_mirrored_witness :
  let answer := mkHttpResponse true
                  (Some (JObj [("success", JBool true);
                               ("data", JObj [("id", JNum 12)])]%string)) in
  carries_data answer
  /\ exists r s',
       perform (mkEnv 5 5) (Some answer) (CreateConversation None) online_full
       = (Resolved r, s')
       /\ success r = true
       /\ localStorage s' = localStorage online_full
       /\ isConnected s' = true.
Proof.
  intros answer.
  assert (Hd : carries_data answer).
  { eexists _, _. split; [reflexivity|]. split; [reflexivity|discriminate]. }
  split; [exact Hd|].
  apply (server_answers_are_not_mirrored (mkEnv 5 5) answer (CreateConversation None)
           online_full).
  - reflexivity.
  - reflexivity.
  - eexists. reflexivity.
  - intros title _. exact Hd.
Defined.

End FallbackFacts.

Module ServerFacts.
Import Js Eff Schema Database Api QueryTerms QueryFacts ApiTerms ApiFacts ServerTerms.

Local Open Scope string_scope.

(** *** What a request leaves of the world *)

Lemma query_leaves {A} (statement : option (Statement A)) w :
  (query statement w).2 = after_query (tables w) w
  \/ exists run result t,
       statement = Some run /\ run (clock w) (tables w) = Some (result, t)
       /\ (query statement w).2 = after_query t w.
Proof.
  unfold query, after_query.
  destruct (faults w) as [|[] script]; cbn; auto;
    (destruct statement as [run|]; cbn; [|auto]);
    (destruct (run (clock w) (tables w)) as [[result t]|] eqn:Er; cbn; [|auto]);
    right; exists run, result, t; auto.
Qed.

Section Respects.
Context (R : relation World) `{!PreOrder R}.

Lemma respects_ret {A} (v : A) : respects R (mret v : DB A).
Proof. intros w. reflexivity. Qed.

Lemma respects_throw {A} (e : Err) : respects R (throw e : DB A).
Proof. intros w. reflexivity. Qed.

Lemma respects_new_Date : respects R new_Date.
Proof. intros w. reflexivity. Qed.

Lemma respects_app_health : respects R app_health.
Proof. intros w. reflexivity. Qed.

Lemma respects_bind {A B} (m : DB A) (k : A -> DB B) :
  respects R m -> (forall a, respects R (k a)) -> respects R (m ≫= k).
Proof.
  intros Hm Hk w. unfold mbind, SE_bind. specialize (Hm w).
  destruct (m w) as [[v|e] w1]; cbn in *; [|exact Hm].
  etransitivity; [exact Hm|apply Hk].
Qed.

Lemma respects_try_catch {A} (body : DB A) (handler : Err -> DB A) :
  respects R body -> (forall e, respects R (handler e)) -> respects R (try_catch body handler).
Proof.
  intros Hb Hh w. unfold try_catch. specialize (Hb w).
  destruct (body w) as [[v|e] w1]; cbn in *; [exact Hb|].
  etransitivity; [exact Hb|apply Hh].
Qed.

Lemma respects_promise_all {A B} (a : DB A) (b : DB B) :
  respects R a -> respects R b -> respects R (promise_all a b).
Proof.
  intros Ha Hb w. unfold promise_all. specialize (Ha w).
  destruct (a w) as [ra w1]. specialize (Hb w1). destruct (b w1) as [rb w2].
  cbn in *. assert (R w w2) by (etransitivity; eassumption).
  destruct ra, rb; assumption.
Qed.

Lemma respects_query {A} (statement : option (Statement A)) :
  allowed R statement -> respects R (query statement).
Proof.
  intros H w. destruct (H w) as [Hsame Hrun].
  destruct (query_leaves statement w) as [E|(run & result & t & Es & Er & E)];
    rewrite E; [exact Hsame|].
  apply (Hrun run result t Es Er).
Qed.

End Respects.

Ltac obey :=
  repeat lazymatch goal with
    | |- respects _ (mret _) => apply respects_ret; apply _
    | |- respects _ (throw _) => apply respects_throw; apply _
    | |- respects _ new_Date => apply respects_new_Date; apply _
    | |- respects _ app_health => apply respects_app_health; apply _
    | |- respects _ (_ ≫= _) => apply respects_bind; try apply _; [|intros ?]
    | |- respects _ (try_catch _ _) => apply respects_try_catch; try apply _; [|intros ?]
    | |- respects _ (promise_all _ _) => apply respects_promise_all; try apply _
    | |- respects _ (query _) => apply respects_query; try apply _
    | |- respects _ (match ?x with _ => _ end) => destruct x
    | |- respects _ (let _ := _ in _) => cbv zeta
    end.

Ltac handlers :=
  unfold post_conversations, get_conversations, get_conversation, put_conversation,
    delete_conversation, search_conversations, post_message, get_messages,
    get_recent_messages, get_conversation_stats, get_stats, router_health, healthCheck,
    Conversation.create, Conversation.findById, Conversation.findAll,
    Conversation.updateTitle, Conversation.delete, Conversation.search,
    Conversation.getStats, Message.create, Message.updateConversationTimestamp,
    Message.findByConversationId, Message.getRecentMessages, Message.getStats, queryOne.

(** Whatever is [allowed] is a statement that the handlers build from
    their arguments: the cases of the arguments are taken apart. *)
Ltac statement tac :=
  lazymatch goal with
  | |- allowed _ _ =>
      intros ?w; split; [tac|];
      let run := fresh "run" in
      let result := fresh "result" in
      let t := fresh "t" in
      let Hs := fresh "Hs" in
      let Hr := fresh "Hr" in
      intros run result t Hs Hr;
      repeat match type of Hs with
             | context [match ?x with _ => _ end] => destruct x
             end;
      try discriminate Hs;
      injection Hs as <-;
      tac
  end.

#[local] Instance same_tables_preorder : PreOrder same_tables.
Proof.
  split.
  - intros w. reflexivity.
  - intros a b c Hab Hbc. unfold same_tables in *. congruence.
Qed.

#[local] Instance same_hits_preorder : PreOrder same_hits.
Proof.
  split.
  - intros w. split; reflexivity.
  - intros a b c [H1 H2] [H3 H4]. split; congruence.
Qed.

#[local] Instance keeps_consistency_preorder : PreOrder keeps_consistency.
Proof.
  split.
  - intros w H. exact H.
  - intros a b c Hab Hbc H. apply Hbc, Hab, H.
Qed.


(** *** The statements keep the promises of the schema *)

Lemma conversation_exists_spec id t :
  conversation_exists id t = true <-> id ∈ map c_id (conversations t).
Proof.
  unfold conversation_exists.
  induction (conversations t) as [|c cs IH]; cbn.
  - split; [discriminate|]. intros H. apply elem_of_nil in H. contradiction.
  - rewrite elem_of_cons, orb_true_iff, IH, Z.eqb_eq. intuition congruence.
Qed.

Lemma below_counter (rows : list ConversationRow) next x :
  Forall (fun c => c_id c < next) rows -> x ∈ map c_id rows -> x < next.
Proof.
  intros H Hx. apply list_elem_of_fmap in Hx as (c & -> & Hc).
  rewrite Forall_forall in H. apply H. exact Hc.
Qed.

Lemma below_message_counter (rows : list MessageRow) next x :
  Forall (fun m => m_id m < next) rows -> x ∈ map m_id rows -> x < next.
Proof.
  intros H Hx. apply list_elem_of_fmap in Hx as (m & -> & Hm).
  rewrite Forall_forall in H. apply H. exact Hm.
Qed.

Lemma NoDup_snoc_fresh (keys : list Z) next :
  NoDup keys -> (forall x, x ∈ keys -> x < next) -> NoDup (keys ++ [next]).
Proof.
  intros Hk Hb. apply NoDup_app. split; [exact Hk|]. split.
  - intros x Hx Hx'. apply list_elem_of_singleton in Hx'. subst x.
    specialize (Hb next Hx). lia.
  - apply NoDup_singleton.
Qed.

Lemma filter_elem_of {A} (f : A -> bool) (l : list A) x :
  x ∈ List.filter f l <-> x ∈ l /\ f x = true.
Proof. rewrite !list_elem_of_In. apply filter_In. Qed.

Lemma NoDup_map_filter {A} (key : A -> Z) (f : A -> bool) (l : list A) :
  NoDup (map key l) -> NoDup (map key (List.filter f l)).
Proof.
  induction l as [|x l IH]; cbn; [auto|].
  intros H. apply NoDup_cons in H as [Hx Hl].
  destruct (f x); cbn; [|auto].
  apply NoDup_cons. split; [|auto].
  intros Hin. apply Hx.
  apply list_elem_of_fmap in Hin as (y & Ey & Hy).
  apply filter_elem_of in Hy as [Hy _].
  rewrite Ey. apply (list_elem_of_fmap_2 key). exact Hy.
Qed.

Lemma Forall_filter_keeps {A} (P : A -> Prop) (f : A -> bool) (l : list A) :
  Forall P l -> Forall P (List.filter f l).
Proof.
  rewrite !Forall_forall. intros H x Hx. apply filter_elem_of in Hx as [Hx _]. auto.
Qed.

Lemma map_key_same (g : ConversationRow -> ConversationRow) (rows : list ConversationRow) :
  (forall c, c_id (g c) = c_id c) -> map c_id (map g rows) = map c_id rows.
Proof.
  intros H. induction rows as [|c rows IH]; cbn; [reflexivity|].
  rewrite H, IH. reflexivity.
Qed.

Lemma insert_conversation_keeps title userId now t id t' :
  insert_conversation title userId now t = Some (id, t') -> consistent t -> consistent t'.
Proof.
  unfold insert_conversation. destruct (int_column userId) as [owner|]; [|discriminate].
  destruct (_ && _) eqn:E; [|discriminate]. intros H. injection H as <- <-.
  apply andb_prop in E as [Eu Es].
  intros ((Kc & Km) & (Bc & Bm) & (Rm & Rc) & (Fc & Fm)).
  repeat split; cbn.
  - rewrite map_app. apply NoDup_snoc_fresh; [exact Kc|].
    intros x. apply below_counter. exact Bc.
  - exact Km.
  - apply Forall_app. split.
    + eapply Forall_impl; [exact Bc|]. cbn. intros c Hc. lia.
    + repeat constructor. cbn. lia.
  - exact Bm.
  - eapply Forall_impl; [exact Rm|]. cbn. intros m Hm.
    unfold conversation_exists in *. cbn [conversations].
    rewrite existsb_app, Hm. reflexivity.
  - apply Forall_app. split; [exact Rc|]. repeat constructor. cbn.
    destruct owner; [exact Eu|exact I].
  - apply Forall_app. split; [exact Fc|]. repeat constructor. cbn.
    destruct (text_column title); [exact Es|exact I].
  - exact Fm.
Qed.

Lemma insert_message_keeps conversationId content type now t id t' :
  insert_message conversationId content type now t = Some (id, t') ->
  consistent t -> consistent t'.
Proof.
  unfold insert_message. destruct (enum_of_string type) as [ty|]; [|discriminate].
  destruct (_ && _) eqn:E; [|discriminate]. intros H. injection H as <- <-.
  apply andb_prop in E as [Ec Ef].
  intros ((Kc & Km) & (Bc & Bm) & (Rm & Rc) & (Fc & Fm)).
  repeat split; cbn.
  - exact Kc.
  - rewrite map_app. apply NoDup_snoc_fresh; [exact Km|].
    intros x. apply below_message_counter. exact Bm.
  - exact Bc.
  - apply Forall_app. split.
    + eapply Forall_impl; [exact Bm|]. cbn. intros m Hm. lia.
    + repeat constructor. cbn. lia.
  - apply Forall_app. split; [exact Rm|]. repeat constructor. exact Ec.
  - exact Rc.
  - exact Fc.
  - apply Forall_app. split; [exact Fm|]. repeat constructor. exact Ef.
Qed.

Lemma rewritten_rows_keep (g : ConversationRow -> ConversationRow) t :
  (forall c, c_id (g c) = c_id c) ->
  (forall c, c_user_id (g c) = c_user_id c) ->
  (forall c, match c_title c with Some s => fits s title_max = true | None => True end ->
             match c_title (g c) with Some s => fits s title_max = true | None => True end) ->
  consistent t -> consistent (set_conversations (map g (conversations t)) t).
Proof.
  intros Hid Hu Ht ((Kc & Km) & (Bc & Bm) & (Rm & Rc) & (Fc & Fm)).
  repeat split;
    cbn [set_conversations conversations messages next_conversation_id next_message_id users].
  - rewrite map_key_same by exact Hid. exact Kc.
  - exact Km.
  - apply Forall_forall. intros c' Hc'.
    apply list_elem_of_fmap in Hc' as (c & -> & Hc). rewrite Hid.
    rewrite Forall_forall in Bc. apply Bc. exact Hc.
  - exact Bm.
  - eapply Forall_impl; [exact Rm|]. cbn beta. intros m.
    rewrite !conversation_exists_spec. cbn [set_conversations conversations].
    rewrite map_key_same by exact Hid. auto.
  - apply Forall_forall. intros c' Hc'.
    apply list_elem_of_fmap in Hc' as (c & -> & Hc). rewrite Hu.
    rewrite Forall_forall in Rc. apply (Rc c Hc).
  - apply Forall_forall. intros c' Hc'.
    apply list_elem_of_fmap in Hc' as (c & -> & Hc). apply Ht.
    rewrite Forall_forall in Fc. apply (Fc c Hc).
  - exact Fm.
Qed.

Lemma touch_conversation_keeps id now t r t' :
  touch_conversation id now t = Some (r, t') -> consistent t -> consistent t'.
Proof.
  unfold touch_conversation. intros H. injection H as _ <-.
  apply rewritten_rows_keep; intros c; destruct (c_id c =? id)%Z; auto.
Qed.

Lemma update_title_keeps title id now t r t' :
  update_title title id now t = Some (r, t') -> consistent t -> consistent t'.
Proof.
  unfold update_title. destruct (_ =? _)%nat.
  - intros H. injection H as _ <-. auto.
  - destruct (match text_column title with Some s => fits s title_max | None => true end)
      eqn:E; [|discriminate].
    intros H. injection H as _ <-.
    apply rewritten_rows_keep; intros c; destruct (c_id c =? id)%Z; cbn; auto.
    intros _. destruct (text_column title); [exact E|exact I].
Qed.

Lemma delete_conversation_keeps id now t r t' :
  Schema.delete_conversation id now t = Some (r, t') -> consistent t -> consistent t'.
Proof.
  unfold Schema.delete_conversation. intros H. injection H as _ <-.
  intros ((Kc & Km) & (Bc & Bm) & (Rm & Rc) & (Fc & Fm)).
  repeat split;
    cbn [conversations messages next_conversation_id next_message_id users].
  - apply NoDup_map_filter. exact Kc.
  - apply NoDup_map_filter. exact Km.
  - apply Forall_filter_keeps. exact Bc.
  - apply Forall_filter_keeps. exact Bm.
  - apply Forall_forall. intros m Hm. apply filter_elem_of in Hm as [Hm Hid].
    rewrite Forall_forall in Rm. specialize (Rm m Hm).
    apply conversation_exists_spec in Rm. apply conversation_exists_spec.
    cbn [conversations].
    apply list_elem_of_fmap in Rm as (c & Ec & Hc).
    rewrite Ec. apply (list_elem_of_fmap_2 c_id). apply filter_elem_of.
    split; [exact Hc|]. rewrite <- Ec. exact Hid.
  - apply Forall_filter_keeps. exact Rc.
  - apply Forall_filter_keeps. exact Fc.
  - apply Forall_filter_keeps. exact Fm.
Qed.

Lemma read_keeps {A} (f : Tables -> A) now t r t' :
  read f now t = Some (r, t') -> consistent t -> consistent t'.
Proof. unfold read. intros H. injection H as _ <-. auto. Qed.

Lemma handler_keeps_consistency e req : respects keeps_consistency (handler e req).
Proof.
  destruct e; cbn [handler]; handlers; obey;
    statement ltac:(first
      [ intros H; exact H
      | match goal with
        | H : _ = Some (_, ?t) |- keeps_consistency _ (after_query ?t _) =>
            intros Hc; cbn;
            first [ apply (read_keeps _ _ _ _ _ H Hc)
                  | apply (insert_conversation_keeps _ _ _ _ _ _ H Hc)
                  | apply (insert_message_keeps _ _ _ _ _ _ _ H Hc)
                  | apply (touch_conversation_keeps _ _ _ _ _ H Hc)
                  | apply (update_title_keeps _ _ _ _ _ _ H Hc)
                  | apply (delete_conversation_keeps _ _ _ _ _ H Hc) ]
        end ]).
Qed.

Lemma safe_endpoint req :
  safe_method (method req) = true ->
  match endpoint req with
  | CreateConversation | UpdateConversation _ | DeleteConversation _ | AddMessage _ => False
  | _ => True
  end.
Proof.
  unfold endpoint, router_endpoint.
  destruct (method req); try discriminate; intros _;
    destruct (under_api (path req)) as [[|a [|b [|c [|d rest]]]]|];
    repeat match goal with
           | |- context [if ?x then _ else _] => destruct x
           | |- context [match path req with _ => _ end] => destruct (path req) as [|? [|? ?]]
           end; exact I.
Qed.

Lemma handler_same_tables e req :
  match e with
  | CreateConversation | UpdateConversation _ | DeleteConversation _ | AddMessage _ => False
  | _ => True
  end ->
  respects same_tables (handler e req).
Proof.
  destruct e; intros He; try contradiction; cbn [handler]; handlers; obey;
    statement ltac:(first
      [ reflexivity
      | match goal with
        | H : read _ _ _ = Some _ |- _ => unfold read in H; injection H as _ <-; reflexivity
        end ]).
Qed.

Lemma serve_respects R `{!PreOrder R} req w :
  (forall w, R w (counted req w)) ->
  respects R (handler (endpoint req) req) ->
  R w (serve req w).2.
Proof.
  intros Hl Hh. unfold serve.
  destruct (under_api (path req)) as [rest|].
  - rewrite limiter_counts.
    destruct (_ <? _)%Z; cbn; [apply Hl|].
    destruct (validator (endpoint req) req); cbn; [apply Hl|].
    specialize (Hh (counted req w)).
    destruct (handler (endpoint req) req (counted req w)) as [[r|e] w2]; cbn in *;
      (etransitivity; [apply Hl|exact Hh]).
  - destruct (validator (endpoint req) req); cbn; [reflexivity|].
    specialize (Hh w).
    destruct (handler (endpoint req) req w) as [[r|e] w2]; cbn in *; exact Hh.
Qed.

Lemma consistent_sample : consistent sample_tables.
Proof.
  repeat split; cbn; repeat constructor; cbn;
    rewrite ?elem_of_cons, ?elem_of_nil; try lia; try tauto; intuition discriminate.
Qed.

(** Whatever the request and whatever the failures of the connection, a
    request leaves the tables as the schema wants them: primary keys
    unique and below the counters, every message in a conversation that
    is there, every text within its column. *)
Theorem requests_keep_the_tables_consistent req w :
  consistent (tables w) -> consistent (tables (serve req w).2).
Proof.
  apply (serve_respects keeps_consistency req w).
  - intros w' H. exact H.
  - apply handler_keeps_consistency.
Qed.

Lemma requests_keep_the_tables_consistent_witness :
  let req := request DELETE ["api"; "conversations"; "1"] [] in
  consistent (tables sample_world)
  /\ consistent (tables (serve req sample_world).2)
  /\ messages (tables (serve req sample_world).2) = [].
Proof.
  intros req. split; [apply consistent_sample|]. split.
  - apply (requests_keep_the_tables_consistent req sample_world). apply consistent_sample.
  - reflexivity.
Defined.

(** A request whose method is not [POST], [PUT] or [DELETE] never changes
    the tables, whatever its path and whatever the connection does. *)
Theorem safe_methods_leave_the_tables req w :
  safe_method (method req) = true -> tables (serve req w).2 = tables w.
Proof.
  intros Hm. apply (serve_respects same_tables req w).
  - intros w'. reflexivity.
  - apply handler_same_tables. apply safe_endpoint. exact Hm.
Qed.

Lemma safe_methods_leave_the_tables_witness :
  let req := request GET ["api"; "conversations"; "1"; "messages"] [] in
  safe_method (method req) = true
  /\ status (serve req sample_world).1 = 200%nat
  /\ tables (serve req sample_world).2 = tables sample_world.
Proof.
  intros req. split; [reflexivity|]. split; [reflexivity|].
  apply (safe_methods_leave_the_tables req sample_world). reflexivity.
Defined.

(** *** The rate limiter *)









(** *** Outside [/api] *)



(** *** The health route of the router *)

(** [GET /api/health] always answers with status 200 and [status: 'ok'],
    also when the database cannot be reached: [healthCheck] catches the
    failure and reports it in the [database] field, so the branch of the
    route that answers 500 is never taken. One query is made and the
    tables are left as they were. *)
Theorem router_health_always_answers_ok w :
  exists database,
    router_health w
    = (Resolved (mkResponse 200 (JObj [("status", JStr "ok");
                                        ("timestamp", JDate (clock w));
                                        ("database", database)])),
       after_query (tables w) w)
    /\ field "status" database
       = Some (JStr (if bool_decide (head (faults w) = Some true)
                     then "unhealthy" else "healthy")).
Proof.
  unfold router_health, healthCheck, try_catch, new_Date, mbind, SE_bind, mret, SE_ret,
    query, read, after_query.
  destruct (faults w) as [|[] script]; cbn; eexists; split; reflexivity.
Qed.

(** *** Addressing a conversation *)

Lemma calm_next n w : calm (S n) w -> next_query_runs w.
Proof.
  unfold calm, next_query_runs. destruct (faults w) as [|[] script]; cbn; try discriminate.
  intros H. apply Forall_cons in H as [H _]. discriminate H.
Qed.

Lemma calm_after n t w : calm (S n) w -> calm n (after_query t w).
Proof.
  unfold calm, after_query. cbn. destruct (faults w) as [|fault script]; cbn.
  - intros _. rewrite take_nil. constructor.
  - intros H. apply Forall_cons in H as [_ H]. exact H.
Qed.

Lemma calm_of_no_faults n w : faults w = [] -> calm n w.
Proof. unfold calm. intros ->. rewrite take_nil. constructor. Qed.

Lemma no_such_rows n t :
  conversation_exists n t = false ->
  List.filter (fun c => c_id c =? n)%Z (conversations t) = [].
Proof.
  unfold conversation_exists. induction (conversations t) as [|c cs IH]; cbn; [reflexivity|].
  destruct (c_id c =? n)%Z; cbn; [discriminate|exact IH].
Qed.



Lemma no_messages_of n t :
  consistent t -> conversation_exists n t = false -> messages_of n t = [].
Proof.
  intros (_ & _ & (Rm & _) & _) Hn. unfold messages_of.
  induction Rm as [|m ms Hm Hms IH]; cbn; [reflexivity|].
  destruct (Z.eqb_spec (m_conversation_id m) n) as [E|E]; cbn.
  - rewrite E, Hn in Hm. discriminate Hm.
  - exact IH.
Qed.

Lemma findById_runs n w :
  next_query_runs w ->
  Conversation.findById n w
  = (Resolved (head (select_conversation n (tables w))), after_query (tables w) w).
Proof.
  intros Hq. unfold Conversation.findById, queryOne, mbind, SE_bind.
  rewrite (query_runs (read (select_conversation n)) w _ (tables w) Hq eq_refl).
  reflexivity.
Qed.






(** *** Identifiers in the path *)

Lemma digit_of_char (d : N) :
  (d < 10)%N ->
  digit_value (pretty_N_char d) = Some (Z.of_N d)
  /\ is_space (pretty_N_char d) = false
  /\ pretty_N_char d <> "-"%char
  /\ pretty_N_char d <> "+"%char
  /\ (d <> 0%N -> pretty_N_char d <> "0"%char).
Proof.
  intros H.
  assert (d = 0 \/ d = 1 \/ d = 2 \/ d = 3 \/ d = 4 \/ d = 5 \/ d = 6 \/ d = 7 \/ d = 8
          \/ d = 9)%N as Hd by lia.
  repeat (destruct Hd as [->|Hd]); try subst d;
    (split; [reflexivity|]); (split; [reflexivity|]); (split; [discriminate|]);
    (split; [discriminate|]); intros Hz; try discriminate; contradiction.
Qed.

Lemma parse_printed (x : N) :
  (0 < x)%N ->
  exists p, forall s acc,
    parse_digits 10 (pretty_N_go x s) acc
    = parse_digits 10 s (Some (default 0 acc * p + Z.of_N x)).
Proof.
  induction (N.lt_wf_0 x) as [x _ IH]. intros Hx.
  assert (Hmod : (x `mod` 10 < 10)%N) by (apply N.mod_lt; lia).
  destruct (digit_of_char _ Hmod) as (Hd & _).
  assert (Hstep : forall s acc,
             parse_digits 10 (String (pretty_N_char (x `mod` 10)) s) acc
             = parse_digits 10 s (Some (default 0 acc * 10 + Z.of_N (x `mod` 10)))).
  { intros s acc. cbn [parse_digits]. rewrite Hd.
    destruct (Z.ltb_spec (Z.of_N (x `mod` 10)) 10) as [_|Hge]; [reflexivity|lia]. }
  destruct (N.eq_dec (x `div` 10)%N 0%N) as [Hz|Hnz].
  - exists 10. intros s acc.
    rewrite pretty_N_go_step by exact Hx. rewrite Hz, pretty_N_go_0, Hstep.
    assert (x `mod` 10 = x)%N as ->; [|reflexivity].
    pose proof (N.Div0.div_mod x 10%N) as E.
    rewrite Hz, N.mul_0_r, N.add_0_l in E. symmetry. exact E.
  - destruct (IH (x `div` 10)%N) as [p Hp].
    + apply N.div_lt; lia.
    + apply N.neq_0_lt_0. exact Hnz.
    + exists (p * 10). intros s acc.
      rewrite pretty_N_go_step by exact Hx. rewrite Hp, Hstep. cbn [default id].
      f_equal. f_equal. rewrite (N.Div0.div_mod x 10%N) at 3.
      rewrite N2Z.inj_add, N2Z.inj_mul. change (Z.of_N 10) with 10. lia.
Qed.

Lemma printed_head (x : N) s :
  (0 < x)%N ->
  exists d rest,
    pretty_N_go x s = String (pretty_N_char d) rest /\ (0 < d < 10)%N.
Proof.
  revert s. induction (N.lt_wf_0 x) as [x _ IH]. intros s Hx.
  rewrite pretty_N_go_step by exact Hx.
  destruct (N.eq_dec (x `div` 10)%N 0%N) as [Hz|Hnz].
  - rewrite Hz, pretty_N_go_0. exists (x `mod` 10)%N, s. split; [reflexivity|].
    pose proof (N.Div0.div_mod x 10%N) as E. rewrite Hz, N.mul_0_r, N.add_0_l in E.
    rewrite <- E. split; [exact Hx|]. rewrite E. apply N.mod_lt. discriminate.
  - apply IH; [apply N.div_lt; lia|apply N.neq_0_lt_0; exact Hnz].
Qed.

Lemma parseInt_digits (x : positive) :
  exists c rest,
    pretty (N.pos x) = String c rest
    /\ is_space c = false /\ c <> "-"%char /\ c <> "+"%char
    /\ parseInt (String c rest) = Some (Z.pos x)
    /\ parseInt (String "-"%char (String c rest)) = Some (Z.neg x).
Proof.
  assert (Hx : (0 < N.pos x)%N) by lia.
  destruct (printed_head (N.pos x) EmptyString Hx) as (d & rest & Hp & Hd).
  destruct (digit_of_char d) as (_ & Hs & Hm & Hplus & Hz); [lia|].
  specialize (Hz ltac:(lia)).
  destruct (parse_printed (N.pos x) Hx) as [p Hparse].
  specialize (Hparse EmptyString None). rewrite Hp in Hparse.
  change (parse_digits 10 (String (pretty_N_char d) rest) None = Some (Z.pos x)) in Hparse.
  exists (pretty_N_char d), rest.
  assert (Hpretty : pretty (N.pos x) = String (pretty_N_char d) rest).
  { unfold pretty, pretty_N. destruct (decide (N.pos x = 0%N)); [discriminate|exact Hp]. }
  split; [exact Hpretty|]. split; [exact Hs|]. split; [exact Hm|]. split; [exact Hplus|].
  split.
  - unfold parseInt. cbn [trimStart]. rewrite Hs.
    rewrite (bool_decide_eq_false_2 _ Hm), (bool_decide_eq_false_2 _ Hplus).
    rewrite (bool_decide_eq_false_2 _ Hz).
    destruct rest; cbn [andb]; rewrite Hparse; reflexivity.
  - unfold parseInt. cbn [trimStart]. change (is_space "-"%char) with false. cbv iota.
    rewrite (bool_decide_eq_true_2 ("-"%char = "-"%char)) by reflexivity.
    rewrite (bool_decide_eq_false_2 _ Hz).
    destruct rest; cbn [andb]; rewrite Hparse; reflexivity.
Qed.

Lemma conversation_id_printed (n : Z) :
  conversation_id (pretty n) = Some n /\ pretty n <> EmptyString.
Proof.
  destruct n as [|x|x].
  - split; [reflexivity|discriminate].
  - destruct (parseInt_digits x) as (c & rest & Hp & _ & _ & _ & Hparse & _).
    change (pretty (Z.pos x)) with (pretty (N.pos x)). rewrite Hp.
    split; [|discriminate]. unfold conversation_id. exact Hparse.
  - destruct (parseInt_digits x) as (c & rest & Hp & _ & _ & _ & _ & Hparse).
    change (pretty (Z.neg x)) with (String "-"%char (pretty (N.pos x))). rewrite Hp.
    split; [|discriminate]. unfold conversation_id. exact Hparse.
Qed.


(** *** Round trips *)




(** A conversation created through the API is served by
    [GET /conversations/:id] under the identifier that the creation
    returned: with the title of the request (the default title when the
    request has none), no owner, no message, and the instant of the
    creation as its two dates. *)
Theorem created_conversation_is_found req given w :
  consistent (tables w) ->
  calm 2 w ->
  obj_get "title" (body req) = JStr <$> given ->
  truthy (obj_get "user_id" (body req)) = false ->
  fits (default "New Conversation" given) title_max = true ->
  let id := next_conversation_id (tables w) in
  let title := default "New Conversation" given in
  exists w1 w2,
    post_conversations req w
    = (Resolved (mkResponse 201
                   (JObj [("success", JBool true);
                          ("data", JObj [("id", JNum id);
                                         ("title", JStr title);
                                         ("user_id", JNull);
                                         ("created_at", JDate (clock w));
                                         ("updated_at", JDate (clock w))])])), w1)
    /\ get_conversation (pretty id) w1
       = (Resolved (mkResponse 200
                      (JObj [("success", JBool true);
                             ("data", JObj [("id", JNum id);
                                            ("user_id", JNull);
                                            ("title", JStr title);
                                            ("created_at", JDate (clock w));
                                            ("updated_at", JDate (clock w));
                                            ("message_count", JNum 0);
                                            ("last_message_time", JNull)])])), w2)
    /\ conversations (tables w1)
       = (conversations (tables w)
          ++ [mkConversationRow id None (Some title) (clock w) (clock w)])%list.
Proof.
  intros Hc Hq Ht Hu Hfit id title.
  pose proof (calm_next _ _ Hq) as Hq1.
  set (t1 := {| users := users (tables w);
                conversations := (conversations (tables w)
                                  ++ [mkConversationRow id None (Some title)
                                                        (clock w) (clock w)])%list;
                messages := messages (tables w);
                next_conversation_id := id + 1;
                next_message_id := next_message_id (tables w) |}).
  assert (Hins : insert_conversation (PText title) PNull (clock w) (tables w) = Some (id, t1)).
  { unfold insert_conversation. cbn. fold title in Hfit. rewrite Hfit. reflexivity. }
  exists (after_query t1 w), (after_query t1 (after_query t1 w)).
  split; [|split].
  - unfold post_conversations, try_catch, Conversation.create, new_Date, mbind, SE_bind,
      mret, SE_ret.
    rewrite Ht, Hu. unfold title in *.
    destruct given as [text|]; cbn -[query insert_conversation after_query];
      (erewrite query_runs; [|exact Hq1|exact Hins]); reflexivity.
  - unfold get_conversation, try_catch, mbind, SE_bind.
    rewrite (proj1 (conversation_id_printed id)).
    rewrite findById_runs by (apply (calm_next 0); apply calm_after; exact Hq).
    cbn [tables after_query]. unfold select_conversation. cbn [conversations t1].
    rewrite List.filter_app. cbn [List.filter c_id]. rewrite Z.eqb_refl.
    pose proof Hc as ((Kc & _) & (Bc & _) & (Rm & _) & _).
    assert (Hnone : conversation_exists id (tables w) = false).
    { destruct (conversation_exists id (tables w)) eqn:E; [|reflexivity].
      apply conversation_exists_spec in E.
      pose proof (below_counter _ _ _ Bc E). unfold id in *. lia. }
    rewrite (no_such_rows id _ Hnone). cbn [app map head].
    unfold summarize. cbn [c_id].
    change (messages_of id t1) with (messages_of id (tables w)).
    rewrite (no_messages_of id _ Hc Hnone). reflexivity.
  - reflexivity.
Qed.

Lemma created_conversation_is_found_witness :
  let req := request POST ["api"; "conversations"] [("title", JStr "Maize rust")] in
  exists w1 w2,
    post_conversations req sample_world
    = (Resolved (mkResponse 201
                   (JObj [("success", JBool true);
                          ("data", JObj [("id", JNum 2);
                                         ("title", JStr "Maize rust");
                                         ("user_id", JNull);
                                         ("created_at", JDate 1000);
                                         ("updated_at", JDate 1000)])])), w1)
    /\ get_conversation "2" w1
       = (Resolved (mkResponse 200
                      (JObj [("success", JBool true);
                             ("data", JObj [("id", JNum 2);
                                            ("user_id", JNull);
                                            ("title", JStr "Maize rust");
                                            ("created_at", JDate 1000);
                                            ("updated_at", JDate 1000);
                                            ("message_count", JNum 0);
                                            ("last_message_time", JNull)])])), w2).
Proof.
  intros req.
  destruct (created_conversation_is_found req (Some "Maize rust") sample_world)
    as (w1 & w2 & H1 & H2 & _).
  - apply consistent_sample.
  - apply calm_of_no_faults. reflexivity.
  - reflexivity.
  - reflexivity.
  - reflexivity.
  - exists w1, w2. split; [exact H1|exact H2].
Defined.

Lemma filter_twice {A} (p q : A -> bool) (l : list A) :
  (forall x, p x = true -> q x = true) ->
  List.filter p (List.filter q l) = List.filter p l.
Proof.
  intros H. induction l as [|x l IH]; cbn; [reflexivity|].
  destruct (q x) eqn:Eq; cbn.
  - rewrite IH. reflexivity.
  - destruct (p x) eqn:Ep; [|exact IH]. rewrite (H x Ep) in Eq. discriminate Eq.
Qed.

Lemma filter_none {A} (p q : A -> bool) (l : list A) :
  (forall x, p x = true -> q x = false) ->
  List.filter p (List.filter q l) = [].
Proof.
  intros H. induction l as [|x l IH]; cbn; [reflexivity|].
  destruct (q x) eqn:Eq; cbn; [|exact IH].
  destruct (p x) eqn:Ep; [|exact IH]. rewrite (H x Ep) in Eq. discriminate Eq.
Qed.

Lemma affected_rows n t :
  (0 <? length (List.filter (fun c => c_id c =? n)%Z (conversations t)))%nat
  = conversation_exists n t.
Proof.
  unfold conversation_exists. induction (conversations t) as [|c cs IH]; cbn; [reflexivity|].
  destruct (c_id c =? n)%Z; cbn; [reflexivity|exact IH].
Qed.

(** The deletion of a conversation through the API, while the connection
    holds: the answer is 200 when the conversation was there and 404
    otherwise; afterwards the conversation is gone and so are all its
    messages (the cascade of the foreign key), while every other
    conversation is found as before, with the same messages. *)
Theorem deletion_takes_the_messages_along id n w :
  conversation_id id = Some n ->
  next_query_runs w ->
  exists w',
    Api.delete_conversation id w
    = (Resolved (if conversation_exists n (tables w)
                 then mkResponse 200
                        (JObj [("success", JBool true);
                               ("message", JStr "Conversation deleted successfully")])
                 else not_found), w')
    /\ conversation_exists n (tables w') = false
    /\ messages_of n (tables w') = []
    /\ (forall k, k <> n ->
                  select_conversation k (tables w') = select_conversation k (tables w)
                  /\ messages_of k (tables w') = messages_of k (tables w)).
Proof.
  intros Hid Hq.
  set (t' := {| users := users (tables w);
                conversations := List.filter (fun c => negb (c_id c =? n)%Z)
                                             (conversations (tables w));
                messages := List.filter (fun m => negb (m_conversation_id m =? n)%Z)
                                        (messages (tables w));
                next_conversation_id := next_conversation_id (tables w);
                next_message_id := next_message_id (tables w) |}).
  assert (Hmk : forall k, k <> n -> messages_of k t' = messages_of k (tables w)).
  { intros k Hk. unfold messages_of. cbn [messages t']. apply filter_twice.
    intros m Hm. apply Z.eqb_eq in Hm. apply negb_true_iff, Z.eqb_neq. lia. }
  exists (after_query t' w). split; [|split; [|split]].
  - unfold Api.delete_conversation, try_catch, Conversation.delete, mbind, SE_bind.
    rewrite Hid.
    rewrite (query_runs (Schema.delete_conversation n) w _ t' Hq eq_refl).
    rewrite affected_rows. destruct (conversation_exists n (tables w)); reflexivity.
  - cbn [tables after_query]. unfold conversation_exists. cbn [conversations t'].
    destruct (existsb _ _) eqn:E; [|reflexivity].
    apply existsb_exists in E as (c & Hc & E). apply filter_In in Hc as [_ Hc].
    rewrite E in Hc. discriminate Hc.
  - cbn [tables after_query]. unfold messages_of. cbn [messages t']. apply filter_none.
    intros m Hm. rewrite Hm. reflexivity.
  - intros k Hk. cbn [tables after_query]. split; [|apply (Hmk k Hk)].
    unfold select_conversation. cbn [conversations t'].
    rewrite filter_twice.
    + apply map_ext_in. intros c Hc. apply filter_In in Hc as [_ Hc].
      apply Z.eqb_eq in Hc. f_equal. apply Hmk. lia.
    + intros c Hc. apply Z.eqb_eq in Hc. apply negb_true_iff, Z.eqb_neq. lia.
Qed.

Lemma deletion_takes_the_messages_along_witness :
  exists w',
    Api.delete_conversation "1" sample_world
    = (Resolved (mkResponse 200
                   (JObj [("success", JBool true);
                          ("message", JStr "Conversation deleted successfully")])), w')
    /\ messages (tables w') = []
    /\ messages_of 1 (tables w') = [].
Proof.
  destruct (deletion_takes_the_messages_along "1" 1 sample_world) as (w' & Hd & _ & Hm & _).
  - reflexivity.
  - discriminate.
  - exists w'. split; [exact Hd|]. split; [|exact Hm].
    vm_compute in Hd. injection Hd as <-. reflexivity.
Defined.



(** *** Statistics *)

Lemma of_type_partition (ms : list MessageRow) :
  length ms
  = (length (Conversation.of_type user ms) + length (Conversation.of_type ai ms)
     + length (Conversation.of_type error ms))%nat.
Proof.
  unfold Conversation.of_type. induction ms as [|m ms IH]; [reflexivity|].
  cbn [List.filter length].
  destruct (m_type m); cbn [type_name] in *;
    repeat first [ rewrite bool_decide_eq_true_2 by reflexivity
                 | rewrite bool_decide_eq_false_2 by discriminate ];
    cbn iota; cbn [length]; lia.
Qed.

(** The statistics of the messages, while the connection holds: the total
    is the sum of the counts of the three types, since the column admits
    no other type. The messages counted are those of the conversation
    asked for; all the messages when none is asked for, and also when the
    conversation asked for is number 0, which the test [if
    (conversationId)] takes for none. *)
Theorem message_statistics_add_up conversationId w :
  next_query_runs w ->
  exists st,
    Message.getStats conversationId w = (Resolved (Some st), after_query (tables w) w)
    /\ Message.total_messages st
       = (Message.user_messages st + Message.ai_messages st + Message.error_messages st)%nat
    /\ Message.total_messages st
       = length match conversationId with
                | Some id => if (id =? 0)%Z then messages (tables w)
                             else messages_of id (tables w)
                | None => messages (tables w)
                end.
Proof.
  intros Hq. eexists. split; [|split].
  - unfold Message.getStats, queryOne, mbind, SE_bind.
    erewrite query_runs; [|exact Hq|reflexivity]. reflexivity.
  - cbn. apply of_type_partition.
  - cbn. destruct conversationId as [id|]; [|reflexivity].
    destruct (id =? 0)%Z; reflexivity.
Qed.

Lemma message_statistics_add_up_witness :
  next_query_runs sample_world
  /\ exists st,
       Message.getStats (Some 0) sample_world
       = (Resolved (Some st), after_query sample_tables sample_world)
       /\ Message.total_messages st = 3%nat
       /\ Message.user_messages st = 1%nat
       /\ Message.ai_messages st = 2%nat.
Proof.
  assert (Hq : next_query_runs sample_world) by discriminate.
  split; [exact Hq|].
  destruct (message_statistics_add_up (Some 0) sample_world Hq) as (st & Hs & _ & _).
  exists st. split; [exact Hs|].
  vm_compute in Hs. injection Hs as <-. repeat split.
Defined.

Lemma nobody_owns (n : Z) (rows : list ConversationRow) :
  Forall (fun c => c_user_id c <> Some n) rows ->
  List.filter (owned_by (Some (PInt n))) rows = [].
Proof.
  induction 1 as [|c rows Hc Hrows IH]; cbn; [reflexivity|].
  destruct (c_user_id c) as [u|]; cbn; [|exact IH].
  destruct (Z.eqb_spec u n) as [->|E]; [contradiction|exact IH].
Qed.

(** The statistics of one conversation, [GET /conversations/:id/stats]:
    the route passes the number of the conversation to
    [Conversation.getStats], whose argument is the owner to filter by.
    So when no conversation is owned by a user of that number, the
    [conversation] block counts no conversation and no message, although
    the conversation is there; the [messages] block does count the
    messages of the conversation. *)
Theorem conversation_statistics_filter_by_owner id n w :
  conversation_id id = Some n ->
  n <> 0 ->
  conversation_exists n (tables w) = true ->
  Forall (fun c => c_user_id c <> Some n) (conversations (tables w)) ->
  calm 3 w ->
  exists w' messages_block,
    get_conversation_stats id w
    = (Resolved (mkResponse 200
         (JObj [("success", JBool true);
                ("data",
                 JObj [("conversation",
                        JObj [("total_conversations", JNum 0);
                              ("total_messages", JNum 0);
                              ("user_messages", JNum 0);
                              ("ai_messages", JNum 0);
                              ("avg_user_message_length", JNull);
                              ("avg_ai_message_length", JNull)]);
                       ("messages", messages_block)])])), w')
    /\ field "total_messages" messages_block
       = Some (JNum (Z.of_nat (length (messages_of n (tables w))))).
Proof.
  intros Hid Hn Hex Hown Hq.
  pose proof (calm_next _ _ Hq) as Hq1.
  pose proof (calm_after _ (tables w) _ Hq) as Hq'.
  pose proof (calm_next _ _ Hq') as Hq2.
  pose proof (calm_next _ _ (calm_after _ (tables w) _ Hq')) as Hq3.
  destruct (conversation_found n (tables w) Hex) as [c Hc].
  unfold get_conversation_stats, try_catch, mbind, SE_bind. rewrite Hid.
  rewrite (findById_runs n w Hq1), Hc.
  unfold promise_all, Conversation.getStats, Message.getStats, queryOne, mbind, SE_bind,
    mret, SE_ret.
  cbn [Conversation.user_filter bind fmap option_fmap option_map].
  erewrite query_runs; [|exact Hq2|reflexivity]. cbv beta iota.
  erewrite query_runs; [|exact Hq3|reflexivity]. cbv beta iota.
  apply Z.eqb_neq in Hn. rewrite Hn.
  cbn [head mret SE_ret fst snd].
  unfold Conversation.conversation_stats. cbn [tables after_query].
  rewrite (nobody_owns n _ Hown).
  eexists _, _. split; reflexivity.
Qed.

Lemma conversation_statistics_filter_by_owner_witness :
  exists w' messages_block,
    get_conversation_stats "1" sample_world
    = (Resolved (mkResponse 200
         (JObj [("success", JBool true);
                ("data",
                 JObj [("conversation",
                        JObj [("total_conversations", JNum 0);
                              ("total_messages", JNum 0);
                              ("user_messages", JNum 0);
                              ("ai_messages", JNum 0);
                              ("avg_user_message_length", JNull);
                              ("avg_ai_message_length", JNull)]);
                       ("messages", messages_block)])])), w')
    /\ field "total_messages" messages_block = Some (JNum 3).
Proof.
  apply (conversation_statistics_filter_by_owner "1" 1 sample_world).
  - reflexivity.
  - discriminate.
  - reflexivity.
  - repeat constructor. discriminate.
  - apply calm_of_no_faults. reflexivity.
Defined.

(** *** Pages *)

Lemma take_sum {A} (n m : nat) (l : list A) :
  take (n + m) l = (take n l ++ take m (drop n l))%list.
Proof.
  revert l. induction n as [|n IH]; intros l; [reflexivity|].
  destruct l as [|x l]; cbn; [rewrite take_nil; reflexivity|].
  rewrite IH. reflexivity.
Qed.

#[local] Instance earlier_is_transitive : Transitive earlier.
Proof. intros a b c. unfold earlier. lia. Qed.

#[local] Instance earlier_is_total : Total earlier.
Proof. intros a b. unfold earlier. lia. Qed.

Lemma strictly_sorted (l : list MessageRow) :
  StronglySorted earlier l -> NoDup (m_timestamp <$> l) ->
  StronglySorted strictly_earlier l.
Proof.
  induction 1 as [|x l Hl IH Hx]; intros Hd; constructor.
  - apply IH. apply NoDup_cons in Hd as [_ Hd]. exact Hd.
  - apply NoDup_cons in Hd as [Hn _].
    rewrite Forall_forall in *. intros y Hy. specialize (Hx y Hy).
    unfold earlier in Hx. unfold strictly_earlier.
    assert (m_timestamp x <> m_timestamp y); [|lia].
    intros E. apply Hn. rewrite E. apply (list_elem_of_fmap_2 m_timestamp). exact Hy.
Qed.

(** The pages of the messages of a conversation tile the list, when no
    two of its messages carry the same timestamp (the order of rows of
    equal timestamp is not fixed by the statement): the page of [limit]
    messages from [offset] followed by the page of [limit'] messages
    from [offset + limit] is the page of [limit + limit'] messages from
    [offset], in strictly ascending order of timestamp. No message is
    skipped or repeated between one page and the next, as long as the
    tables do not change. *)
Theorem pages_tile_the_messages conversationId limit limit' offset w :
  next_query_runs w ->
  NoDup (m_timestamp <$> messages_of conversationId (tables w)) ->
  exists first second,
    Message.findByConversationId conversationId
      (Some (Z.of_nat limit)) (Some (Z.of_nat offset)) w
    = (Resolved first, after_query (tables w) w)
    /\ Message.findByConversationId conversationId
         (Some (Z.of_nat limit')) (Some (Z.of_nat (offset + limit))) w
       = (Resolved second, after_query (tables w) w)
    /\ Message.findByConversationId conversationId
         (Some (Z.of_nat (limit + limit'))) (Some (Z.of_nat offset)) w
       = (Resolved (first ++ second)%list, after_query (tables w) w)
    /\ StronglySorted strictly_earlier (first ++ second)%list.
Proof.
  intros Hq Hd. unfold Message.findByConversationId. rewrite !row_count_of_nat.
  set (sorted := merge_sort earlier (messages_of conversationId (tables w))).
  exists (take limit (drop offset sorted)), (take limit' (drop (offset + limit) sorted)).
  assert (Hpage : (take limit (drop offset sorted)
                   ++ take limit' (drop (offset + limit) sorted))%list
                  = take (limit + limit') (drop offset sorted)).
  { rewrite take_sum, drop_drop. reflexivity. }
  split; [|split; [|split]].
  - erewrite query_runs; [|exact Hq|reflexivity]. reflexivity.
  - erewrite query_runs; [|exact Hq|reflexivity]. reflexivity.
  - erewrite query_runs; [|exact Hq|reflexivity]. rewrite Hpage. reflexivity.
  - rewrite Hpage. apply strictly_sorted.
    + apply StronglySorted_take, StronglySorted_drop.
      apply StronglySorted_merge_sort; apply _.
    + assert (Hs : NoDup (m_timestamp <$> sorted))
        by (unfold sorted; rewrite merge_sort_Permutation; exact Hd).
      eapply sublist_NoDup; [exact Hs|].
      apply fmap_sublist. etransitivity; [apply sublist_take|apply sublist_drop].
Qed.

Lemma pages_tile_the_messages_witness :
  let w := quiet_world diary 50 [] in
  next_query_runs w
  /\ Message.findByConversationId 1 (Some 2) (Some 0) w
     = (Resolved [mkMessageRow 1 1 "first" user 30; mkMessageRow 4 1 "second" ai 35],
        after_query diary w)
  /\ Message.findByConversationId 1 (Some 2) (Some 2) w
     = (Resolved [mkMessageRow 3 1 "third" ai 40], after_query diary w).
Proof.
  intros w. assert (Hq : next_query_runs w) by discriminate.
  split; [exact Hq|].
  destruct (pages_tile_the_messages 1 2 2 0 w Hq) as (first & second & H1 & H2 & _).
  - cbn. repeat constructor; rewrite ?elem_of_cons, ?elem_of_nil; intuition discriminate.
  - split; reflexivity.
Defined.

(** *** The messages of one conversation *)

Lemma query_calm {A} (run : Statement A) n w result t :
  calm (S n) w ->
  run (clock w) (tables w) = Some (result, t) ->
  query (Some run) w = (Resolved result, after_query t w) /\ calm n (after_query t w).
Proof.
  intros Hq Hr. split.
  - apply query_runs; [apply (calm_next n); exact Hq|exact Hr].
  - apply calm_after. exact Hq.
Qed.

(** [Message.deleteByConversationId] empties a conversation and returns
    the number of messages that [Message.getCount] counted before; the
    count is then 0. Unlike the deletion of the conversation, it leaves
    the conversations as they were, and the messages of the other
    conversations too. *)
Theorem emptied_conversation_stays conversationId w :
  calm 3 w ->
  exists n w1 w2 w3,
    Message.getCount conversationId w = (Resolved n, w1)
    /\ Message.deleteByConversationId conversationId w1 = (Resolved n, w2)
    /\ Message.getCount conversationId w2 = (Resolved 0%nat, w3)
    /\ n = length (messages_of conversationId (tables w))
    /\ conversations (tables w3) = conversations (tables w)
    /\ (forall k, k <> conversationId ->
                  messages_of k (tables w3) = messages_of k (tables w)).
Proof.
  intros Hq.
  set (t := tables w).
  set (t' := Message.set_messages
               (List.filter (fun m => negb (m_conversation_id m =? conversationId)%Z)
                            (messages t)) t).
  assert (Hnone : messages_of conversationId t' = []).
  { unfold messages_of. cbn [messages t' Message.set_messages]. apply filter_none.
    intros m Hm. rewrite Hm. reflexivity. }
  destruct (query_calm (read (Message.count_messages conversationId)) 2 w _ t Hq eq_refl)
    as [Q1 Hq1].
  destruct (query_calm (Message.delete_messages conversationId) 1 (after_query t w)
              (length (messages_of conversationId t)) t' Hq1 eq_refl) as [Q2 Hq2].
  destruct (query_calm (read (Message.count_messages conversationId)) 0
              (after_query t' (after_query t w)) _ t' Hq2 eq_refl) as [Q3 _].
  exists (length (messages_of conversationId t)), (after_query t w),
    (after_query t' (after_query t w)), (after_query t' (after_query t' (after_query t w))).
  split; [|split; [|split; [|split; [|split]]]].
  - unfold Message.getCount, queryOne, mbind, SE_bind. rewrite Q1. reflexivity.
  - unfold Message.deleteByConversationId. exact Q2.
  - unfold Message.getCount, queryOne, mbind, SE_bind. rewrite Q3.
    cbn [mret SE_ret head Message.count_messages tables after_query].
    rewrite Hnone. reflexivity.
  - reflexivity.
  - reflexivity.
  - intros k Hk. cbn [tables after_query]. unfold messages_of.
    cbn [messages t' Message.set_messages]. apply filter_twice.
    intros m Hm. apply Z.eqb_eq in Hm. apply negb_true_iff, Z.eqb_neq. lia.
Qed.

Lemma emptied_conversation_stays_witness :
  let w := quiet_world diary 50 [] in
  exists w1 w2 w3,
    Message.getCount 1 w = (Resolved 3%nat, w1)
    /\ Message.deleteByConversationId 1 w1 = (Resolved 3%nat, w2)
    /\ Message.getCount 1 w2 = (Resolved 0%nat, w3)
    /\ messages (tables w3) = [mkMessageRow 2 2 "other" user 25].
Proof.
  intros w.
  destruct (emptied_conversation_stays 1 w) as (n & w1 & w2 & w3 & H1 & H2 & H3 & Hn & _).
  - apply calm_of_no_faults. reflexivity.
  - exists w1, w2, w3. subst n. split; [exact H1|]. split; [exact H2|]. split; [exact H3|].
    vm_compute in H1. injection H1 as <-.
    vm_compute in H2. injection H2 as <-.
    vm_compute in H3. injection H3 as <-. reflexivity.
Defined.

(** *** The list of conversations and the search *)

#[local] Instance fresher_transitive : Transitive fresher.
Proof. intros a b c. unfold fresher. lia. Qed.

#[local] Instance fresher_total : Total fresher.
Proof. intros a b. unfold fresher. lia. Qed.

Lemma omap_id_Some {A} (l : list A) : omap id (map Some l) = l.
Proof. induction l as [|x l IH]; cbn; [reflexivity|]. rewrite IH. reflexivity. Qed.

Lemma filter_map_Some {A} (p : A -> bool) (q : option A -> bool) (l : list A) :
  (forall x, q (Some x) = p x) ->
  List.filter q (map Some l) = map Some (List.filter p l).
Proof.
  intros H. induction l as [|x l IH]; cbn; [reflexivity|].
  rewrite H. destruct (p x); cbn; rewrite IH; reflexivity.
Qed.

Lemma filter_nil_existsb {A} (p : A -> bool) (l : list A) :
  existsb p l = match List.filter p l with [] => false | _ => true end.
Proof.
  induction l as [|x l IH]; cbn; [reflexivity|].
  destruct (p x); cbn; [reflexivity|exact IH].
Qed.

Lemma group_of_rows (c : ConversationRow) (l : list MessageRow) :
  match map Some l with
  | [] => None
  | rows => Some (summarize c (omap id rows))
  end
  = match l with
    | [] => None
    | _ => Some (summarize c l)
    end.
Proof.
  destruct l as [|m l]; [reflexivity|].
  cbn [map]. f_equal. f_equal.
  change (omap id (Some m :: map Some l)) with (m :: omap id (map Some l)).
  rewrite omap_id_Some. reflexivity.
Qed.

Lemma search_group_spec pattern t c :
  search_group pattern t c
  = if matches pattern c t then Some (summarize c (counted_messages pattern c t)) else None.
Proof.
  unfold search_group, matching_join, matches, counted_messages.
  destruct (title_like pattern c) eqn:Et; cbn [orb].
  - destruct (messages_of (c_id c) t) as [|m ms]; [reflexivity|].
    rewrite filter_all by reflexivity. apply group_of_rows.
  - destruct (messages_of (c_id c) t) as [|m ms] eqn:Em; [reflexivity|].
    rewrite (filter_map_Some (content_like pattern)) by reflexivity.
    rewrite filter_nil_existsb, group_of_rows.
    destruct (List.filter (content_like pattern) (m :: ms)); reflexivity.
Qed.

(** The search of the server, while the connection holds and the limit
    leaves room for every conversation: the conversations found are
    those whose title or one of whose messages matches, newest first;
    and the [message_count] and [last_message_time] of a conversation
    found are those of all its messages when its title matches, but
    only of the messages that match when it does not. *)
Theorem search_counts_the_matching_messages q limit w :
  next_query_runs w ->
  (length (conversations (tables w)) <= limit)%nat ->
  exists found,
    Conversation.search q JNull (Some (Z.of_nat limit)) w
    = (Resolved found, after_query (tables w) w)
    /\ StronglySorted fresher found
    /\ forall r,
         r ∈ found
         <-> exists c,
               c ∈ conversations (tables w)
               /\ matches (contains_pattern q) c (tables w) = true
               /\ r = summarize c (counted_messages (contains_pattern q) c (tables w)).
Proof.
  intros Hq Hl.
  set (t := tables w). set (pattern := contains_pattern q).
  set (rows := omap (search_group pattern t) (conversations t)).
  exists (merge_sort fresher rows). split; [|split].
  - unfold Conversation.search. cbn [Conversation.user_filter]. rewrite row_count_of_nat.
    rewrite (query_runs _ w (Schema.search_conversations pattern None limit t) t Hq eq_refl).
    unfold Schema.search_conversations. rewrite (filter_all (owned_by None)) by reflexivity.
    fold rows. rewrite take_ge; [reflexivity|].
    rewrite (Permutation_length (merge_sort_Permutation fresher rows)).
    unfold rows. etransitivity; [apply omap_length_le|exact Hl].
  - apply StronglySorted_merge_sort; apply _.
  - intros r. rewrite merge_sort_Permutation. unfold rows.
    rewrite list_elem_of_omap. split.
    + intros (c & Hc & Hg). exists c. split; [exact Hc|].
      rewrite search_group_spec in Hg.
      destruct (matches pattern c t); [|discriminate Hg].
      injection Hg as <-. split; reflexivity.
    + intros (c & Hc & Hm & ->). exists c. split; [exact Hc|].
      rewrite search_group_spec, Hm. reflexivity.
Qed.

Lemma search_counts_the_matching_messages_witness :
  let w := quiet_world diary 50 [] in
  exists found,
    Conversation.search "SEC" JNull (Some 20) w = (Resolved found, after_query diary w)
    /\ {| summary_row := mkConversationRow 1 None (Some "Maize") 10 40;
          message_count := 1;
          last_message_time := Some 35 |} ∈ found
    /\ length (messages_of 1 diary) = 3%nat.
Proof.
  intros w.
  destruct (search_counts_the_matching_messages "SEC" 20 w) as (found & Hs & _ & Hf).
  - discriminate.
  - cbn. lia.
  - exists found. split; [exact Hs|]. split; [|reflexivity].
    apply Hf. exists (mkConversationRow 1 None (Some "Maize") 10 40).
    split; [apply elem_of_cons; left; reflexivity|]. split; reflexivity.
Defined.

Lemma sorted_head {A} (R : relation A) x (l : list A) first rest :
  StronglySorted R (first :: rest) -> x ∈ first :: rest -> x = first \/ R first x.
Proof.
  intros Hs Hx. apply elem_of_cons in Hx as [->|Hx]; [left; reflexivity|].
  right. apply StronglySorted_inv in Hs as [_ Hs].
  rewrite Forall_forall in Hs. apply Hs. exact Hx.
Qed.

(** Once a message has been created in a conversation, at an instant
    later than the last update of every conversation, and both
    statements of the creation have run, the list of conversations
    begins with that conversation: with the instant of the creation as
    its [updated_at] and one message more than before. *)
Theorem conversation_with_the_newest_message_comes_first c content type ty limit w :
  calm 3 w ->
  c ∈ conversations (tables w) ->
  enum_of_string type = Some ty ->
  fits content content_max = true ->
  Forall (fun x => c_updated_at x < clock w) (conversations (tables w)) ->
  exists data w1 first rest w2,
    Message.create (c_id c) content type w = (Resolved data, w1)
    /\ Conversation.findAll JNull (Some (Z.of_nat (S limit))) (Some 0) w1
       = (Resolved (first :: rest), w2)
    /\ c_id (summary_row first) = c_id c
    /\ c_updated_at (summary_row first) = clock w
    /\ message_count first = S (length (messages_of (c_id c) (tables w))).
Proof.
  intros Hq Hin Hty Hfit Hclock.
  set (id := c_id c) in *. set (t := tables w) in *.
  set (new := mkMessageRow (next_message_id t) id content ty (clock w)).
  set (t1 := {| users := users t;
                conversations := conversations t;
                messages := (messages t ++ [new])%list;
                next_conversation_id := next_conversation_id t;
                next_message_id := next_message_id t + 1 |}).
  set (g := fun x => if (c_id x =? id)%Z then touch (clock w) x else x).
  set (t2 := set_conversations (map g (conversations t)) t1).
  assert (Hex : conversation_exists id t = true).
  { apply conversation_exists_spec. apply (list_elem_of_fmap_2 c_id). exact Hin. }
  destruct (query_calm (insert_message id content type) 2 w (next_message_id t) t1 Hq)
    as [Q1 Hq1].
  { unfold insert_message. rewrite Hty. fold t. rewrite Hex, Hfit. reflexivity. }
  destruct (query_calm (touch_conversation id) 1 (after_query t1 w) tt t2 Hq1 eq_refl)
    as [Q2 Hq2].
  set (w1 := after_query t2 (after_query t1 w)) in *.
  set (rows := map (fun x => summarize x (messages_of (c_id x) t2)) (map g (conversations t))).
  destruct (merge_sort fresher rows) as [|first rest] eqn:Es.
  { exfalso.
    pose proof (Permutation_length (merge_sort_Permutation fresher rows)) as Hlen.
    rewrite Es in Hlen. unfold rows in Hlen. rewrite !length_map in Hlen.
    destruct (conversations t); [apply elem_of_nil in Hin; exact Hin|discriminate Hlen]. }
  assert (Hs : StronglySorted fresher (first :: rest)).
  { rewrite <- Es. apply StronglySorted_merge_sort; apply _. }
  assert (Hmem : forall r, r ∈ first :: rest <-> r ∈ rows).
  { intros r. rewrite <- Es. rewrite merge_sort_Permutation. reflexivity. }
  assert (Hfirst : first ∈ rows) by (apply Hmem, elem_of_cons; left; reflexivity).
  unfold rows in Hfirst.
  apply list_elem_of_fmap in Hfirst as (x & Ex & Hx).
  apply list_elem_of_fmap in Hx as (y & Ey & Hy).
  assert (Htarget : summarize (g c) (messages_of (c_id (g c)) t2) ∈ first :: rest).
  { apply Hmem. unfold rows.
    apply (list_elem_of_fmap_2 (fun x => summarize x (messages_of (c_id x) t2))).
    apply (list_elem_of_fmap_2 g). exact Hin. }
  assert (Hgc : g c = touch (clock w) c) by (unfold g, id; rewrite Z.eqb_refl; reflexivity).
  assert (Hnew : c_updated_at x = clock w /\ c_id x = id).
  { destruct (sorted_head fresher _ rest first rest Hs Htarget) as [E|E].
    - rewrite Ex in E. apply (f_equal summary_row) in E. cbn in E.
      rewrite <- E, Hgc. split; reflexivity.
    - unfold fresher in E. rewrite Ex in E. cbn [summary_row summarize] in E.
      rewrite Hgc in E. cbn [touch c_updated_at] in E.
      rewrite Ey in *. unfold g in *.
      destruct (Z.eqb_spec (c_id y) id) as [Eid|Eid].
      + split; [reflexivity|exact Eid].
      + rewrite Forall_forall in Hclock. specialize (Hclock y Hy). lia. }
  destruct Hnew as [Hup Hid].
  exists (JObj [ ("id", JNum (next_message_id t));
                 ("conversation_id", JNum id);
                 ("content", JStr content);
                 ("type", JStr type);
                 ("timestamp", JDate (clock w)) ]), w1, first, (take limit rest),
    (after_query t2 w1).
  split; [|split; [|split; [|split]]].
  - unfold Message.create, Message.updateConversationTimestamp, try_catch, new_Date,
      mbind, SE_bind, mret, SE_ret.
    rewrite Q1, Q2. reflexivity.
  - unfold Conversation.findAll. cbn [Conversation.user_filter].
    rewrite row_count_of_nat. change (Some 0%Z) with (Some (Z.of_nat 0)).
    rewrite row_count_of_nat.
    rewrite (query_runs _ w1 (select_conversations None (S limit) 0 t2) t2
               (calm_next 0 _ Hq2) eq_refl).
    unfold select_conversations. rewrite (filter_all (owned_by None)) by reflexivity.
    cbn [conversations t2 set_conversations]. fold rows. rewrite Es. reflexivity.
  - rewrite Ex. exact Hid.
  - rewrite Ex. exact Hup.
  - rewrite Ex. cbn [summarize message_count]. rewrite Hid.
    unfold messages_of. cbn [messages t2 set_conversations t1].
    rewrite List.filter_app, length_app. cbn [List.filter new m_conversation_id].
    rewrite Z.eqb_refl. cbn [length]. fold (messages_of id t). lia.
Qed.

Lemma conversation_with_the_newest_message_comes_first_witness :
  let w := quiet_world diary 50 [] in
  exists data w1 first rest w2,
    Message.create 2 "more" "user" w = (Resolved data, w1)
    /\ Conversation.findAll JNull (Some 1) (Some 0) w1 = (Resolved (first :: rest), w2)
    /\ c_id (summary_row first) = 2
    /\ c_updated_at (summary_row first) = 50
    /\ message_count first = 2%nat.
Proof.
  intros w.
  apply (conversation_with_the_newest_message_comes_first
           (mkConversationRow 2 None (Some "Beans") 20 25) "more" "user" user 0 w).
  - apply calm_of_no_faults. reflexivity.
  - apply elem_of_cons. right. apply elem_of_cons. left. reflexivity.
  - reflexivity.
  - reflexivity.
  - repeat constructor; cbn; lia.
Defined.

End ServerFacts.

Module UtilsFacts.
Import Js Schema Api ApiTerms ApiFacts UtilsTerms.

(** *** Strings as lists of characters *)

Lemma chars_rev_app s1 s2 :
  list_ascii_of_string (String.rev_app s1 s2)
  = (rev (list_ascii_of_string s1) ++ list_ascii_of_string s2)%list.
Proof.
  revert s2. induction s1 as [|c s1 IH]; intros s2; cbn; [reflexivity|].
  rewrite IH. cbn. rewrite <- app_assoc. reflexivity.
Qed.

Lemma chars_rev s : list_ascii_of_string (String.rev s) = rev (list_ascii_of_string s).
Proof. unfold String.rev. rewrite chars_rev_app. cbn. apply app_nil_r. Qed.

Lemma chars_trimStart s :
  list_ascii_of_string (trimStart s) = skip (list_ascii_of_string s).
Proof.
  induction s as [|c s IH]; cbn; [reflexivity|].
  destruct (is_space c); [exact IH|reflexivity].
Qed.

Lemma chars_trim s : list_ascii_of_string (trim s) = strip (list_ascii_of_string s).
Proof. unfold trim, strip. rewrite chars_rev, chars_trimStart, chars_rev, chars_trimStart. reflexivity. Qed.

Lemma chars_length s : length (list_ascii_of_string s) = String.length s.
Proof. induction s as [|c s IH]; cbn; [reflexivity|]. rewrite IH. reflexivity. Qed.

Lemma chars_inj s1 s2 : list_ascii_of_string s1 = list_ascii_of_string s2 -> s1 = s2.
Proof.
  intros H. rewrite <- (string_of_list_ascii_of_string s1), H.
  apply string_of_list_ascii_of_string.
Qed.

Lemma chars_remove_angles s :
  list_ascii_of_string (StringUtils.remove_angles s)
  = List.filter (fun c => negb (angle c)) (list_ascii_of_string s).
Proof.
  induction s as [|c s IH]; cbn; [reflexivity|]. unfold angle at 1.
  destruct (_ || _); cbn; rewrite IH; reflexivity.
Qed.

(** *** White space at the ends *)

Lemma skip_suffix l : exists spaces, l = (spaces ++ skip l)%list.
Proof.
  induction l as [|c l [spaces IH]]; cbn; [exists []; reflexivity|].
  destruct (is_space c).
  - exists (c :: spaces). cbn. rewrite <- IH. reflexivity.
  - exists []. reflexivity.
Qed.

Lemma skip_head l : match skip l with [] => True | c :: _ => is_space c = false end.
Proof.
  induction l as [|c l IH]; cbn; [exact I|].
  destruct (is_space c) eqn:E; [exact IH|exact E].
Qed.

Lemma skip_fixed l :
  match l with [] => True | c :: _ => is_space c = false end -> skip l = l.
Proof. destruct l as [|c l]; cbn; [reflexivity|]. intros ->. reflexivity. Qed.

Lemma skip_length l : (length (skip l) <= length l)%nat.
Proof.
  induction l as [|c l IH]; cbn; [lia|]. destruct (is_space c); cbn; lia.
Qed.

Lemma skip_subset l c : In c (skip l) -> In c l.
Proof.
  destruct (skip_suffix l) as [spaces E]. intros H. rewrite E.
  apply in_or_app. right. exact H.
Qed.

Lemma strip_length l : (length (strip l) <= length l)%nat.
Proof.
  unfold strip. rewrite length_rev.
  etransitivity; [apply skip_length|]. rewrite length_rev. apply skip_length.
Qed.

Lemma strip_subset l c : In c (strip l) -> In c l.
Proof.
  unfold strip. intros H. apply in_rev in H. apply skip_subset in H.
  apply in_rev in H. apply skip_subset in H. exact H.
Qed.

Lemma strip_strip l : strip (strip l) = strip l.
Proof.
  unfold strip. set (a := skip l). set (b := skip (rev a)).
  assert (Hb : skip (rev b) = rev b).
  { apply skip_fixed.
    destruct (skip_suffix (rev a)) as [spaces E]. fold b in E.
    assert (Ea : a = (rev b ++ rev spaces)%list).
    { rewrite <- (rev_involutive a), E, rev_app_distr. reflexivity. }
    pose proof (skip_head l) as Hh. fold a in Hh.
    destruct (rev b) as [|c r]; [exact I|].
    rewrite Ea in Hh. exact Hh. }
  rewrite Hb, rev_involutive.
  assert (Hbb : skip b = b) by (apply skip_fixed, skip_head).
  rewrite Hbb. reflexivity.
Qed.

Lemma trim_length text : (String.length (trim text) <= String.length text)%nat.
Proof. rewrite <- !chars_length, chars_trim. apply strip_length. Qed.

Lemma filter_fixed {A} (p : A -> bool) (l : list A) :
  (forall x, In x l -> p x = true) -> List.filter p l = l.
Proof.
  induction l as [|x l IH]; cbn; intros H; [reflexivity|].
  rewrite (H x) by (left; reflexivity). rewrite IH; [reflexivity|].
  intros y Hy. apply H. right. exact Hy.
Qed.

(** *** [truncate] *)

Lemma substring_length n text :
  (n <= String.length text)%nat -> String.length (String.substring 0 n text) = n.
Proof.
  revert text. induction n as [|n IH]; intros text H.
  - destruct text; reflexivity.
  - destruct text as [|c text]; cbn in *; [lia|]. rewrite IH by lia. reflexivity.
Qed.

Lemma append_length s1 s2 :
  String.length (s1 ++ s2) = (String.length s1 + String.length s2)%nat.
Proof.
  induction s1 as [|c s1 IH]; [reflexivity|].
  change (S (String.length (s1 ++ s2)) = S (String.length s1 + String.length s2)).
  rewrite IH. reflexivity.
Qed.

(** [truncate] returns a text of at most [maxLength] characters as it
    is, and cuts a longer one down to [maxLength + 3] characters: its
    first [maxLength] characters and three dots. So a text of
    [maxLength + 1] or [maxLength + 2] characters comes out longer than
    it was. [truncateText] of the sidebar is the same function. *)
Theorem truncate_adds_three_characters text maxLength :
  String.length (StringUtils.truncate text maxLength)
  = (if (String.length text <=? maxLength)%nat then String.length text else maxLength + 3)%nat
  /\ String.prefix (String.substring 0 maxLength text) (StringUtils.truncate text maxLength)
     = true
  /\ ChatSidebar.truncateText text maxLength = StringUtils.truncate text maxLength.
Proof.
  unfold StringUtils.truncate, ChatSidebar.truncateText.
  destruct (Nat.leb_spec (String.length text) maxLength) as [H|H].
  - cbv iota. split; [reflexivity|]. split; [|reflexivity].
    apply prefix_correct. clear H. revert maxLength.
    induction text as [|c text IH]; intros [|n]; cbn; try reflexivity.
    rewrite IH. reflexivity.
  - cbv iota. split; [|split; [|reflexivity]].
    + rewrite append_length, substring_length by lia. reflexivity.
    + apply prefix_correct.
      generalize (String.substring 0 maxLength text). clear.
      intros s. induction s as [|c s IH]; [reflexivity|].
      change (String c (String.substring 0 (String.length s) (s ++ "...")) = String c s).
      rewrite IH. reflexivity.
Qed.

(** *** [sanitize] *)

(** The text that [sanitize] returns holds neither [<] nor [>] and has no
    white space at either end; so [sanitize] changes nothing when it is
    applied a second time. The text is never longer than the one
    given. *)
Theorem sanitize_is_idempotent text :
  StringUtils.sanitize (StringUtils.sanitize text) = StringUtils.sanitize text
  /\ trim (StringUtils.sanitize text) = StringUtils.sanitize text
  /\ Forall (fun c => c <> "<"%char /\ c <> ">"%char)
            (list_ascii_of_string (StringUtils.sanitize text))
  /\ (String.length (StringUtils.sanitize text) <= String.length text)%nat.
Proof.
  assert (Hclean : forall c, In c (list_ascii_of_string (StringUtils.sanitize text)) ->
                             negb (angle c) = true).
  { intros c Hc. unfold StringUtils.sanitize in Hc.
    rewrite chars_trim, chars_remove_angles in Hc.
    apply strip_subset, filter_In in Hc as [_ Hc]. exact Hc. }
  assert (Htrim : trim (StringUtils.sanitize text) = StringUtils.sanitize text).
  { apply chars_inj. unfold StringUtils.sanitize. rewrite !chars_trim. apply strip_strip. }
  split; [|split; [exact Htrim|split]].
  - unfold StringUtils.sanitize at 1.
    assert (E : StringUtils.remove_angles (StringUtils.sanitize text)
                = StringUtils.sanitize text).
    { apply chars_inj. rewrite chars_remove_angles. apply filter_fixed. exact Hclean. }
    rewrite E. exact Htrim.
  - apply Forall_forall. intros c Hc. apply list_elem_of_In in Hc.
    specialize (Hclean c Hc). unfold angle in Hclean.
    apply negb_true_iff, orb_false_iff in Hclean as [H1 H2].
    apply bool_decide_eq_false in H1, H2. split; assumption.
  - unfold StringUtils.sanitize. etransitivity; [apply trim_length|].
    rewrite <- !chars_length, chars_remove_angles.
    apply List.filter_length_le.
Qed.

(** *** The check of the client and the validator of the server *)

(** A message that the check of the chat form accepts has between 3 and
    1000 characters and is not blank; sent with one of the three types,
    it passes the validator of the API, and what the route stores of
    it, its trimmed text, fits the column. *)
Theorem accepted_message_passes_the_validator text type req :
  ValidationUtils.isValidMessage text = true ->
  obj_get "content" (body req) = Some (JStr text) ->
  obj_get "type" (body req) = Some (JStr type) ->
  allowed_type (Some (JStr type)) = true ->
  (3 <= String.length text <= 1000)%nat
  /\ trim text <> EmptyString
  /\ validateMessageInput req = None
  /\ fits (trim text) content_max = true.
Proof.
  unfold ValidationUtils.isValidMessage, StringUtils.isValidInput.
  intros H Hc Ht Ha.
  apply andb_prop in H as [H H3]. apply andb_prop in H as [H H1000].
  apply andb_prop in H as [_ Hblank].
  apply Nat.leb_le in H3, H1000. apply Nat.ltb_lt in Hblank.
  assert (Hn : trim text <> EmptyString).
  { intros E. rewrite E in Hblank. cbn in Hblank. lia. }
  split; [lia|]. split; [exact Hn|]. split.
  - apply (valid_message_passes req text type Hc Hn Ht Ha).
  - unfold fits, content_max. apply Z.leb_le.
    pose proof (trim_length text). lia.
Qed.

Lemma accepted_message_passes_the_validator_witness :
  let req := request POST ["api"; "conversations"; "1"; "messages"]
                     [("content", JStr "How deep do I plant maize?"); ("type", JStr "user")] in
  ValidationUtils.isValidMessage "How deep do I plant maize?" = true
  /\ validateMessageInput req = None.
Proof.
  intros req. split; [reflexivity|].
  apply (accepted_message_passes_the_validator "How deep do I plant maize?" "user" req);
    reflexivity.
Defined.

End UtilsFacts.
